(** * git-wt-detach: worktree-list parsing and the detach/revert engine

    A shallow embedding of [worktree.go], [git.go], [detach.go],
    [completion.go] and [cli.go] of Konboi/git-wt-detach, and what is
    proved about them.

    Go strings are byte strings and are modelled by [string].  The Go
    standard-library functions the code calls ([strings.HasPrefix],
    [strings.TrimPrefix], [strings.TrimSpace], and [bufio.Scanner] with
    its default line splitter and token limit) are modelled in module
    [Go].

    The external [git] process is an effect.  A program is a tree of
    [Exec] nodes ([GitM]); [run] interprets it against any model [os] of
    the operating system and records every command issued together with
    its reply.  Statements about which commands the engine issues hold for
    every [os].  Statements about what happens to a repository are made
    against [Sim.git], a model of the part of [git] the engine uses.

    The command line of [cli.go] also prints and asks for confirmation;
    its programs are trees of [Call], [Print] and [Ask] nodes ([CliM]),
    interpreted by [runCli] against an [os] and the answers read from
    standard input.

    Layout: the embedding and all other definitions come first
    (Go library, worktree.go, listings, effects, git.go, detach.go, the
    repository model, completion.go, cli.go, examples); the proofs
    follow. *)

From Stdlib Require Import String Ascii List Bool NArith Lia.
Import ListNotations.
Open Scope string_scope.

(* ================================================================== *)
(** ** Go standard library: the string functions the code uses *)
(* ================================================================== *)

Module Go.

(** [strings.HasPrefix(s, prefix)] *)
Fixpoint HasPrefix (s prefix : string) {struct prefix} : bool :=
  match prefix with
  | EmptyString => true
  | String c prefix' =>
      match s with
      | EmptyString => false
      | String d s' => Ascii.eqb d c && HasPrefix s' prefix'
      end
  end.

(** [s[n:]] for [n <= len(s)] *)
Fixpoint skip (n : nat) (s : string) : string :=
  match n with
  | O => s
  | S n' => match s with EmptyString => EmptyString | String _ s' => skip n' s' end
  end.

(** [strings.TrimPrefix(s, prefix)] *)
Definition TrimPrefix (s prefix : string) : string :=
  if HasPrefix s prefix then skip (String.length prefix) s else s.

(** [strings.Contains(s, substr)] *)
Fixpoint Contains (s substr : string) : bool :=
  HasPrefix s substr
  || match s with
     | EmptyString => false
     | String _ s' => Contains s' substr
     end.

Fixpoint rev (s : string) : string :=
  match s with
  | EmptyString => EmptyString
  | String c s' => rev s' ++ String c EmptyString
  end.

Definition byte (c : ascii) : N := N_of_ascii c.

(** The six ASCII white-space bytes: TAB, LF, VT, FF, CR and SPACE. *)
Definition asciiSpace (c : ascii) : bool :=
  let b := byte c in ((9 <=? b) && (b <=? 13) || (b =? 32))%N.

(** The UTF-8 encodings of the white-space runes above U+007F:
    U+0085, U+00A0 (two bytes); U+1680, U+2000..U+200A, U+2028, U+2029,
    U+202F, U+205F, U+3000 (three bytes). *)
Definition space2 (c0 c1 : ascii) : bool :=
  ((byte c0 =? 194) && ((byte c1 =? 133) || (byte c1 =? 160)))%N.

Definition space3 (c0 c1 c2 : ascii) : bool :=
  let b0 := byte c0 in
  let b1 := byte c1 in
  let b2 := byte c2 in
  ((b0 =? 225) && (b1 =? 154) && (b2 =? 128)
   || (b0 =? 226) && (b1 =? 128)
      && ((128 <=? b2) && (b2 <=? 138) || (b2 =? 168) || (b2 =? 169) || (b2 =? 175))
   || (b0 =? 226) && (b1 =? 129) && (b2 =? 159)
   || (b0 =? 227) && (b1 =? 128) && (b2 =? 128))%N.

(** Strip white-space runes from the front, decoding forwards. *)
Fixpoint trimLeft (s : string) : string :=
  match s with
  | EmptyString => EmptyString
  | String c0 r0 =>
      if asciiSpace c0 then trimLeft r0
      else
        match r0 with
        | EmptyString => s
        | String c1 r1 =>
            if space2 c0 c1 then trimLeft r1
            else
              match r1 with
              | EmptyString => s
              | String c2 r2 => if space3 c0 c1 c2 then trimLeft r2 else s
              end
        end
  end.

(** The same on a reversed string: the bytes of a rune come last byte
    first.  This is what decoding backwards from the end sees. *)
Fixpoint trimLeftRev (s : string) : string :=
  match s with
  | EmptyString => EmptyString
  | String c0 r0 =>
      if asciiSpace c0 then trimLeftRev r0
      else
        match r0 with
        | EmptyString => s
        | String c1 r1 =>
            if space2 c1 c0 then trimLeftRev r1
            else
              match r1 with
              | EmptyString => s
              | String c2 r2 => if space3 c2 c1 c0 then trimLeftRev r2 else s
              end
        end
  end.

Definition trimRight (s : string) : string := rev (trimLeftRev (rev s)).

(** [strings.TrimSpace(s)]: leading and trailing Unicode white space
    removed. *)
Definition TrimSpace (s : string) : string := trimRight (trimLeft s).

(** *** [bufio.Scanner] with [bufio.ScanLines] *)

(** [bufio.MaxScanTokenSize]: the buffer of a scanner never grows beyond
    this, so a line of that many bytes or more stops the scan. *)
Definition MaxScanTokenSize : N := 65536.

Definition LF : ascii := "010"%char.
Definition CR : ascii := "013"%char.

(** [dropCR]: one trailing carriage return is removed from a token. *)
Fixpoint dropCR (s : string) : string :=
  match s with
  | EmptyString => EmptyString
  | String c s' =>
      match s' with
      | EmptyString => if Ascii.eqb c CR then EmptyString else s
      | String _ _ => String c (dropCR s')
      end
  end.

(** The tokens that successive calls of [Scan] deliver, until [Scan]
    returns false.  [tok] is the part of the current line read so far and
    [n] its length.  At a line feed the token is delivered; at the end of
    the input a non-empty rest is delivered; when the pending line fills
    the whole buffer, [Scan] fails with [ErrTooLong] and delivers nothing
    more. *)
Fixpoint scan (s tok : string) (n : N) : list string :=
  match s with
  | EmptyString => if (n =? 0)%N then [] else [dropCR tok]
  | String c s' =>
      if Ascii.eqb c LF then dropCR tok :: scan s' EmptyString 0%N
      else if (MaxScanTokenSize <=? n + 1)%N then []
      else scan s' (tok ++ String c EmptyString) (n + 1)%N
  end.

Definition ScanLines (s : string) : list string := scan s EmptyString 0%N.

End Go.

(* ================================================================== *)
(** ** worktree.go *)
(* ================================================================== *)

(** [type Worktree struct { Path string; Branch string }] *)
Record Worktree : Type := mkWorktree { Path : string; Branch : string }.

(** The state of the loop of [ParseWorktreeList]: the slice [worktrees]
    and the pointer [current] ([None] for [nil]). *)
Definition ParseState : Type := (list Worktree * option Worktree)%type.

(** One iteration of the loop body, on the line [scanner.Text()]. *)
Definition parseLine (st : ParseState) (line : string) : ParseState :=
  let '(worktrees, current) := st in
  if Go.HasPrefix line "worktree " then
    (worktrees, Some {| Path := Go.TrimPrefix line "worktree "; Branch := "" |})
  else if Go.HasPrefix line "branch refs/heads/" then
    match current with
    | Some cur =>
        (worktrees,
         Some {| Path := Path cur;
                 Branch := Go.TrimPrefix line "branch refs/heads/" |})
    | None => st
    end
  else if (line =? "")%string then
    match current with
    | Some cur => ((worktrees ++ [cur])%list, None)
    | None => st
    end
  else st.

(** After the loop: the open record, if any, is appended. *)
Definition parseFinish (st : ParseState) : list Worktree :=
  match snd st with
  | Some cur => (fst st ++ [cur])%list
  | None => fst st
  end.

Definition parseLines (lines : list string) : list Worktree :=
  parseFinish (fold_left parseLine lines ([], None)).

Definition ParseWorktreeList (output : string) : list Worktree :=
  parseLines (Go.ScanLines output).

Definition matchesBranch (branch excludePath : string) (wt : Worktree) : bool :=
  (Branch wt =? branch)%string && negb (Path wt =? excludePath)%string.

Fixpoint FindWorktreeByBranch (worktrees : list Worktree)
    (branch excludePath : string) : option Worktree :=
  match worktrees with
  | [] => None
  | wt :: rest =>
      if matchesBranch branch excludePath wt then Some wt
      else FindWorktreeByBranch rest branch excludePath
  end.

(** A record whose path and branch are read off lines: some line is
    [worktree <path>], and the branch is empty or some line is
    [branch refs/heads/<branch>]. *)
Definition namedBy (lines : list string) (wt : Worktree) : Prop :=
  In ("worktree " ++ Path wt) lines
  /\ (Branch wt = "" \/ In ("branch refs/heads/" ++ Branch wt) lines).

(** The lines the parser looks at: [worktree] lines,
    [branch refs/heads/] lines and blank lines. *)
Definition parserReads (line : string) : bool :=
  Go.HasPrefix line "worktree " || Go.HasPrefix line "branch refs/heads/"
  || (line =? "")%string.

(* ================================================================== *)
(** ** Well-formed porcelain listings *)
(* ================================================================== *)

(** What [git worktree list --porcelain] prints: paragraph blocks, one per
    worktree, separated by a blank line.  A block is a [worktree <path>]
    line followed by attribute lines ([HEAD ...], [branch refs/heads/...],
    [detached], ...). *)
Module Porcelain.

Definition nl : string := String Go.LF EmptyString.

Fixpoint noLF (s : string) : bool :=
  match s with
  | EmptyString => true
  | String c s' => negb (Ascii.eqb c Go.LF) && noLF s'
  end.

Fixpoint endsCR (s : string) : bool :=
  match s with
  | EmptyString => false
  | String c s' =>
      match s' with
      | EmptyString => Ascii.eqb c Go.CR
      | String _ _ => endsCR s'
      end
  end.

(** A line of a well-formed listing: no line feed inside, no carriage
    return at its end, and short enough for the scanner's buffer. *)
Definition wfLine (l : string) : bool :=
  noLF l && negb (endsCR l)
  && (N.of_nat (String.length l) <? Go.MaxScanTokenSize)%N.

Record Block : Type := mkBlock { bpath : string; battrs : list string }.

Definition isBranchLine (l : string) : bool := Go.HasPrefix l "branch refs/heads/".

(** An attribute line: not blank and not the start of another block. *)
Definition attrLine (l : string) : bool :=
  wfLine l && negb (Go.HasPrefix l "worktree ") && negb (l =? "")%string.

Definition wfBlock (b : Block) : bool :=
  wfLine ("worktree " ++ bpath b) && forallb attrLine (battrs b).

Definition blockLines (b : Block) : list string :=
  ("worktree " ++ bpath b) :: battrs b.

(** The branch a block names: that of its last [branch refs/heads/] line,
    the empty string when it has none. *)
Definition lastBranch (attrs : list string) : string :=
  fold_left (fun br l => if isBranchLine l
                         then Go.TrimPrefix l "branch refs/heads/" else br)
            attrs "".

Definition blockRecord (b : Block) : Worktree :=
  {| Path := bpath b; Branch := lastBranch (battrs b) |}.

(** The lines of a listing: the blocks with one blank line between two. *)
Fixpoint listingLines (bs : list Block) : list string :=
  match bs with
  | [] => []
  | b :: rest =>
      match rest with
      | [] => blockLines b
      | _ :: _ => (blockLines b ++ "" :: listingLines rest)%list
      end
  end.

Fixpoint joinLines (ls : list string) : string :=
  match ls with
  | [] => ""
  | l :: rest =>
      match rest with
      | [] => l
      | _ :: _ => l ++ nl ++ joinLines rest
      end
  end.

(** The text of a listing, without a line feed after its last line. *)
Definition renderBlocks (bs : list Block) : string := joinLines (listingLines bs).

End Porcelain.

(* ================================================================== *)
(** ** The external process as an effect *)
(* ================================================================== *)

(** A Go [error]: [None] is [nil], [Some msg] an error whose [Error()]
    is [msg]. *)
Definition GoError : Type := option string.

(** What [exec.Command(...).Output()] returns: the bytes of standard
    output and the error. *)
Definition Reply : Type := (string * GoError)%type.

(** A program that runs external commands: it returns, or runs the
    command [argv] and continues with the reply. *)
Inductive GitM (A : Type) : Type :=
| Ret (a : A)
| Exec (argv : list string) (k : Reply -> GitM A).

Arguments Ret {A} a.
Arguments Exec {A} argv k.

Fixpoint bind {A B : Type} (m : GitM A) (f : A -> GitM B) : GitM B :=
  match m with
  | Ret a => f a
  | Exec argv k => Exec argv (fun r => bind (k r) f)
  end.

Notation "x <- m ;; k" := (bind m (fun x => k))
  (at level 61, m at next level, right associativity).

(** A Go function returning [(T, error)] that returns the zero value
    with every error: [inl v] for [(v, nil)], [inr msg] for an error. *)
Definition Res (T : Type) : Type := (T + string)%type.

(** An issued command together with the reply it got. *)
Definition Event : Type := (list string * Reply)%type.

Section Interpreter.
(** Any model of the operating system: a state and a function that
    runs one command. *)
Context {W : Type} (os : W -> list string -> Reply * W).

(** Result, final state and the commands issued, in order. *)
Fixpoint run {A : Type} (m : GitM A) (w : W) : A * W * list Event :=
  match m with
  | Ret a => (a, w, [])
  | Exec argv k =>
      let '(r, w1) := os w argv in
      let '(a, w2, log) := run (k r) w1 in
      (a, w2, (argv, r) :: log)
  end.

Definition result {A : Type} (m : GitM A) (w : W) : A := fst (fst (run m w)).
Definition final {A : Type} (m : GitM A) (w : W) : W := snd (fst (run m w)).
Definition trace {A : Type} (m : GitM A) (w : W) : list Event := snd (run m w).
End Interpreter.

(* ================================================================== *)
(** ** git.go *)
(* ================================================================== *)

Module Git.
(** [func (g *Git) Run(args ...string) (string, error)] *)
Definition Run (args : list string) : GitM (string * GoError) :=
  Exec ("git" :: args) (fun r => Ret (Go.TrimSpace (fst r), snd r)).

(** [func (g *Git) RunInDir(dir string, args ...string) (string, error)] *)
Definition RunInDir (dir : string) (args : list string) : GitM (string * GoError) :=
  Exec ("git" :: (["-C"; dir] ++ args)%list)
       (fun r => Ret (Go.TrimSpace (fst r), snd r)).
End Git.

(* ================================================================== *)
(** ** detach.go *)
(* ================================================================== *)

Definition DefaultSuffix : string := "__wt_detach".

Record Options : Type := mkOptions
  { DryRun : bool; Revert_ : bool; Force : bool; Yes : bool }.

Record Result : Type := mkResult
  { Success : bool; Message : string; WorktreePath : string; TempBranch : string }.

(** [type Detacher struct { git *Git; suffix string }]; [Git] is an empty
    struct, so the suffix is all the state there is. *)
Record Detacher : Type := mkDetacher { suffix : string }.

Definition NewDetacher : Detacher := {| suffix := DefaultSuffix |}.

Definition SetSuffix (d : Detacher) (s : string) : Detacher :=
  if negb (s =? "")%string then {| suffix := s |} else d.

Definition GetSuffix (d : Detacher) : string := suffix d.

Definition LoadSuffixFromConfig (d : Detacher) : GitM Detacher :=
  r <- Git.Run ["config"; "--get"; "wt-detach.suffix"] ;;
  match snd r with
  | None => if negb (fst r =? "")%string then Ret {| suffix := fst r |} else Ret d
  | Some _ => Ret d
  end.

Definition TempBranchName (d : Detacher) (branch : string) : string :=
  branch ++ suffix d.

Definition BranchExists (branch : string) : GitM bool :=
  r <- Git.Run ["rev-parse"; "--verify"; "refs/heads/" ++ branch] ;;
  Ret (match snd r with None => true | Some _ => false end).

Definition GetCurrentWorktreePath : GitM (Res string) :=
  r <- Git.Run ["rev-parse"; "--show-toplevel"] ;;
  match snd r with
  | Some e => Ret (inr ("failed to get current worktree path: " ++ e))
  | None => Ret (inl (fst r))
  end.

Definition ListWorktrees : GitM (Res (list Worktree)) :=
  r <- Git.Run ["worktree"; "list"; "--porcelain"] ;;
  match snd r with
  | Some e => Ret (inr ("failed to list worktrees: " ++ e))
  | None => Ret (inl (ParseWorktreeList (fst r)))
  end.

Definition FindWorktreeForBranch (branch : string) : GitM (Res (option Worktree)) :=
  cp <- GetCurrentWorktreePath ;;
  match cp with
  | inr e => Ret (inr e)
  | inl currentPath =>
      ws <- ListWorktrees ;;
      match ws with
      | inr e => Ret (inr e)
      | inl worktrees => Ret (inl (FindWorktreeByBranch worktrees branch currentPath))
      end
  end.

Definition HasUncommittedChanges (worktreePath : string) : GitM bool :=
  r <- Git.RunInDir worktreePath ["status"; "--porcelain"] ;;
  match snd r with
  | Some _ => Ret true
  | None => Ret (negb (fst r =? "")%string)
  end.

Definition CreateBranch (branch worktreePath : string) : GitM GoError :=
  r <- Git.RunInDir worktreePath ["branch"; branch] ;;
  match snd r with
  | Some e => Ret (Some ("failed to create branch '" ++ branch ++ "': " ++ e))
  | None => Ret None
  end.

Definition DeleteBranch (branch : string) : GitM GoError :=
  r <- Git.Run ["branch"; "-D"; branch] ;;
  match snd r with
  | Some e => Ret (Some ("failed to delete branch '" ++ branch ++ "': " ++ e))
  | None => Ret None
  end.

Definition errCheckout (branch worktreePath e : string) : string :=
  "failed to checkout '" ++ branch ++ "' in '" ++ worktreePath ++ "': " ++ e.

Definition Checkout (worktreePath branch : string) : GitM GoError :=
  r <- Git.RunInDir worktreePath ["checkout"; branch] ;;
  match snd r with
  | Some e => Ret (Some (errCheckout branch worktreePath e))
  | None => Ret None
  end.

Definition errBranchMissing (branch : string) : string :=
  "branch '" ++ branch ++ "' does not exist".

Definition errUncommitted (path : string) : string :=
  "uncommitted changes found in worktree: " ++ path ++ String Go.LF "  Use --force to override".

Definition errTempExists (tmpBranch : string) : string :=
  "temporary branch '" ++ tmpBranch
  ++ "' already exists. Use --revert first or delete the branch manually".

Definition errTempMissing (tmpBranch : string) : string :=
  "temporary branch '" ++ tmpBranch ++ "' does not exist".

Definition msgNotCheckedOut (branch : string) : string :=
  "Branch '" ++ branch ++ "' is not checked out in any other worktree".

(** [Detach(branch, opts)], returning a [*Result] or an error *)
Definition Detach (d : Detacher) (branch : string) (opts : Options) : GitM (Res Result) :=
  ex <- BranchExists branch ;;
  if negb ex then Ret (inr (errBranchMissing branch))
  else
    let tmpBranch := TempBranchName d branch in
    found <- FindWorktreeForBranch branch ;;
    match found with
    | inr e => Ret (inr e)
    | inl None =>
        Ret (inl {| Success := true; Message := msgNotCheckedOut branch;
                    WorktreePath := ""; TempBranch := "" |})
    | inl (Some wt) =>
        dirty <- HasUncommittedChanges (Path wt) ;;
        if dirty && negb (Force opts) then Ret (inr (errUncommitted (Path wt)))
        else
          tex <- BranchExists tmpBranch ;;
          if tex then Ret (inr (errTempExists tmpBranch))
          else if DryRun opts then
            Ret (inl {| Success := true; Message := "dry-run";
                        WorktreePath := Path wt; TempBranch := tmpBranch |})
          else
            e1 <- CreateBranch tmpBranch (Path wt) ;;
            match e1 with
            | Some e => Ret (inr e)
            | None =>
                e2 <- Checkout (Path wt) tmpBranch ;;
                match e2 with
                | Some e => _ <- DeleteBranch tmpBranch ;; Ret (inr e)
                | None =>
                    Ret (inl {| Success := true;
                                Message := "Branch '" ++ branch ++ "' detached successfully";
                                WorktreePath := Path wt; TempBranch := tmpBranch |})
                end
            end
    end.

(** [Revert(branch, opts)], returning a [*Result] or an error *)
Definition Revert (d : Detacher) (branch : string) (opts : Options) : GitM (Res Result) :=
  ex <- BranchExists branch ;;
  if negb ex then Ret (inr (errBranchMissing branch))
  else
    let tmpBranch := TempBranchName d branch in
    tex <- BranchExists tmpBranch ;;
    if negb tex then Ret (inr (errTempMissing tmpBranch))
    else
      found <- FindWorktreeForBranch tmpBranch ;;
      match found with
      | inr e => Ret (inr e)
      | inl None =>
          if DryRun opts then
            Ret (inl {| Success := true; Message := "dry-run: would delete branch";
                        WorktreePath := ""; TempBranch := tmpBranch |})
          else
            e1 <- DeleteBranch tmpBranch ;;
            match e1 with
            | Some e => Ret (inr e)
            | None =>
                Ret (inl {| Success := true;
                            Message := "Deleted temporary branch '" ++ tmpBranch ++ "'";
                            WorktreePath := ""; TempBranch := tmpBranch |})
            end
      | inl (Some wt) =>
          dirty <- HasUncommittedChanges (Path wt) ;;
          if dirty && negb (Force opts) then Ret (inr (errUncommitted (Path wt)))
          else if DryRun opts then
            Ret (inl {| Success := true; Message := "dry-run";
                        WorktreePath := Path wt; TempBranch := tmpBranch |})
          else
            e1 <- Checkout (Path wt) branch ;;
            match e1 with
            | Some e => Ret (inr e)
            | None =>
                e2 <- DeleteBranch tmpBranch ;;
                match e2 with
                | Some e => Ret (inr e)
                | None =>
                    Ret (inl {| Success := true;
                                Message := "Branch '" ++ branch ++ "' restored successfully";
                                WorktreePath := Path wt; TempBranch := tmpBranch |})
                end
            end
      end.

(** The commands as the methods above spell them. *)
Definition cmdBranchExists (branch : string) : list string :=
  ["git"; "rev-parse"; "--verify"; "refs/heads/" ++ branch].
Definition cmdToplevel : list string := ["git"; "rev-parse"; "--show-toplevel"].
Definition cmdList : list string := ["git"; "worktree"; "list"; "--porcelain"].
Definition cmdStatus (path : string) : list string :=
  ["git"; "-C"; path; "status"; "--porcelain"].
Definition cmdCreate (path branch : string) : list string :=
  ["git"; "-C"; path; "branch"; branch].
Definition cmdCheckout (path branch : string) : list string :=
  ["git"; "-C"; path; "checkout"; branch].
Definition cmdDelete (branch : string) : list string := ["git"; "branch"; "-D"; branch].
Definition cmdConfig : list string := ["git"; "config"; "--get"; "wt-detach.suffix"].

(* ================================================================== *)
(** ** A model of the repository behind the command runner *)
(* ================================================================== *)

(** The version-control system is an external collaborator.  To state what
    a detach followed by a revert does to a repository, the part of [git]
    that the engine talks to is modelled here: branches with the commit
    they point to, worktrees with their checked-out branch, and the eight
    commands the engine issues.  A command that [git] would refuse fails
    with an exit status and changes nothing.

    The model is partial.  It describes a repository with branches only
    (no tags, no remotes, no hooks, no operation in progress), on a file
    system that tells upper case from lower case and whose only
    directories are the top levels of the worktrees; its uncommitted
    changes are modified files, and it follows [git] on plain names (see
    [plainName]).  Where it does not say what [git] does, the command is
    answered with an error, which stands for no answer of [git], and the
    repository is marked [lost]; a statement that a run ends in a
    repository that is not [lost] says that the run stayed inside the
    model.  Of the commands whose output the engine does not read
    ([branch], [checkout], [branch -D]) only the error is modelled, not
    what they print. *)
Module Sim.

Record Tree : Type := mkTree
  { tpath : string;             (* where the worktree lives *)
    thead : string;             (* the commit it is at *)
    tbranch : option string;    (* the branch checked out, None: detached *)
    tdirty : list string }.     (* files with uncommitted changes *)

Record Repo : Type := mkRepo
  { branches : list (string * string);   (* branch name, commit *)
    trees : list Tree;
    cwd : string;                        (* top level of the current worktree *)
    cfgSuffix : option string;           (* config key wt-detach.suffix *)
    lost : bool }.                       (* a command was run on which the
                                            model does not say what git does *)

Definition ok (out : string) (r : Repo) : Reply * Repo := ((out, None), r).
Definition fail (code : string) (r : Repo) : Reply * Repo :=
  (("", Some ("exit status " ++ code)), r).

Definition hasBranch (r : Repo) (b : string) : bool :=
  existsb (fun e => (fst e =? b)%string) (branches r).

Fixpoint commitOf (bs : list (string * string)) (b : string) : option string :=
  match bs with
  | [] => None
  | e :: rest => if (fst e =? b)%string then Some (snd e) else commitOf rest b
  end.

Fixpoint treeAt (ts : list Tree) (p : string) : option Tree :=
  match ts with
  | [] => None
  | t :: rest => if (tpath t =? p)%string then Some t else treeAt rest p
  end.

Definition onBranch (b : string) (t : Tree) : bool :=
  match tbranch t with
  | Some b' => (b' =? b)%string
  | None => false
  end.

(** Some worktree other than the one at [p] has [b] checked out. *)
Definition heldElsewhere (ts : list Tree) (p b : string) : bool :=
  existsb (fun t => onBranch b t && negb (tpath t =? p)%string) ts.

Definition held (ts : list Tree) (b : string) : bool := existsb (onBranch b) ts.

Definition setTree (p : string) (f : Tree -> Tree) (ts : list Tree) : list Tree :=
  map (fun t => if (tpath t =? p)%string then f t else t) ts.

Definition nl : string := Porcelain.nl.

Definition renderTree (t : Tree) : string :=
  "worktree " ++ tpath t ++ nl
  ++ "HEAD " ++ thead t ++ nl
  ++ match tbranch t with
     | Some b => "branch refs/heads/" ++ b
     | None => "detached"
     end ++ nl ++ nl.

Fixpoint renderTrees (ts : list Tree) : string :=
  match ts with
  | [] => ""
  | t :: rest => renderTree t ++ renderTrees rest
  end.

Fixpoint renderStatus (files : list string) : string :=
  match files with
  | [] => ""
  | f :: rest => " M " ++ f ++ nl ++ renderStatus rest
  end.

(** Whether a text begins with a white-space rune, and the same for a
    reversed text (the bytes of the rune last byte first). *)
Definition startsSpace (s : string) : bool :=
  match s with
  | EmptyString => false
  | String c0 r0 =>
      Go.asciiSpace c0
      || match r0 with
         | EmptyString => false
         | String c1 r1 =>
             Go.space2 c0 c1
             || match r1 with
                | EmptyString => false
                | String c2 _ => Go.space3 c0 c1 c2
                end
         end
  end.

Definition startsSpaceRev (s : string) : bool :=
  match s with
  | EmptyString => false
  | String c0 r0 =>
      Go.asciiSpace c0
      || match r0 with
         | EmptyString => false
         | String c1 r1 =>
             Go.space2 c1 c0
             || match r1 with
                | EmptyString => false
                | String c2 _ => Go.space3 c2 c1 c0
                end
         end
  end.

Definition endsSpace (s : string) : bool := startsSpaceRev (Go.rev s).

(** Names the listing can carry unharmed: not empty, no line feed inside,
    no white-space rune at either end (the command runner trims what it
    reads), and short enough for a path or a ref. *)
Definition wfName (s : string) : bool :=
  Porcelain.noLF s && negb (s =? "")%string
  && negb (startsSpace s) && negb (endsSpace s)
  && (N.of_nat (String.length s) <=? 4096)%N.

(** *** The names the model covers

    What [git] makes of a name is more than a lookup: a name can be a
    revision expression ([feature-x^0], [x~1], [x@{1}]), the output of
    [git describe] ([x-3-gabc1234]), a full object name, an option
    ([-D]); [git branch] refuses some names ([a b], [x.lock], [HEAD], a
    name too long for a file) and cannot create [x] next to [x/y].  The
    model follows [git] on plain names only: well-formed names of at most
    100 bytes made of lower-case letters, digits, [_] and [-], that do not
    begin with [-], do not contain [-g] and are not made of hexadecimal
    digits alone.  On any other name that is not the name of a branch of
    the repository the model does not say what [git] does: the command is
    answered with an error and the repository is marked [lost]. *)
Definition plainByte (c : ascii) : bool :=
  let b := Go.byte c in
  ((97 <=? b) && (b <=? 122) || (48 <=? b) && (b <=? 57) || (b =? 95) || (b =? 45))%N.

Definition hexByte (c : ascii) : bool :=
  let b := Go.byte c in
  ((48 <=? b) && (b <=? 57) || (97 <=? b) && (b <=? 102))%N.

Fixpoint allBytes (f : ascii -> bool) (s : string) : bool :=
  match s with
  | EmptyString => true
  | String c s' => f c && allBytes f s'
  end.

Definition plainName (s : string) : bool :=
  wfName s && allBytes plainByte s
  && negb (Go.HasPrefix s "-") && negb (Go.Contains s "-g")
  && negb (allBytes hexByte s)
  && (N.of_nat (String.length s) <=? 100)%N.

(** The command is outside what the model covers. *)
Definition lose (r : Repo) : Reply * Repo :=
  (("", Some "exit status 128"),
   {| branches := branches r; trees := trees r; cwd := cwd r;
      cfgSuffix := cfgSuffix r; lost := true |}).

(** [git] knows no branch by this name: there is none, the name is
    plain, and no branch is called [refs/heads/<name>] (which
    [git rev-parse] would find instead). *)
Definition absent (r : Repo) (name : string) : bool :=
  negb (hasBranch r name) && plainName name
  && negb (hasBranch r ("refs/heads/" ++ name)).

(** Some branch is called [<b>/...]: the ref [<b>] cannot be created
    beside it. *)
Definition nameUnder (r : Repo) (b : string) : bool :=
  existsb (fun e => Go.HasPrefix (fst e) (b ++ "/")) (branches r).

(** [git branch <b>] would create the branch. *)
Definition creatable (r : Repo) (b : string) : bool :=
  absent r b && negb (nameUnder r b).

(** [git rev-parse --verify refs/heads/<name>]: the commit of the branch
    when there is one; an error when [git] knows no such branch. *)
Definition revParseVerify (r : Repo) (ref : string) : Reply * Repo :=
  if Go.HasPrefix ref "refs/heads/" then
    let name := Go.TrimPrefix ref "refs/heads/" in
    match commitOf (branches r) name with
    | Some c => ok (c ++ nl) r
    | None => if absent r name then fail "128" r else lose r
    end
  else lose r.

Definition showToplevel (r : Repo) : Reply * Repo :=
  match treeAt (trees r) (cwd r) with
  | Some _ => ok (cwd r ++ nl) r
  | None => fail "128" r
  end.

Definition worktreeList (r : Repo) : Reply * Repo := ok (renderTrees (trees r)) r.

Definition status (r : Repo) (p : string) : Reply * Repo :=
  match treeAt (trees r) p with
  | Some t => ok (renderStatus (tdirty t)) r
  | None => fail "128" r
  end.

(** [git -C <p> branch <b>]: refused when the branch exists; the branch
    is created at the commit of the worktree when [git] would create it;
    for any other name the model does not say. *)
Definition createBranch (r : Repo) (p b : string) : Reply * Repo :=
  match treeAt (trees r) p with
  | Some t =>
      if hasBranch r b then fail "128" r
      else if creatable r b then
        ok "" {| branches := (branches r ++ [(b, thead t)])%list;
                 trees := trees r; cwd := cwd r; cfgSuffix := cfgSuffix r;
                 lost := lost r |}
      else lose r
  | None => fail "128" r
  end.

(** The worktree has no uncommitted changes. *)
Definition clean (t : Tree) : bool :=
  match tdirty t with
  | [] => true
  | _ :: _ => false
  end.

(** [git -C <p> checkout <b>]: refused when another worktree has the
    branch checked out; the worktree is switched when it is clean, or
    when the branch points to the commit the worktree is at (the
    uncommitted changes are then carried along).  With uncommitted
    changes and another commit, [git] switches unless a changed file
    differs between the two commits, which the model does not record;
    and for a name that is no branch [git] may take it for a path or for
    a branch of a remote: there the model does not say. *)
Definition checkout (r : Repo) (p b : string) : Reply * Repo :=
  match treeAt (trees r) p with
  | None => fail "128" r
  | Some t =>
      match commitOf (branches r) b with
      | None => lose r
      | Some c =>
          if heldElsewhere (trees r) p b then fail "128" r
          else if clean t || (c =? thead t)%string then
            ok "" {| branches := branches r;
                     trees := setTree p (fun t => {| tpath := tpath t; thead := c;
                                                     tbranch := Some b;
                                                     tdirty := tdirty t |}) (trees r);
                     cwd := cwd r; cfgSuffix := cfgSuffix r; lost := lost r |}
          else lose r
      end
  end.

(** [git branch -D <b>]: the branch is deleted unless a worktree has it
    checked out; an error when [git] knows no such branch. *)
Definition deleteBranch (r : Repo) (b : string) : Reply * Repo :=
  if hasBranch r b && negb (held (trees r) b) then
    ok "" {| branches := filter (fun e => negb (fst e =? b)%string) (branches r);
             trees := trees r; cwd := cwd r; cfgSuffix := cfgSuffix r; lost := lost r |}
  else if hasBranch r b || absent r b then fail "1" r
  else lose r.

Definition configGet (r : Repo) (key : string) : Reply * Repo :=
  if (key =? "wt-detach.suffix")%string then
    match cfgSuffix r with
    | Some v => ok (v ++ nl) r
    | None => fail "1" r
    end
  else lose r.

Definition arg (a b : string) : bool := (a =? b)%string.

(** The process [git argv[1:]...], started in the current worktree.  The
    model covers the eight commands of the engine and no other. *)
Definition git (r : Repo) (argv : list string) : Reply * Repo :=
  match argv with
  | [g; a; b] =>
      if arg g "git" && arg a "rev-parse" && arg b "--show-toplevel" then showToplevel r
      else lose r
  | [g; a; b; c] =>
      if negb (arg g "git") then lose r
      else if arg a "rev-parse" && arg b "--verify" then revParseVerify r c
      else if arg a "worktree" && arg b "list" && arg c "--porcelain" then worktreeList r
      else if arg a "branch" && arg b "-D" then deleteBranch r c
      else if arg a "config" && arg b "--get" then configGet r c
      else lose r
  | [g; a; p; b; c] =>
      if negb (arg g "git" && arg a "-C") then lose r
      else if arg b "status" && arg c "--porcelain" then status r p
      else if arg b "branch" then createBranch r p c
      else if arg b "checkout" then checkout r p c
      else lose r
  | _ => lose r
  end.

(** The record the parser is expected to deliver for a worktree. *)
Definition recordOf (t : Tree) : Worktree :=
  {| Path := tpath t;
     Branch := match tbranch t with Some b => b | None => "" end |}.

(** The paragraph block that [renderTree] prints for a worktree. *)
Definition branchLine (t : Tree) : string :=
  match tbranch t with
  | Some b => "branch refs/heads/" ++ b
  | None => "detached"
  end.

Definition blockOf (t : Tree) : Porcelain.Block :=
  {| Porcelain.bpath := tpath t;
     Porcelain.battrs := ["HEAD " ++ thead t; branchLine t] |}.

Definition wfTree (t : Tree) : bool :=
  wfName (tpath t) && wfName (thead t)
  && match tbranch t with Some b => wfName b | None => true end.

Fixpoint distinct (l : list string) : bool :=
  match l with
  | [] => true
  | x :: rest => negb (existsb (String.eqb x) rest) && distinct rest
  end.

Fixpoint checkedOut (ts : list Tree) : list string :=
  match ts with
  | [] => []
  | t :: rest =>
      match tbranch t with
      | Some b => b :: checkedOut rest
      | None => checkedOut rest
      end
  end.

(** The repository once [git branch tmp] and [git checkout tmp] have run
    in the worktree [t]: the temp branch points to the commit [t] is at,
    and [t] is on the temp branch; its files are untouched. *)
Definition afterDetach (r : Repo) (t : Tree) (tmp : string) : Repo :=
  {| branches := (branches r ++ [(tmp, thead t)])%list;
     trees := setTree (tpath t)
                (fun x => {| tpath := tpath x; thead := thead t;
                             tbranch := Some tmp; tdirty := tdirty x |})
                (trees r);
     cwd := cwd r;
     cfgSuffix := cfgSuffix r; lost := lost r |}.

(** The repository once [git branch -D b] has run. *)
Definition afterDelete (r : Repo) (b : string) : Repo :=
  {| branches := filter (fun e => negb (fst e =? b)%string) (branches r);
     trees := trees r;
     cwd := cwd r;
     cfgSuffix := cfgSuffix r; lost := lost r |}.

(** The repository once [git checkout b] has run in the worktree [t],
    [b] pointing to commit [c], and [git branch -D tmp] after it. *)
Definition afterRevert (r : Repo) (t : Tree) (b c tmp : string) : Repo :=
  {| branches := filter (fun e => negb (fst e =? tmp)%string) (branches r);
     trees := setTree (tpath t)
                (fun x => {| tpath := tpath x; thead := c;
                             tbranch := Some b; tdirty := tdirty x |})
                (trees r);
     cwd := cwd r;
     cfgSuffix := cfgSuffix r; lost := lost r |}.

(** A repository as [git] keeps it: well-formed names, worktrees at
    distinct paths, no branch checked out twice, every checked-out branch
    exists and its worktree is at the commit of the branch, and the
    command runs inside one of the worktrees. *)
Definition wfRepo (r : Repo) : bool :=
  forallb wfTree (trees r)
  && forallb (fun e => wfName (fst e)) (branches r)
  && distinct (map tpath (trees r))
  && distinct (map fst (branches r))
  && distinct (checkedOut (trees r))
  && forallb (fun t => match tbranch t with
                       | Some b => match commitOf (branches r) b with
                                   | Some c => (c =? thead t)%string
                                   | None => false
                                   end
                       | None => true
                       end) (trees r)
  && match treeAt (trees r) (cwd r) with Some _ => true | None => false end.

End Sim.

(* ================================================================== *)
(** ** Predicates of the statements below *)
(* ================================================================== *)

(** The detachers a program can get hold of: [NewDetacher()] and what
    [SetSuffix] and [LoadSuffixFromConfig] make of it, whatever the
    operating system answers. *)
Inductive Reachable : Detacher -> Prop :=
| reach_new : Reachable NewDetacher
| reach_set (d : Detacher) (s : string) :
    Reachable d -> Reachable (SetSuffix d s)
| reach_load (d : Detacher) (W : Type) (os : W -> list string -> Reply * W) (w : W) :
    Reachable d -> Reachable (result os (LoadSuffixFromConfig d) w).

(** The commands that change the repository: creating a branch, checking
    one out, deleting one. *)
Definition isCreate (argv : list string) : bool :=
  match argv with
  | [g; c; _; b; _] => (g =? "git")%string && (c =? "-C")%string && (b =? "branch")%string
  | _ => false
  end.

Definition isCheckout (argv : list string) : bool :=
  match argv with
  | [g; c; _; b; _] => (g =? "git")%string && (c =? "-C")%string && (b =? "checkout")%string
  | _ => false
  end.

Definition isDelete (argv : list string) : bool :=
  match argv with
  | [g; a; b; _] => (g =? "git")%string && (a =? "branch")%string && (b =? "-D")%string
  | _ => false
  end.

Definition mutating (argv : list string) : bool :=
  isCreate argv || isCheckout argv || isDelete argv.

Definition readOnly (log : list Event) : Prop :=
  Forall (fun ev => mutating (fst ev) = false) log.

(** The status query [git -C <path> status --porcelain]. *)
Definition isStatus (argv : list string) : bool :=
  match argv with
  | [g; c; _; b; _] => (g =? "git")%string && (c =? "-C")%string && (b =? "status")%string
  | _ => false
  end.

(** Projections used to tell outcomes apart. *)
Definition headByte (r : Res Result) : option ascii :=
  match r with
  | inr (String c _) => Some c
  | _ => None
  end.

Definition messageOf (r : Res Result) : string :=
  match r with
  | inl x => Message x
  | inr e => e
  end.

(* ================================================================== *)
(** ** completion.go *)
(* ================================================================== *)

(** The double quote, which a string literal of this file does not hold. *)
Definition dq : string := String "034"%char EmptyString.

(** Lines, each followed by a line feed. *)
Fixpoint unlines (ls : list string) : string :=
  match ls with
  | [] => EmptyString
  | l :: rest => l ++ String Go.LF (unlines rest)
  end.

Definition bashCompletion : string :=
  unlines
    [
      "# bash completion for git-wt-detach";
      "_git_wt_detach_branches() {";
      "    git worktree list --porcelain 2>/dev/null | grep '^branch ' | sed 's/^branch refs\/heads\///'";
      "}";
      "";
      "_git_wt_detach() {";
      "    local cur=" ++ dq ++ "${COMP_WORDS[COMP_CWORD]}" ++ dq;
      "    local branches=$(_git_wt_detach_branches)";
      "    COMPREPLY=($(compgen -W " ++ dq ++ "${branches}" ++ dq ++ " -- " ++ dq ++ "${cur}" ++ dq ++ "))";
      "}";
      "";
      "# Complete for direct command";
      "complete -F _git_wt_detach git-wt-detach";
      "";
      "# Complete for git subcommand";
      "_git_wt_detach_subcommand() {";
      "    if [[ ${COMP_WORDS[1]} == " ++ dq ++ "wt-detach" ++ dq ++ " ]]; then";
      "        local cur=" ++ dq ++ "${COMP_WORDS[COMP_CWORD]}" ++ dq;
      "        local branches=$(_git_wt_detach_branches)";
      "        COMPREPLY=($(compgen -W " ++ dq ++ "${branches}" ++ dq ++ " -- " ++ dq ++ "${cur}" ++ dq ++ "))";
      "    fi";
      "}";
      "";
      "# Hook into git completion if available";
      "if type _git &>/dev/null; then";
      "    _git_wt_detach_orig_git=$(declare -f _git | tail -n +2)";
      "    _git() {";
      "        if [[ ${COMP_WORDS[1]} == " ++ dq ++ "wt-detach" ++ dq ++ " ]]; then";
      "            _git_wt_detach_subcommand";
      "        else";
      "            eval " ++ dq ++ "${_git_wt_detach_orig_git}" ++ dq;
      "        fi";
      "    }";
      "fi"
    ].

Definition zshCompletion : string :=
  unlines
    [
      "# zsh completion for git-wt-detach";
      "_git-wt-detach() {";
      "    local -a branches";
      "    branches=(${(f)" ++ dq ++ "$(git worktree list --porcelain 2>/dev/null | grep '^branch ' | sed 's/^branch refs\/heads\///')" ++ dq ++ "})";
      "    _describe 'branch' branches";
      "}";
      "";
      "compdef _git-wt-detach git-wt-detach";
      "";
      "# Also register as git subcommand";
      "_git-wt-detach-subcommand() {";
      "    local -a branches";
      "    branches=(${(f)" ++ dq ++ "$(git worktree list --porcelain 2>/dev/null | grep '^branch ' | sed 's/^branch refs\/heads\///')" ++ dq ++ "})";
      "    _describe 'branch' branches";
      "}";
      "";
      "# Register completion for " ++ dq ++ "git wt-detach" ++ dq;
      "zstyle ':completion:*:*:git:*' user-commands wt-detach:'Temporarily detach a branch checked out in another worktree'"
    ].

Definition fishCompletion : string :=
  unlines
    [
      "# fish completion for git-wt-detach";
      "function __fish_git_wt_detach_branches";
      "    git worktree list --porcelain 2>/dev/null | grep '^branch ' | sed 's/^branch refs\/heads\///'";
      "end";
      "";
      "complete -c git-wt-detach -f -a '(__fish_git_wt_detach_branches)' -d 'Branch'";
      "complete -c git-wt-detach -s n -l dry-run -d 'Show what would be done without making changes'";
      "complete -c git-wt-detach -s r -l revert -d 'Revert the temporary detach'";
      "complete -c git-wt-detach -s f -l force -d 'Force execution even with uncommitted changes'";
      "complete -c git-wt-detach -s y -l yes -d 'Skip confirmation prompt'";
      "complete -c git-wt-detach -l version -d 'Show version'";
      "";
      "# git subcommand completion";
      "complete -c git -n '__fish_git_using_command wt-detach' -f -a '(__fish_git_wt_detach_branches)' -d 'Branch'"
    ].

(** [func CompletionScript(shell string) (string, error)] *)
Definition CompletionScript (shell : string) : Res string :=
  if (shell =? "bash")%string then inl bashCompletion
  else if (shell =? "zsh")%string then inl zshCompletion
  else if (shell =? "fish")%string then inl fishCompletion
  else inr ("unsupported shell: " ++ shell ++ " (supported: bash, zsh, fish)").

(* ================================================================== *)
(** ** cli.go *)
(* ================================================================== *)

(** The command line prints to standard output and, in [readYesNo()],
    reads a line from standard input.  A program of the command line
    returns, runs an external command, prints a text, or asks for a yes
    or no.  What [readYesNo()] makes of the line it reads is the answer
    the program continues with; like the reply of a command, it is given
    by the environment. *)
Inductive CliM (A : Type) : Type :=
| Done (a : A)
| Call (argv : list string) (k : Reply -> CliM A)
| Print (text : string) (k : CliM A)
| Ask (k : bool -> CliM A).

Arguments Done {A} a.
Arguments Call {A} argv k.
Arguments Print {A} text k.
Arguments Ask {A} k.

Fixpoint cbind {A B : Type} (m : CliM A) (f : A -> CliM B) : CliM B :=
  match m with
  | Done a => f a
  | Call argv k => Call argv (fun r => cbind (k r) f)
  | Print text k => Print text (cbind k f)
  | Ask k => Ask (fun b => cbind (k b) f)
  end.

Notation "x <-- m ;; k" := (cbind m (fun x => k))
  (at level 61, m at next level, right associativity).

(** A method of the detacher called from the command line. *)
Fixpoint lift {A : Type} (m : GitM A) : CliM A :=
  match m with
  | Ret a => Done a
  | Exec argv k => Call argv (fun r => lift (k r))
  end.

(** What a run of the command line does, in order: a command with its
    reply, a text printed, a question with the answer read. *)
Inductive Action : Type :=
| Ran (ev : Event)
| Printed (text : string)
| Asked (answer : bool).

Section CliInterpreter.
Context {W : Type} (os : W -> list string -> Reply * W).

(** [stdin] holds the answers of the successive calls of [readYesNo()];
    when none is left the answer is no, as it is when reading fails. *)
Fixpoint runCli {A : Type} (m : CliM A) (w : W) (stdin : list bool)
  : A * W * list Action :=
  match m with
  | Done a => (a, w, [])
  | Call argv k =>
      let '(r, w1) := os w argv in
      let '(a, w2, log) := runCli (k r) w1 stdin in
      (a, w2, Ran (argv, r) :: log)
  | Print text k =>
      let '(a, w2, log) := runCli k w stdin in
      (a, w2, Printed text :: log)
  | Ask k =>
      let '(a, w2, log) := runCli (k (hd false stdin)) w (tl stdin) in
      (a, w2, Asked (hd false stdin) :: log)
  end.

Definition outcome {A : Type} (m : CliM A) (w : W) (stdin : list bool) : A :=
  fst (fst (runCli m w stdin)).
Definition endState {A : Type} (m : CliM A) (w : W) (stdin : list bool) : W :=
  snd (fst (runCli m w stdin)).
Definition actions {A : Type} (m : CliM A) (w : W) (stdin : list bool) : list Action :=
  snd (runCli m w stdin).
End CliInterpreter.

(** The commands, the texts and the answers among the actions. *)
Fixpoint commands (acts : list Action) : list Event :=
  match acts with
  | [] => []
  | Ran ev :: rest => ev :: commands rest
  | _ :: rest => commands rest
  end.

Fixpoint printed (acts : list Action) : list string :=
  match acts with
  | [] => []
  | Printed text :: rest => text :: printed rest
  | _ :: rest => printed rest
  end.

Fixpoint answers (acts : list Action) : list bool :=
  match acts with
  | [] => []
  | Asked b :: rest => b :: answers rest
  | _ :: rest => answers rest
  end.

(** No command that changes the repository is run before the question
    has been answered with yes. *)
Fixpoint consentFirst (acts : list Action) : bool :=
  match acts with
  | [] => true
  | Asked true :: _ => true
  | Ran ev :: rest => negb (mutating (fst ev)) && consentFirst rest
  | _ :: rest => consentFirst rest
  end.

(** The fields of [type CLI struct] but [Version], which the argument
    parser handles before [Run] is called. *)
Module Cli.
Record CLI : Type := mkCLI
  { Branch : string; DryRun : bool; Revert : bool; Force : bool; Yes : bool;
    Init : string }.
End Cli.

(** U+2714 and U+26A0 in UTF-8. *)
Definition checkMark : string :=
  String "226"%char (String "156"%char (String "148"%char EmptyString)).
Definition warningSign : string :=
  String "226"%char (String "154"%char (String "160"%char EmptyString)).

(** [func readYesNo() bool] *)
Definition readYesNo : CliM bool := Ask (fun answer => Done answer).

(** [func (c *CLI) confirm(branch, worktreePath, tmpBranch string) bool] *)
Definition confirm (branch worktreePath tmpBranch : string) : CliM bool :=
  Print ("Branch '" ++ branch ++ "' is currently checked out in:" ++ Porcelain.nl)
  (Print ("  " ++ worktreePath ++ Porcelain.nl ++ Porcelain.nl)
  (Print ("It will be temporarily replaced by:" ++ Porcelain.nl)
  (Print ("  " ++ tmpBranch ++ Porcelain.nl ++ Porcelain.nl)
  (Print "Proceed? [y/N] "
   readYesNo)))).

Definition msgAborted : string := "Aborted." ++ Porcelain.nl.

(** [func (c *CLI) runDetach(d *Detacher, opts *Options) error] *)
Definition runDetach (c : Cli.CLI) (d : Detacher) (opts : Options) : CliM GoError :=
  let branch := Cli.Branch c in
  ex <-- lift (BranchExists branch) ;;
  if negb ex then Done (Some (errBranchMissing branch))
  else
    found <-- lift (FindWorktreeForBranch branch) ;;
    match found with
    | inr e => Done (Some e)
    | inl None =>
        Print (msgNotCheckedOut branch ++ "." ++ Porcelain.nl) (Done None)
    | inl (Some wt) =>
        Print (checkMark ++ " Found worktree: " ++ Path wt ++ Porcelain.nl)
        (dirty <-- lift (HasUncommittedChanges (Path wt)) ;;
         let tmpBranch := TempBranchName d branch in
         let execute : CliM GoError :=
           r <-- lift (Detach d branch opts) ;;
           match r with
           | inr e => Done (Some e)
           | inl result =>
               Print (checkMark ++ " Created temp branch: " ++ TempBranch result
                      ++ Porcelain.nl)
               (Print (checkMark ++ " Switched worktree branch" ++ Porcelain.nl)
               (Print (checkMark ++ " Branch detached: " ++ branch ++ Porcelain.nl)
               (Done None)))
           end in
         let rest : CliM GoError :=
           if DryRun opts then
             Print ("would create branch: " ++ tmpBranch ++ Porcelain.nl)
             (Print ("would checkout in worktree: " ++ Path wt ++ Porcelain.nl)
             (Done None))
           else if negb (Yes opts) then
             ok <-- confirm branch (Path wt) tmpBranch ;;
             if negb ok then Print msgAborted (Done None) else execute
           else execute in
         if dirty then
           if negb (Force opts) then Done (Some (errUncommitted (Path wt)))
           else
             Print (warningSign ++ " Warning: Uncommitted changes found in worktree: "
                    ++ Path wt ++ Porcelain.nl)
             rest
         else rest)
    end.

(** [func (c *CLI) runRevert(d *Detacher, opts *Options) error] *)
Definition runRevert (c : Cli.CLI) (d : Detacher) (opts : Options) : CliM GoError :=
  let branch := Cli.Branch c in
  let tmpBranch := TempBranchName d branch in
  tex <-- lift (BranchExists tmpBranch) ;;
  if negb tex then Done (Some (errTempMissing tmpBranch))
  else
    found <-- lift (FindWorktreeForBranch tmpBranch) ;;
    match found with
    | inr e => Done (Some e)
    | inl None =>
        if DryRun opts then
          Print ("would delete branch: " ++ tmpBranch ++ Porcelain.nl) (Done None)
        else
          r <-- lift (Revert d branch opts) ;;
          match r with
          | inr e => Done (Some e)
          | inl result =>
              Print (checkMark ++ " Deleted temp branch: " ++ TempBranch result
                     ++ Porcelain.nl)
              (Done None)
          end
    | inl (Some wt) =>
        Print (checkMark ++ " Found worktree with temp branch: " ++ Path wt
               ++ Porcelain.nl)
        (dirty <-- lift (HasUncommittedChanges (Path wt)) ;;
         let execute : CliM GoError :=
           r <-- lift (Revert d branch opts) ;;
           match r with
           | inr e => Done (Some e)
           | inl result =>
               Print (checkMark ++ " Switched worktree to: " ++ branch ++ Porcelain.nl)
               (Print (checkMark ++ " Deleted temp branch: " ++ TempBranch result
                       ++ Porcelain.nl)
               (Print (checkMark ++ " Branch restored: " ++ branch ++ Porcelain.nl)
               (Done None)))
           end in
         let rest : CliM GoError :=
           if DryRun opts then
             Print ("would checkout branch in worktree: " ++ Path wt ++ " -> " ++ branch
                    ++ Porcelain.nl)
             (Print ("would delete branch: " ++ tmpBranch ++ Porcelain.nl)
             (Done None))
           else if negb (Yes opts) then
             Print ("Worktree '" ++ Path wt ++ "' will be switched back to branch '"
                    ++ branch ++ "'" ++ Porcelain.nl)
             (Print ("Temporary branch '" ++ tmpBranch ++ "' will be deleted."
                     ++ Porcelain.nl ++ Porcelain.nl)
             (Print "Proceed? [y/N] "
             (ok <-- readYesNo ;;
              if negb ok then Print msgAborted (Done None) else execute)))
           else execute in
         if dirty then
           if negb (Force opts) then Done (Some (errUncommitted (Path wt)))
           else
             Print (warningSign ++ " Warning: Uncommitted changes found in worktree: "
                    ++ Path wt ++ Porcelain.nl)
             rest
         else rest)
    end.

(** [func (c *CLI) Run() error] *)
Definition CLI_Run (c : Cli.CLI) : CliM GoError :=
  if negb (Cli.Init c =? "")%string then
    match CompletionScript (Cli.Init c) with
    | inr e => Done (Some e)
    | inl script => Print script (Done None)
    end
  else if (Cli.Branch c =? "")%string then Done (Some "branch name is required")
  else
    d <-- lift (LoadSuffixFromConfig NewDetacher) ;;
    let opts := {| DryRun := Cli.DryRun c; Revert_ := Cli.Revert c;
                   Force := Cli.Force c; Yes := Cli.Yes c |} in
    if Cli.Revert c then runRevert c d opts else runDetach c d opts.

(* ================================================================== *)
(** ** Example repositories *)
(* ================================================================== *)

Module Examples.

(** The main repository on main, run from there; feature-x is checked out
    in a second worktree. *)
Definition twoTrees : Sim.Repo :=
  {| Sim.branches := [("main", "c0"); ("feature-x", "c1")];
     Sim.trees :=
       [ {| Sim.tpath := "/repo"; Sim.thead := "c0";
            Sim.tbranch := Some "main"; Sim.tdirty := [] |};
         {| Sim.tpath := "/wt/x"; Sim.thead := "c1";
            Sim.tbranch := Some "feature-x"; Sim.tdirty := [] |} ];
     Sim.cwd := "/repo";
     Sim.cfgSuffix := None;
     Sim.lost := false |}.

(** The same after a detach, but the command is run from inside the
    worktree that holds the temp branch. *)
Definition insideDetached : Sim.Repo :=
  {| Sim.branches := [("main", "c0"); ("feature-x", "c1");
                      ("feature-x__wt_detach", "c1")];
     Sim.trees :=
       [ {| Sim.tpath := "/repo"; Sim.thead := "c0";
            Sim.tbranch := Some "main"; Sim.tdirty := [] |};
         {| Sim.tpath := "/wt/x"; Sim.thead := "c1";
            Sim.tbranch := Some "feature-x__wt_detach"; Sim.tdirty := [] |} ];
     Sim.cwd := "/wt/x";
     Sim.cfgSuffix := None;
     Sim.lost := false |}.

(** A left-over temp branch that no worktree holds. *)
Definition orphanTemp : Sim.Repo :=
  {| Sim.branches := [("main", "c0"); ("feature-x", "c1");
                      ("feature-x__wt_detach", "c1")];
     Sim.trees :=
       [ {| Sim.tpath := "/repo"; Sim.thead := "c0";
            Sim.tbranch := Some "main"; Sim.tdirty := [] |} ];
     Sim.cwd := "/repo";
     Sim.cfgSuffix := None;
     Sim.lost := false |}.

(** feature-x checked out in a worktree with eleven modified files. *)
Definition elevenDirty : Sim.Repo :=
  {| Sim.branches := [("main", "c0"); ("feature-x", "c1")];
     Sim.trees :=
       [ {| Sim.tpath := "/repo"; Sim.thead := "c0";
            Sim.tbranch := Some "main"; Sim.tdirty := [] |};
         {| Sim.tpath := "/wt/x"; Sim.thead := "c1";
            Sim.tbranch := Some "feature-x";
            Sim.tdirty := ["f01.txt"; "f02.txt"; "f03.txt"; "f04.txt"; "f05.txt";
                           "f06.txt"; "f07.txt"; "f08.txt"; "f09.txt"; "f10.txt";
                           "f11.txt"] |} ];
     Sim.cwd := "/repo";
     Sim.cfgSuffix := None;
     Sim.lost := false |}.

(** The same once feature-x has been detached with force. *)
Definition elevenDirtyDetached : Sim.Repo :=
  {| Sim.branches := [("main", "c0"); ("feature-x", "c1");
                      ("feature-x__wt_detach", "c1")];
     Sim.trees :=
       [ {| Sim.tpath := "/repo"; Sim.thead := "c0";
            Sim.tbranch := Some "main"; Sim.tdirty := [] |};
         {| Sim.tpath := "/wt/x"; Sim.thead := "c1";
            Sim.tbranch := Some "feature-x__wt_detach";
            Sim.tdirty := ["f01.txt"; "f02.txt"; "f03.txt"; "f04.txt"; "f05.txt";
                           "f06.txt"; "f07.txt"; "f08.txt"; "f09.txt"; "f10.txt";
                           "f11.txt"] |} ];
     Sim.cwd := "/repo";
     Sim.cfgSuffix := None;
     Sim.lost := false |}.

Definition plain : Options :=
  {| DryRun := false; Revert_ := false; Force := false; Yes := true |}.

Definition dry : Options :=
  {| DryRun := true; Revert_ := false; Force := false; Yes := true |}.

(** An operating system whose [git checkout] always fails, on top of the
    repository model: everything else is answered by [Sim.git]. *)
Definition checkoutFails (r : Sim.Repo) (argv : list string) : Reply * Sim.Repo :=
  if isCheckout argv then Sim.fail "1" r else Sim.git r argv.


(** [Examples.twoTrees] after a detach of feature-x, run from /repo. *)
Definition detachedRepo : Sim.Repo :=
  {| Sim.branches := [("main", "c0"); ("feature-x", "c1");
                      ("feature-x__wt_detach", "c1")];
     Sim.trees :=
       [ {| Sim.tpath := "/repo"; Sim.thead := "c0";
            Sim.tbranch := Some "main"; Sim.tdirty := [] |};
         {| Sim.tpath := "/wt/x"; Sim.thead := "c1";
            Sim.tbranch := Some "feature-x__wt_detach"; Sim.tdirty := [] |} ];
     Sim.cwd := "/repo";
     Sim.cfgSuffix := None;
     Sim.lost := false |}.

(** [Examples.orphanTemp] without the temp branch. *)
Definition orphanGone : Sim.Repo :=
  {| Sim.branches := [("main", "c0"); ("feature-x", "c1")];
     Sim.trees :=
       [ {| Sim.tpath := "/repo"; Sim.thead := "c0";
            Sim.tbranch := Some "main"; Sim.tdirty := [] |} ];
     Sim.cwd := "/repo";
     Sim.cfgSuffix := None;
     Sim.lost := false |}.

(** Operating systems on top of the repository model in which one kind
    of command always fails. *)
Definition deleteFails (r : Sim.Repo) (argv : list string) : Reply * Sim.Repo :=
  if isDelete argv then Sim.fail "1" r else Sim.git r argv.

Definition createFails (r : Sim.Repo) (argv : list string) : Reply * Sim.Repo :=
  if isCreate argv then Sim.fail "128" r else Sim.git r argv.

Definition statusFails (r : Sim.Repo) (argv : list string) : Reply * Sim.Repo :=
  match argv with
  | [_; _; _; b; _] => if (b =? "status")%string then Sim.fail "128" r else Sim.git r argv
  | _ => Sim.git r argv
  end.

Definition forced : Options :=
  {| DryRun := false; Revert_ := false; Force := true; Yes := true |}.


(** Long lines for the scanner: [n] bytes x, and a [worktree] line of
    more than [Go.MaxScanTokenSize] bytes. *)
Fixpoint pad (n : nat) : string :=
  match n with
  | O => EmptyString
  | S n' => String "x" (pad n')
  end.

Definition longLine : string := "worktree /" ++ pad (N.to_nat Go.MaxScanTokenSize).


(** Command lines without [--yes] and without [--force]: plain, and with
    [--dry-run]. *)
Definition cli (branch : string) (revert : bool) : Cli.CLI :=
  {| Cli.Branch := branch; Cli.DryRun := false; Cli.Revert := revert;
     Cli.Force := false; Cli.Yes := false; Cli.Init := "" |}.

Definition cliDry (branch : string) (revert : bool) : Cli.CLI :=
  {| Cli.Branch := branch; Cli.DryRun := true; Cli.Revert := revert;
     Cli.Force := false; Cli.Yes := false; Cli.Init := "" |}.

End Examples.

(* ================================================================== *)
(** * Proofs *)
(* ================================================================== *)

(* ================================================================== *)
(** ** Strings *)
(* ================================================================== *)

Lemma append_nil_r (s : string) : s ++ "" = s.
Proof. induction s as [|c s IH]; simpl; [reflexivity | now rewrite IH]. Qed.

Lemma append_assoc (a b c : string) : (a ++ b) ++ c = a ++ (b ++ c).
Proof. induction a as [|x a IH]; simpl; [reflexivity | now rewrite IH]. Qed.

Lemma length_append (a b : string) :
  String.length (a ++ b) = String.length a + String.length b.
Proof. induction a as [|x a IH]; simpl; [reflexivity | now rewrite IH]. Qed.

Lemma append_inv_head (a b c : string) : a ++ b = a ++ c -> b = c.
Proof.
  induction a as [|x a IH]; simpl; intros H; [exact H | ].
  injection H as H. now apply IH.
Qed.

Lemma append_neq_self (b s : string) : s <> "" -> b ++ s <> b.
Proof.
  intros Hs H. apply (f_equal String.length) in H.
  rewrite length_append in H. destruct s; [now apply Hs | simpl in H; lia].
Qed.

Lemma HasPrefix_append (p s : string) : Go.HasPrefix (p ++ s) p = true.
Proof.
  induction p as [|c p IH]; simpl; [reflexivity | ].
  now rewrite Ascii.eqb_refl, IH.
Qed.

Lemma Contains_append_l (pre s sub : string) :
  Go.Contains s sub = true -> Go.Contains (pre ++ s) sub = true.
Proof.
  intros H. induction pre as [|c pre IH]; simpl; [exact H | ].
  rewrite IH. apply orb_true_r.
Qed.

(* ================================================================== *)
(** ** FindWorktreeByBranch *)
(* ================================================================== *)

Lemma matchesBranch_true (branch excludePath : string) (wt : Worktree) :
  matchesBranch branch excludePath wt = true <->
  Branch wt = branch /\ Path wt <> excludePath.
Proof.
  unfold matchesBranch. rewrite andb_true_iff, negb_true_iff.
  rewrite String.eqb_eq, String.eqb_neq. tauto.
Qed.

Lemma matchesBranch_false (branch excludePath : string) (wt : Worktree) :
  matchesBranch branch excludePath wt = false <->
  ~ (Branch wt = branch /\ Path wt <> excludePath).
Proof.
  rewrite <- matchesBranch_true.
  destruct (matchesBranch branch excludePath wt); split; intros H;
    try reflexivity; try discriminate; try (intros H'; discriminate).
  exfalso. apply H. reflexivity.
Qed.

Lemma Find_Some (worktrees : list Worktree) (branch excludePath : string) (wt : Worktree) :
  FindWorktreeByBranch worktrees branch excludePath = Some wt ->
  exists before after,
    worktrees = (before ++ wt :: after)%list
    /\ Branch wt = branch /\ Path wt <> excludePath
    /\ (forall w, In w before -> ~ (Branch w = branch /\ Path w <> excludePath)).
Proof.
  induction worktrees as [|x rest IH]; simpl; [discriminate | ].
  destruct (matchesBranch branch excludePath x) eqn:E.
  - intros H. injection H as <-. apply matchesBranch_true in E.
    exists [], rest. simpl. repeat split; try tauto.
  - intros H. destruct (IH H) as (before & after & -> & Hb & Hp & Hfirst).
    exists (x :: before), after. repeat split; try assumption.
    intros w [<- | Hin]; [now apply matchesBranch_false | now apply Hfirst].
Qed.

Lemma Find_None (worktrees : list Worktree) (branch excludePath : string) :
  FindWorktreeByBranch worktrees branch excludePath = None <->
  (forall w, In w worktrees -> ~ (Branch w = branch /\ Path w <> excludePath)).
Proof.
  induction worktrees as [|x rest IH]; simpl.
  - split; [intros _ w [] | reflexivity].
  - destruct (matchesBranch branch excludePath x) eqn:E.
    + split; [discriminate | ]. intros H. exfalso.
      apply (H x); [now left | now apply matchesBranch_true].
    + rewrite IH. split.
      * intros H w [<- | Hin]; [now apply matchesBranch_false | now apply H].
      * intros H w Hin. apply H. now right.
Qed.

Lemma Find_first (worktrees before after : list Worktree) (wt : Worktree) (b p : string) :
  worktrees = (before ++ wt :: after)%list ->
  Branch wt = b -> Path wt <> p ->
  (forall x, In x before -> ~ (Branch x = b /\ Path x <> p)) ->
  FindWorktreeByBranch worktrees b p = Some wt.
Proof.
  intros -> Hb Hp. induction before as [|x before IH]; intros Hfirst.
  - cbn [app FindWorktreeByBranch].
    now rewrite (proj2 (matchesBranch_true b p wt) (conj Hb Hp)).
  - cbn [app FindWorktreeByBranch].
    rewrite (proj2 (matchesBranch_false b p x)) by (apply Hfirst; now left).
    apply IH. intros y Hy. apply Hfirst. now right.
Qed.

(** C7.  For every worktree list, branch [b] and exclude path [p],
    [FindWorktreeByBranch] returns the first record, in input order,
    whose branch is [b] and whose path is not [p]; it returns none exactly
    when there is no such record; a record at path [p] is never returned,
    not even when it is the only one on branch [b]. *)
Theorem FindWorktreeByBranch_first_match :
  forall (worktrees : list Worktree) (b p : string),
    match FindWorktreeByBranch worktrees b p with
    | Some wt =>
        Path wt <> p /\ Branch wt = b
        /\ exists before after,
             worktrees = (before ++ wt :: after)%list
             /\ forall w, In w before -> ~ (Branch w = b /\ Path w <> p)
    | None => forall w, In w worktrees -> ~ (Branch w = b /\ Path w <> p)
    end.
Proof.
  intros worktrees b p.
  destruct (FindWorktreeByBranch worktrees b p) as [wt|] eqn:E.
  - destruct (Find_Some _ _ _ _ E) as (before & after & Heq & Hb & Hp & Hfirst).
    repeat split; try assumption. now exists before, after.
  - now apply Find_None.
Qed.

(* ================================================================== *)
(** ** ParseWorktreeList *)
(* ================================================================== *)

Lemma parseLine_worktree (ws : list Worktree) (cur : option Worktree) (p : string) :
  parseLine (ws, cur) ("worktree " ++ p) = (ws, Some {| Path := p; Branch := "" |}).
Proof. reflexivity. Qed.

Lemma parseLine_blank (st : ParseState) :
  parseLine st "" = match snd st with
                    | Some cur => ((fst st ++ [cur])%list, None)
                    | None => st
                    end.
Proof. destruct st as [ws [cur|]]; reflexivity. Qed.

(** Within the loop only a blank line appends, and then exactly the
    open record. *)
Lemma parseLine_output (st : ParseState) (line : string) :
  fst (parseLine st line) = fst st
  \/ (line = "" /\ exists cur, snd st = Some cur
                             /\ parseLine st line = ((fst st ++ [cur])%list, None)).
Proof.
  destruct st as [ws cur]. unfold parseLine.
  destruct (Go.HasPrefix line "worktree "); [now left | ].
  destruct (Go.HasPrefix line "branch refs/heads/").
  - destruct cur; now left.
  - destruct (String.eqb_spec line "") as [-> | Hne]; [ | now left].
    destruct cur as [c|]; [right | now left].
    split; [reflexivity | ]. now exists c.
Qed.

(** Lines none of which is blank leave the output where it is and keep
    an open record open. *)
Lemma fold_parseLine_no_blank (mid : list string) (ws : list Worktree) (c : Worktree) :
  ~ In "" mid ->
  exists c', fold_left parseLine mid (ws, Some c) = (ws, Some c').
Proof.
  revert c. induction mid as [|l mid IH]; intros c Hno; cbn [fold_left].
  - now exists c.
  - assert (Hl : l <> "") by (intros ->; apply Hno; now left).
    assert (Hmid : ~ In "" mid) by (intros H; apply Hno; now right).
    assert (Hstep : exists c1, parseLine (ws, Some c) l = (ws, Some c1)).
    { unfold parseLine.
      destruct (Go.HasPrefix l "worktree "); [eexists; reflexivity | ].
      destruct (Go.HasPrefix l "branch refs/heads/"); [eexists; reflexivity | ].
      destruct (String.eqb_spec l "") as [-> | _]; [now elim Hl | now exists c]. }
    destruct Hstep as [c1 ->]. now apply IH.
Qed.

Lemma parseFinish_blank (st : ParseState) :
  parseFinish (parseLine st "") = parseFinish st.
Proof. rewrite parseLine_blank. destruct st as [ws [cur|]]; reflexivity. Qed.

Lemma parseLines_snoc_blank (ls : list string) :
  parseLines (ls ++ [""]) = parseLines ls.
Proof.
  unfold parseLines. rewrite fold_left_app. simpl. apply parseFinish_blank.
Qed.

(** C10.  A [worktree <path>] line met while a record is open replaces
    the open record and appends nothing; within the loop only a blank
    line appends (and then the open record); hence in every input where a
    [worktree] line is followed, with no blank line in between, by another
    [worktree] line, the record begun by the first is lost: the result is
    that of the input without the first line and the lines up to the
    second.  For instance, "worktree /a\nworktree /b" parses to the single
    record with path /b and empty branch. *)
Theorem ParseWorktreeList_worktree_line_replaces_open_record :
  (forall (ws : list Worktree) (cur : Worktree) (p : string),
      parseLine (ws, Some cur) ("worktree " ++ p)
      = (ws, Some {| Path := p; Branch := "" |}))
  /\ (forall (st : ParseState) (line : string),
        fst (parseLine st line) = fst st
        \/ (line = "" /\ exists cur, snd st = Some cur
                                   /\ parseLine st line = ((fst st ++ [cur])%list, None)))
  /\ (forall (output : string) (pre mid post : list string) (p1 p2 : string),
        Go.ScanLines output
        = (pre ++ ("worktree " ++ p1)%string :: mid
               ++ ("worktree " ++ p2)%string :: post)%list ->
        ~ In "" mid ->
        ParseWorktreeList output
        = parseLines (pre ++ ("worktree " ++ p2)%string :: post)%list)
  /\ ParseWorktreeList ("worktree /a" ++ Porcelain.nl ++ "worktree /b")
     = [{| Path := "/b"; Branch := "" |}].
Proof.
  split; [intros; apply parseLine_worktree | ].
  split; [exact parseLine_output | ].
  split; [ | reflexivity].
  intros output pre mid post p1 p2 Hlines Hmid.
  unfold ParseWorktreeList, parseLines. rewrite Hlines. f_equal.
  rewrite !fold_left_app.
  destruct (fold_left parseLine pre ([], None)) as [ws cur].
  cbn [fold_left]. rewrite !parseLine_worktree, fold_left_app.
  destruct (fold_parseLine_no_blank mid ws {| Path := p1; Branch := "" |} Hmid) as [c' ->].
  cbn [fold_left]. now rewrite parseLine_worktree.
Qed.

(** *** The scanner on well-formed lines *)

Lemma dropCR_id (l : string) : Porcelain.endsCR l = false -> Go.dropCR l = l.
Proof.
  induction l as [|c l IH]; [reflexivity | ].
  cbn [Porcelain.endsCR Go.dropCR]. destruct l as [|d l].
  - intros ->. reflexivity.
  - intros H. now rewrite (IH H).
Qed.

Lemma scan_line (l rest tok : string) (n : N) :
  Porcelain.noLF l = true ->
  (n + N.of_nat (String.length l) < Go.MaxScanTokenSize)%N ->
  Go.scan (l ++ String Go.LF rest) tok n
  = Go.dropCR (tok ++ l) :: Go.scan rest "" 0%N.
Proof.
  revert tok n. induction l as [|c l IH]; intros tok n Hlf Hlen.
  - cbn [append Go.scan]. rewrite Ascii.eqb_refl, append_nil_r. reflexivity.
  - cbn [append Go.scan]. cbn [Porcelain.noLF] in Hlf.
    apply andb_true_iff in Hlf as [Hc Hl]. apply negb_true_iff in Hc.
    rewrite Hc. cbn [String.length] in Hlen.
    destruct (N.leb_spec Go.MaxScanTokenSize (n + 1)) as [Hbig | _]; [lia | ].
    rewrite IH; [ | assumption | lia].
    rewrite append_assoc. reflexivity.
Qed.

Lemma scan_last (l tok : string) (n : N) :
  Porcelain.noLF l = true ->
  (n + N.of_nat (String.length l) < Go.MaxScanTokenSize)%N ->
  Go.scan l tok n
  = if (n + N.of_nat (String.length l) =? 0)%N then [] else [Go.dropCR (tok ++ l)].
Proof.
  revert tok n. induction l as [|c l IH]; intros tok n Hlf Hlen.
  - cbn [append Go.scan String.length]. rewrite append_nil_r.
    replace (n + N.of_nat 0)%N with n by lia. reflexivity.
  - cbn [Go.scan]. cbn [Porcelain.noLF] in Hlf.
    apply andb_true_iff in Hlf as [Hc Hl]. apply negb_true_iff in Hc.
    rewrite Hc. cbn [String.length] in Hlen |- *.
    destruct (N.leb_spec Go.MaxScanTokenSize (n + 1)) as [Hbig | _]; [lia | ].
    rewrite IH; [ | assumption | lia].
    rewrite append_assoc. cbn [append].
    replace (n + 1 + N.of_nat (String.length l))%N
      with (n + N.of_nat (S (String.length l)))%N by lia.
    reflexivity.
Qed.

Lemma wfLine_parts (l : string) :
  Porcelain.wfLine l = true ->
  Porcelain.noLF l = true /\ Porcelain.endsCR l = false
  /\ (N.of_nat (String.length l) < Go.MaxScanTokenSize)%N.
Proof.
  unfold Porcelain.wfLine. rewrite !andb_true_iff, negb_true_iff, N.ltb_lt. tauto.
Qed.

(** Scanning the text of well-formed lines gives the lines back, provided
    the last one is not empty (an empty last line is no token). *)
Lemma ScanLines_joinLines (ls : list string) :
  forallb Porcelain.wfLine ls = true ->
  last ls "x" <> "" ->
  Go.ScanLines (Porcelain.joinLines ls) = ls.
Proof.
  unfold Go.ScanLines. induction ls as [|l rest IH]; intros Hwf Hlast.
  - reflexivity.
  - cbn [forallb] in Hwf. apply andb_true_iff in Hwf as [Hl Hrest].
    destruct (wfLine_parts l Hl) as (Hlf & Hcr & Hlen).
    cbn [Porcelain.joinLines]. destruct rest as [|l' rest'].
    + rewrite scan_last; [ | assumption | lia]. cbn [append].
      cbn [last] in Hlast.
      destruct l as [|c l]; [now elim Hlast | ].
      cbn [String.length]. rewrite N.add_0_l.
      destruct (N.eqb_spec (N.of_nat (S (String.length l))) 0) as [E | _]; [lia | ].
      now rewrite dropCR_id.
    + unfold Porcelain.nl. cbn [append].
      rewrite scan_line; [ | assumption | lia]. cbn [append].
      rewrite dropCR_id by assumption. f_equal.
      apply IH; [assumption | exact Hlast].
Qed.

(** A line feed after the last line adds at most one empty token. *)
Lemma scan_append_nl (s tok : string) (n : N) :
  n = N.of_nat (String.length tok) ->
  Go.scan (s ++ Porcelain.nl) tok n = Go.scan s tok n
  \/ Go.scan (s ++ Porcelain.nl) tok n = (Go.scan s tok n ++ [""])%list.
Proof.
  revert tok n. induction s as [|c s IH]; intros tok n Hn.
  - cbn [append Porcelain.nl Go.scan]. rewrite Ascii.eqb_refl.
    destruct (N.eqb_spec n 0) as [E | _]; [right | now left].
    destruct tok; [reflexivity | cbn [String.length] in Hn; lia].
  - cbn [append Go.scan]. destruct (Ascii.eqb c Go.LF).
    + destruct (IH "" 0%N eq_refl) as [-> | ->]; [now left | now right].
    + destruct (Go.MaxScanTokenSize <=? n + 1)%N; [now left | ].
      apply IH. rewrite length_append. cbn [String.length]. lia.
Qed.

Lemma ParseWorktreeList_append_nl (s : string) :
  ParseWorktreeList (s ++ Porcelain.nl) = ParseWorktreeList s.
Proof.
  unfold ParseWorktreeList, Go.ScanLines.
  destruct (scan_append_nl s "" 0%N eq_refl) as [-> | ->];
    [reflexivity | apply parseLines_snoc_blank].
Qed.

(** *** The parser on well-formed blocks *)

Lemma attrLine_parts (l : string) :
  Porcelain.attrLine l = true ->
  Porcelain.wfLine l = true /\ Go.HasPrefix l "worktree " = false /\ l <> "".
Proof.
  unfold Porcelain.attrLine.
  rewrite !andb_true_iff, !negb_true_iff, String.eqb_neq. tauto.
Qed.

Lemma fold_parseLine_attrs (attrs : list string) (ws : list Worktree) (p br : string) :
  forallb Porcelain.attrLine attrs = true ->
  fold_left parseLine attrs (ws, Some {| Path := p; Branch := br |})
  = (ws, Some {| Path := p;
                 Branch := fold_left
                             (fun br l => if Porcelain.isBranchLine l
                                          then Go.TrimPrefix l "branch refs/heads/"
                                          else br) attrs br |}).
Proof.
  revert br. induction attrs as [|l attrs IH]; intros br Hwf; [reflexivity | ].
  cbn [forallb] in Hwf. apply andb_true_iff in Hwf as [Hl Hrest].
  destruct (attrLine_parts l Hl) as (_ & Hw & Hne).
  cbn [fold_left]. unfold parseLine at 2. rewrite Hw.
  unfold Porcelain.isBranchLine at 2.
  destruct (Go.HasPrefix l "branch refs/heads/").
  - cbn [Path]. now apply IH.
  - destruct (String.eqb_spec l "") as [E | _]; [now elim Hne | ]. now apply IH.
Qed.

Lemma fold_parseLine_block (b : Porcelain.Block) (ws : list Worktree) (cur : option Worktree) :
  Porcelain.wfBlock b = true ->
  fold_left parseLine (Porcelain.blockLines b) (ws, cur)
  = (ws, Some (Porcelain.blockRecord b)).
Proof.
  unfold Porcelain.wfBlock. intros Hwf. apply andb_true_iff in Hwf as [_ Hattrs].
  unfold Porcelain.blockLines. cbn [fold_left]. rewrite parseLine_worktree.
  now rewrite fold_parseLine_attrs.
Qed.

Lemma parse_listingLines (bs : list Porcelain.Block) (ws : list Worktree) :
  forallb Porcelain.wfBlock bs = true ->
  parseFinish (fold_left parseLine (Porcelain.listingLines bs) (ws, None))
  = (ws ++ map Porcelain.blockRecord bs)%list.
Proof.
  revert ws. induction bs as [|b rest IH]; intros ws Hwf.
  - cbn. now rewrite app_nil_r.
  - cbn [forallb] in Hwf. apply andb_true_iff in Hwf as [Hb Hrest].
    cbn [Porcelain.listingLines]. destruct rest as [|b' rest'].
    + rewrite fold_parseLine_block by assumption. reflexivity.
    + rewrite fold_left_app, fold_parseLine_block by assumption.
      cbn [fold_left]. rewrite parseLine_blank. cbn [fst snd].
      rewrite IH by assumption. cbn [map]. now rewrite <- app_assoc.
Qed.

Lemma wfBlock_lines (b : Porcelain.Block) :
  Porcelain.wfBlock b = true ->
  forallb Porcelain.wfLine (Porcelain.blockLines b) = true
  /\ last (Porcelain.blockLines b) "x" <> "".
Proof.
  unfold Porcelain.wfBlock, Porcelain.blockLines. intros H.
  apply andb_true_iff in H as [Hp Hattrs]. split.
  - cbn [forallb]. rewrite Hp. cbn [andb].
    apply forallb_forall. intros l Hl.
    rewrite forallb_forall in Hattrs. now apply attrLine_parts, Hattrs.
  - assert (G : forall (d : string) (attrs : list string),
               d <> "" -> forallb Porcelain.attrLine attrs = true ->
               last (d :: attrs) "x" <> "").
    { intros d attrs. revert d. induction attrs as [|a attrs IH]; intros d Hd Hal.
      - exact Hd.
      - cbn [forallb] in Hal. apply andb_true_iff in Hal as [Ha Hal].
        change (last (d :: a :: attrs) "x") with (last (a :: attrs) "x").
        apply IH; [now apply attrLine_parts | assumption]. }
    apply G; [discriminate | assumption].
Qed.

Lemma last_app_nonempty (A : Type) (l1 l2 : list A) (x d : A) :
  last (l1 ++ x :: l2) d = last (x :: l2) d.
Proof.
  induction l1 as [|a l1 IH]; [reflexivity | ].
  cbn [app]. destruct (l1 ++ x :: l2)%list eqn:E.
  - destruct l1; discriminate.
  - cbn [last]. cbn [last] in IH. exact IH.
Qed.

Lemma listingLines_wf (bs : list Porcelain.Block) :
  forallb Porcelain.wfBlock bs = true ->
  forallb Porcelain.wfLine (Porcelain.listingLines bs) = true
  /\ last (Porcelain.listingLines bs) "x" <> "".
Proof.
  induction bs as [|b rest IH]; intros Hwf.
  - split; [reflexivity | discriminate].
  - cbn [forallb] in Hwf. apply andb_true_iff in Hwf as [Hb Hrest].
    destruct (wfBlock_lines b Hb) as [Hl Hlast].
    cbn [Porcelain.listingLines]. destruct rest as [|b' rest'].
    + now split.
    + destruct (IH Hrest) as [IHl IHlast]. split.
      * rewrite forallb_app, Hl. cbn [forallb andb]. exact IHl.
      * rewrite last_app_nonempty.
        destruct (Porcelain.listingLines (b' :: rest')) eqn:E; [ | exact IHlast].
        exfalso. cbn [Porcelain.listingLines Porcelain.blockLines] in E.
        destruct rest'; discriminate E.
Qed.




(* ================================================================== *)
(** ** The suffix *)
(* ================================================================== *)

Lemma SetSuffix_nonempty (d : Detacher) (s : string) :
  suffix d <> "" -> suffix (SetSuffix d s) <> "".
Proof.
  unfold SetSuffix. intros Hd.
  destruct (String.eqb_spec s "") as [-> | Hs]; cbn; assumption.
Qed.

Lemma LoadSuffixFromConfig_result (d : Detacher) (W : Type)
    (os : W -> list string -> Reply * W) (w : W) :
  result os (LoadSuffixFromConfig d) w
  = match snd (fst (os w cmdConfig)) with
    | None =>
        if negb (Go.TrimSpace (fst (fst (os w cmdConfig))) =? "")%string
        then {| suffix := Go.TrimSpace (fst (fst (os w cmdConfig))) |}
        else d
    | Some _ => d
    end.
Proof.
  unfold result, LoadSuffixFromConfig, Git.Run, cmdConfig. cbn [bind run].
  destruct (os w ["git"; "config"; "--get"; "wt-detach.suffix"]) as [[out err] w1].
  cbn [fst snd]. destruct err as [e|]; [reflexivity | ].
  destruct (negb (Go.TrimSpace out =? "")%string); reflexivity.
Qed.

Lemma LoadSuffixFromConfig_nonempty (d : Detacher) (W : Type)
    (os : W -> list string -> Reply * W) (w : W) :
  suffix d <> "" -> suffix (result os (LoadSuffixFromConfig d) w) <> "".
Proof.
  intros Hd. rewrite LoadSuffixFromConfig_result.
  destruct (snd (fst (os w cmdConfig))); [assumption | ].
  destruct (String.eqb_spec (Go.TrimSpace (fst (fst (os w cmdConfig)))) "") as [E | E];
    cbn; assumption.
Qed.

Lemma Reachable_nonempty (d : Detacher) : Reachable d -> suffix d <> "".
Proof.
  induction 1 as [ | d s _ IH | d W os w _ IH].
  - discriminate.
  - now apply SetSuffix_nonempty.
  - now apply LoadSuffixFromConfig_nonempty.
Qed.

(** C9.  The suffix of a detacher is never empty: [NewDetacher] sets it
    to "__wt_detach"; [SetSuffix] with the empty string changes nothing
    and with any other string installs that string;
    [LoadSuffixFromConfig] keeps the detacher unless the configuration
    was read without error and its trimmed value is not empty, and then
    installs that value; so every detacher reached this way has a
    non-empty suffix and [TempBranchName d b] differs from [b]. *)
Theorem suffix_never_empty :
  GetSuffix NewDetacher = "__wt_detach"
  /\ (forall d : Detacher, SetSuffix d "" = d)
  /\ (forall (d : Detacher) (s : string), s <> "" -> GetSuffix (SetSuffix d s) = s)
  /\ (forall (d : Detacher) (W : Type) (os : W -> list string -> Reply * W) (w : W),
        let d' := result os (LoadSuffixFromConfig d) w in
        d' = d
        \/ (snd (fst (os w cmdConfig)) = None
            /\ GetSuffix d' = Go.TrimSpace (fst (fst (os w cmdConfig)))
            /\ GetSuffix d' <> ""))
  /\ (forall d : Detacher,
        Reachable d ->
        GetSuffix d <> "" /\ forall b : string, TempBranchName d b <> b).
Proof.
  split; [reflexivity | ].
  split; [reflexivity | ].
  split.
  { intros d s Hs. unfold SetSuffix.
    destruct (String.eqb_spec s "") as [E | _]; [now elim Hs | reflexivity]. }
  split.
  { intros d W os w d'. subst d'. rewrite LoadSuffixFromConfig_result.
    destruct (snd (fst (os w cmdConfig))); [now left | ].
    destruct (String.eqb_spec (Go.TrimSpace (fst (fst (os w cmdConfig)))) "") as [E | E];
      cbn [negb]; [now left | right]. repeat split. exact E. }
  intros d Hd. pose proof (Reachable_nonempty d Hd) as Hne.
  split; [exact Hne | ]. intros b. now apply append_neq_self.
Qed.

(* ================================================================== *)
(** ** Detach: what is issued on each path *)
(* ================================================================== *)

Arguments Go.TrimSpace : simpl never.
Arguments ParseWorktreeList : simpl never.
Arguments FindWorktreeByBranch : simpl never.

(** Run one more command of the program under [run], splitting on what
    the operating system answers and on every test the program makes. *)
Ltac exec_step os :=
  cbn [run bind fst snd negb andb];
  match goal with
  | |- context [os ?w ?argv] =>
      let out := fresh "out" in
      let e := fresh "e" in
      let w' := fresh "w" in
      destruct (os w argv) as [[out [e|]] w'] eqn:?
  | |- context [FindWorktreeByBranch ?l ?b ?p] =>
      let wt := fresh "wt" in
      destruct (FindWorktreeByBranch l b p) as [wt|] eqn:?
  | |- context [DryRun ?o] => destruct (DryRun o) eqn:?
  | |- context [Force ?o] => destruct (Force o) eqn:?
  | |- context [String.eqb (Go.TrimSpace ?x) ""] =>
      destruct (String.eqb (Go.TrimSpace x) "") eqn:?
  end.

Ltac exec os :=
  unfold Detach, Revert, BranchExists, FindWorktreeForBranch, GetCurrentWorktreePath,
    ListWorktrees, HasUncommittedChanges, CreateBranch, Checkout, DeleteBranch,
    Git.Run, Git.RunInDir;
  repeat exec_step os;
  cbn [run bind fst snd negb andb app].

Ltac read_only :=
  repeat (apply Forall_cons; [reflexivity | ]); apply Forall_nil.

Lemma msgDetached_neq (b : string) :
  "Branch '" ++ b ++ "' detached successfully" <> msgNotCheckedOut b.
Proof.
  unfold msgNotCheckedOut. intros H.
  apply (append_inv_head "Branch '") in H. apply append_inv_head in H.
  discriminate H.
Qed.

Lemma msgNotCheckedOut_contains (b : string) :
  Go.Contains (msgNotCheckedOut b) "not checked out" = true.
Proof.
  unfold msgNotCheckedOut.
  apply (Contains_append_l "Branch '"), Contains_append_l. reflexivity.
Qed.

(** None of the five early exits is the outcome at hand. *)
Ltac early_exit_absurd H :=
  destruct H as [H | [H | [[? H] | [H | H]]]];
  lazymatch type of H with
  | false = true => discriminate H
  | _ =>
      first [ apply (f_equal headByte) in H; discriminate H
            | apply (f_equal messageOf) in H; apply msgDetached_neq in H; destruct H ]
  end.

(** C5.  Whenever [Detach] ends at one of its exits before the create
    step (the branch is missing; it is checked out in no other worktree;
    there are uncommitted changes and no force; the temp branch already
    exists; or [DryRun] is set), no command that creates, checks out or
    deletes a branch has been issued, and a result returned there is a
    success whose message is exactly "dry-run" or contains
    "not checked out". *)
Theorem Detach_early_exit_no_mutation :
  forall (W : Type) (os : W -> list string -> Reply * W) (w : W)
         (d : Detacher) (branch : string) (opts : Options),
    let res := result os (Detach d branch opts) w in
    let log := trace os (Detach d branch opts) w in
    (res = inr (errBranchMissing branch)
     \/ res = inl {| Success := true; Message := msgNotCheckedOut branch;
                     WorktreePath := ""; TempBranch := "" |}
     \/ (exists p, res = inr (errUncommitted p))
     \/ res = inr (errTempExists (TempBranchName d branch))
     \/ DryRun opts = true) ->
    readOnly log
    /\ (forall r, res = inl r ->
          Success r = true
          /\ (Message r = "dry-run"
              \/ Go.Contains (Message r) "not checked out" = true)).
Proof.
  intros W os w d branch opts. unfold result, trace, readOnly.
  exec os.
  all: intros H; split;
    [ first [ solve [read_only] | exfalso; early_exit_absurd H ]
    | intros r Hr;
      lazymatch type of Hr with
      | inr _ = inl _ => discriminate Hr
      | inl _ = inl _ =>
          injection Hr as <-; cbn [Success Message];
          lazymatch goal with
          | |- _ /\ ("dry-run" = _ \/ _) => split; [reflexivity | left; reflexivity]
          | |- _ /\ (msgNotCheckedOut _ = _ \/ _) =>
              split; [reflexivity | right; apply msgNotCheckedOut_contains]
          | |- _ => exfalso; early_exit_absurd H
          end
      end ].
Qed.

Lemma Detach_early_exit_no_mutation_witness :
  readOnly (trace Sim.git (Detach NewDetacher "feature-x" Examples.dry) Examples.twoTrees)
  /\ result Sim.git (Detach NewDetacher "feature-x" Examples.dry) Examples.twoTrees
     = inl {| Success := true; Message := "dry-run"; WorktreePath := "/wt/x";
              TempBranch := "feature-x__wt_detach" |}.
Proof.
  split; [ | reflexivity].
  exact (proj1 (Detach_early_exit_no_mutation Sim.Repo Sim.git Examples.twoTrees
                  NewDetacher "feature-x" Examples.dry
                  (or_intror (or_intror (or_intror (or_intror eq_refl)))))).
Defined.

(* ================================================================== *)
(** ** Detach: rollback *)
(* ================================================================== *)

Lemma In_filter_event (f : list string -> bool) (ev : Event) (log : list Event) :
  In ev log -> f (fst ev) = true -> In ev (filter (fun x => f (fst x)) log).
Proof. intros Hin Hf. apply filter_In. now split. Qed.

(** C6.  In every execution of [Detach] in which the command creating
    the temp branch succeeded and the checkout of the temp branch in the
    target worktree failed with error [e], the commands issued end with
    the create, the failed checkout and then the delete of the temp
    branch, nothing before them changes the repository, and whatever the
    delete answers the outcome is the checkout error, not a success. *)
Theorem Detach_rolls_back_failed_checkout :
  forall (W : Type) (os : W -> list string -> Reply * W) (w : W)
         (d : Detacher) (branch : string) (opts : Options)
         (p o1 o2 e : string),
    let tmp := TempBranchName d branch in
    let log := trace os (Detach d branch opts) w in
    In (cmdCreate p tmp, (o1, None)) log ->
    In (cmdCheckout p tmp, (o2, Some e)) log ->
    (exists before rd,
        log = (before ++ [ (cmdCreate p tmp, (o1, None));
                           (cmdCheckout p tmp, (o2, Some e));
                           (cmdDelete tmp, rd) ])%list
        /\ readOnly before)
    /\ result os (Detach d branch opts) w = inr (errCheckout tmp p e).
Proof.
  intros W os w d branch opts p o1 o2 e tmp log. subst tmp log.
  unfold result, trace, readOnly.
  exec os.
  all: intros Hcreate Hcheckout.
  all: apply (In_filter_event isCreate) in Hcreate; [ | reflexivity].
  all: apply (In_filter_event isCheckout) in Hcheckout; [ | reflexivity].
  all: cbn [filter fst isCreate isCheckout String.eqb Ascii.eqb Bool.eqb andb] in Hcreate, Hcheckout.
  all: try solve [destruct Hcheckout].
  all: destruct Hcheckout as [Hc | []].
  all: try (exfalso; apply (f_equal snd) in Hc; discriminate Hc).
  all: destruct Hcreate as [Hk | []].
  all: pose proof (f_equal snd Hc) as Hr; cbn [snd] in Hr; injection Hr as -> ->.
  all: pose proof (f_equal snd Hk) as Hr; cbn [snd] in Hr; injection Hr as ->.
  all: pose proof (f_equal (fun ev : Event => nth 2 (fst ev) "") Hc) as Hp;
    cbn [fst nth cmdCheckout] in Hp; subst p.
  all: split; [ | reflexivity].
  all: eexists [_; _; _; _; _], _; split; [reflexivity | read_only].
Qed.

Lemma Detach_rolls_back_failed_checkout_witness :
  result Examples.checkoutFails (Detach NewDetacher "feature-x" Examples.plain)
         Examples.twoTrees
  = inr (errCheckout "feature-x__wt_detach" "/wt/x" "exit status 1")
  /\ Sim.branches (final Examples.checkoutFails
                      (Detach NewDetacher "feature-x" Examples.plain) Examples.twoTrees)
     = Sim.branches Examples.twoTrees.
Proof.
  split; [ | reflexivity].
  refine (proj2 (Detach_rolls_back_failed_checkout Sim.Repo Examples.checkoutFails
                   Examples.twoTrees NewDetacher "feature-x" Examples.plain
                   "/wt/x" "" "" "exit status 1" _ _));
    vm_compute; repeat (first [left; reflexivity | right]).
Defined.

(* ================================================================== *)
(** ** Revert: the lookup and the unattached temp branch *)
(* ================================================================== *)

Ltac unfold_engine :=
  unfold Detach, Revert, BranchExists, FindWorktreeForBranch, GetCurrentWorktreePath,
    ListWorktrees, HasUncommittedChanges, CreateBranch, Checkout, DeleteBranch,
    Git.Run, Git.RunInDir.

(** Run the next command, whose answer is known from [H]. *)
Ltac run_known H := cbn [run bind fst snd negb andb app]; rewrite H.

Section RevertLookup.
Context {W : Type} (os : W -> list string -> Reply * W).
Variables (d : Detacher) (branch : string) (opts : Options).
Variables (w0 w1 w2 w3 w4 : W) (o1 o2 cur listing : string).

Let tmp : string := TempBranchName d branch.

(** The branch and the temp branch exist, and the lookup gets the
    current path [cur] and the listing [listing]. *)
Hypothesis Hbranch : os w0 (cmdBranchExists branch) = ((o1, None), w1).
Hypothesis Htemp : os w1 (cmdBranchExists tmp) = ((o2, None), w2).
Hypothesis Htop : os w2 cmdToplevel = ((cur, None), w3).
Hypothesis Hlist : os w3 cmdList = ((listing, None), w4).

Let queries : list Event :=
  [ (cmdBranchExists branch, (o1, None)); (cmdBranchExists tmp, (o2, None));
    (cmdToplevel, (cur, None)); (cmdList, (listing, None)) ].

Lemma Revert_unattached_run :
  FindWorktreeByBranch (ParseWorktreeList (Go.TrimSpace listing)) tmp (Go.TrimSpace cur)
  = None ->
  run os (Revert d branch opts) w0
  = if DryRun opts then
      (inl {| Success := true; Message := "dry-run: would delete branch";
              WorktreePath := ""; TempBranch := tmp |}, w4, queries)
    else
      (match snd (fst (os w4 (cmdDelete tmp))) with
       | Some e => inr ("failed to delete branch '" ++ tmp ++ "': " ++ e)
       | None => inl {| Success := true;
                        Message := "Deleted temporary branch '" ++ tmp ++ "'";
                        WorktreePath := ""; TempBranch := tmp |}
       end,
       snd (os w4 (cmdDelete tmp)),
       (queries ++ [(cmdDelete tmp, fst (os w4 (cmdDelete tmp)))])%list).
Proof.
  intros Hnone. subst queries.
  unfold cmdBranchExists, cmdToplevel, cmdList in *. fold tmp.
  unfold_engine. fold tmp.
  run_known Hbranch. run_known Htemp. run_known Htop. run_known Hlist.
  cbn [run bind fst snd negb andb app]. rewrite Hnone.
  destruct (DryRun opts); [reflexivity | ].
  cbn [run bind fst snd negb andb app]. unfold cmdDelete.
  destruct (os w4 ["git"; "branch"; "-D"; tmp]) as [[out [e|]] w5]; reflexivity.
Qed.

(** What [Revert] does once the lookup has found [wt]. *)
Lemma Revert_attached_run (wt : Worktree) :
  FindWorktreeByBranch (ParseWorktreeList (Go.TrimSpace listing)) tmp (Go.TrimSpace cur)
  = Some wt ->
  exists rs rest,
    fst (os w4 (cmdStatus (Path wt))) = rs
    /\ trace os (Revert d branch opts) w0
       = (queries ++ (cmdStatus (Path wt), rs) :: rest)%list
    /\ ((match snd rs with
         | Some _ => true
         | None => negb (Go.TrimSpace (fst rs) =? "")%string
         end && negb (Force opts)) = false ->
        DryRun opts = false ->
        exists rc rest',
          rest = (cmdCheckout (Path wt) branch, rc) :: rest'
          /\ (snd rc = None -> exists rd, rest' = [(cmdDelete tmp, rd)])).
Proof.
  intros Hsome. subst queries. unfold trace.
  unfold cmdBranchExists, cmdToplevel, cmdList, cmdStatus, cmdCheckout, cmdDelete in *.
  fold tmp. unfold_engine. fold tmp.
  run_known Hbranch. run_known Htemp. run_known Htop. run_known Hlist.
  cbn [run bind fst snd negb andb app]. rewrite Hsome.
  repeat exec_step os; cbn [run bind fst snd negb andb app].
  all: eexists _, _; split; [reflexivity | split; [reflexivity | ]].
  all: cbn [fst snd andb negb]; intros Hclean Hdry.
  all: try discriminate Hclean; try discriminate Hdry.
  all: try match goal with H : String.eqb _ _ = _ |- _ => rewrite H in Hclean end.
  all: try discriminate Hclean.
  all: eexists _, _; split; [reflexivity | intros Hok].
  all: try discriminate Hok.
  all: eexists; reflexivity.
Qed.
End RevertLookup.

(** C1, as the code has it.  The lookup of [Revert] skips the current
    worktree.  Let the branch and the temp branch exist, [cur] be the
    answer for the current path and [listing] the listing.  If [wt] is
    the first listed worktree that is on the temp branch and whose path
    is not the current path, [Revert] goes on with [wt]: it asks for its
    status and, unless there are uncommitted changes without force or
    [DryRun] is set, checks [branch] out there and, when that succeeded,
    deletes the temp branch.  If every worktree on the temp branch is at
    the current path, [Revert] treats the temp branch as unattached: after
    the four queries it issues nothing but the delete of the temp branch
    (nothing at all with [DryRun]). *)
Theorem Revert_lookup_excludes_current_worktree :
  forall (W : Type) (os : W -> list string -> Reply * W)
         (d : Detacher) (branch : string) (opts : Options)
         (w0 w1 w2 w3 w4 : W) (o1 o2 cur listing : string),
    let tmp := TempBranchName d branch in
    os w0 (cmdBranchExists branch) = ((o1, None), w1) ->
    os w1 (cmdBranchExists tmp) = ((o2, None), w2) ->
    os w2 cmdToplevel = ((cur, None), w3) ->
    os w3 cmdList = ((listing, None), w4) ->
    let worktrees := ParseWorktreeList (Go.TrimSpace listing) in
    let here := Go.TrimSpace cur in
    let queries :=
      [ (cmdBranchExists branch, (o1, None)); (cmdBranchExists tmp, (o2, None));
        (cmdToplevel, (cur, None)); (cmdList, (listing, None)) ] in
    (forall (wt : Worktree) (before after : list Worktree),
        worktrees = (before ++ wt :: after)%list ->
        Branch wt = tmp -> Path wt <> here ->
        (forall x, In x before -> ~ (Branch x = tmp /\ Path x <> here)) ->
        exists rs rest,
          fst (os w4 (cmdStatus (Path wt))) = rs
          /\ trace os (Revert d branch opts) w0
             = (queries ++ (cmdStatus (Path wt), rs) :: rest)%list
          /\ ((match snd rs with
               | Some _ => true
               | None => negb (Go.TrimSpace (fst rs) =? "")%string
               end && negb (Force opts)) = false ->
              DryRun opts = false ->
              exists rc rest',
                rest = (cmdCheckout (Path wt) branch, rc) :: rest'
                /\ (snd rc = None -> exists rd, rest' = [(cmdDelete tmp, rd)])))
    /\ ((forall x, In x worktrees -> Branch x = tmp -> Path x = here) ->
        map fst (trace os (Revert d branch opts) w0)
        = (map fst queries ++ (if DryRun opts then [] else [cmdDelete tmp]))%list).
Proof.
  intros W os d branch opts w0 w1 w2 w3 w4 o1 o2 cur listing tmp
         Hbranch Htemp Htop Hlist worktrees here queries.
  split.
  - intros wt before after Hsplit Hb Hp Hfirst.
    apply (Revert_attached_run os d branch opts w0 w1 w2 w3 w4 o1 o2 cur listing
             Hbranch Htemp Htop Hlist wt).
    now apply (Find_first _ before after).
  - intros Honly.
    assert (Hnone : FindWorktreeByBranch worktrees tmp here = None).
    { apply Find_None. intros x Hin [Hb Hp]. apply Hp. now apply Honly. }
    unfold trace.
    rewrite (Revert_unattached_run os d branch opts w0 w1 w2 w3 w4 o1 o2 cur listing
               Hbranch Htemp Htop Hlist Hnone).
    destruct (DryRun opts); cbn [snd]; [reflexivity | ].
    rewrite map_app. reflexivity.
Qed.

Lemma Revert_lookup_excludes_current_worktree_witness :
  nth 4 (map fst (trace Sim.git (Revert NewDetacher "feature-x" Examples.plain)
                        Examples.detachedRepo)) []
  = cmdStatus "/wt/x"
  /\ nth 5 (map fst (trace Sim.git (Revert NewDetacher "feature-x" Examples.plain)
                           Examples.detachedRepo)) []
     = cmdCheckout "/wt/x" "feature-x".
Proof.
  destruct (proj1 (Revert_lookup_excludes_current_worktree
                     Sim.Repo Sim.git NewDetacher "feature-x" Examples.plain
                     Examples.detachedRepo Examples.detachedRepo Examples.detachedRepo
                     Examples.detachedRepo Examples.detachedRepo
                     _ _ _ _ eq_refl eq_refl eq_refl eq_refl)
                  {| Path := "/wt/x"; Branch := "feature-x__wt_detach" |}
                  [ {| Path := "/repo"; Branch := "main" |} ] [])
    as (rs & rest & Hrs & Htrace & Hnext).
  - reflexivity.
  - reflexivity.
  - vm_compute. discriminate.
  - intros x [<- | []] [Hb _]. discriminate Hb.
  - subst rs. destruct (Hnext eq_refl eq_refl) as (rc & rest' & -> & _).
    rewrite Htrace. split; reflexivity.
Defined.

(** C1 as stated fails: run from inside the worktree that holds the temp
    branch, the listing does show a worktree on the temp branch, yet
    [Revert] issues no checkout and goes for the delete of a branch it
    takes to be unattached. *)
Lemma Revert_lookup_ignores_current_worktree :
  In {| Path := "/wt/x"; Branch := "feature-x__wt_detach" |}
     (ParseWorktreeList
        (Go.TrimSpace (Sim.renderTrees (Sim.trees Examples.insideDetached))))
  /\ map fst (trace Sim.git (Revert NewDetacher "feature-x" Examples.plain)
                    Examples.insideDetached)
     = [ cmdBranchExists "feature-x"; cmdBranchExists "feature-x__wt_detach";
         cmdToplevel; cmdList; cmdDelete "feature-x__wt_detach" ]
  /\ existsb isCheckout
       (map fst (trace Sim.git (Revert NewDetacher "feature-x" Examples.plain)
                       Examples.insideDetached)) = false.
Proof.
  split; [vm_compute; tauto | split; reflexivity].
Qed.

(** C8, as the code has it.  Let the branch and the temp branch exist and
    the lookup find no worktree for the temp branch.  The four queries
    change nothing.  With [DryRun], [Revert] issues nothing more and
    reports the pending deletion.  Otherwise it issues exactly one more
    command, the delete of the temp branch (no create, no checkout), and
    the state it leaves is the one that delete leaves; when the delete
    succeeded the result is a success carrying the temp branch name, and
    when it failed the result is the delete error. *)
Theorem Revert_unattached_deletes_only :
  forall (W : Type) (os : W -> list string -> Reply * W)
         (d : Detacher) (branch : string) (opts : Options)
         (w0 w1 w2 w3 w4 : W) (o1 o2 cur listing : string),
    let tmp := TempBranchName d branch in
    os w0 (cmdBranchExists branch) = ((o1, None), w1) ->
    os w1 (cmdBranchExists tmp) = ((o2, None), w2) ->
    os w2 cmdToplevel = ((cur, None), w3) ->
    os w3 cmdList = ((listing, None), w4) ->
    FindWorktreeByBranch (ParseWorktreeList (Go.TrimSpace listing)) tmp (Go.TrimSpace cur)
    = None ->
    let queries :=
      [ (cmdBranchExists branch, (o1, None)); (cmdBranchExists tmp, (o2, None));
        (cmdToplevel, (cur, None)); (cmdList, (listing, None)) ] in
    let rd := fst (os w4 (cmdDelete tmp)) in
    let res := result os (Revert d branch opts) w0 in
    readOnly queries
    /\ if DryRun opts then
         trace os (Revert d branch opts) w0 = queries
         /\ final os (Revert d branch opts) w0 = w4
         /\ res = inl {| Success := true; Message := "dry-run: would delete branch";
                         WorktreePath := ""; TempBranch := tmp |}
       else
         trace os (Revert d branch opts) w0 = (queries ++ [(cmdDelete tmp, rd)])%list
         /\ isDelete (cmdDelete tmp) = true
         /\ final os (Revert d branch opts) w0 = snd (os w4 (cmdDelete tmp))
         /\ (snd rd = None ->
             res = inl {| Success := true;
                          Message := "Deleted temporary branch '" ++ tmp ++ "'";
                          WorktreePath := ""; TempBranch := tmp |})
         /\ (forall e, snd rd = Some e ->
                       res = inr ("failed to delete branch '" ++ tmp ++ "': " ++ e)).
Proof.
  intros W os d branch opts w0 w1 w2 w3 w4 o1 o2 cur listing tmp
         Hbranch Htemp Htop Hlist Hnone queries rd res.
  split; [subst queries; read_only | ].
  subst res rd tmp. unfold result, trace, final.
  rewrite (Revert_unattached_run os d branch opts w0 w1 w2 w3 w4 o1 o2 cur listing
             Hbranch Htemp Htop Hlist Hnone).
  destruct (DryRun opts); cbn [fst snd]; [repeat split | ].
  repeat split.
  - intros H. rewrite H. reflexivity.
  - intros e H. rewrite H. reflexivity.
Qed.

Lemma Revert_unattached_deletes_only_witness :
  final Sim.git (Revert NewDetacher "feature-x" Examples.plain) Examples.orphanTemp
  = Examples.orphanGone.
Proof.
  exact (proj1 (proj2 (proj2 (proj2
           (Revert_unattached_deletes_only
              Sim.Repo Sim.git NewDetacher "feature-x" Examples.plain
              Examples.orphanTemp Examples.orphanTemp Examples.orphanTemp
              Examples.orphanTemp Examples.orphanTemp
              (String.append "c1" Sim.nl) (String.append "c1" Sim.nl)
              (String.append "/repo" Sim.nl)
              (Sim.renderTrees (Sim.trees Examples.orphanTemp))
              eq_refl eq_refl eq_refl eq_refl eq_refl))))).
Defined.

(** C8 as stated fails: the temp branch exists and the lookup finds no
    worktree for it (the only one holding it is the current one), no
    [DryRun]; the delete is refused and [Revert] returns an error, not a
    success. *)
Lemma Revert_unattached_delete_refused :
  result Sim.git (BranchExists "feature-x__wt_detach") Examples.insideDetached = true
  /\ result Sim.git (FindWorktreeForBranch "feature-x__wt_detach") Examples.insideDetached
     = inl None
  /\ DryRun Examples.plain = false
  /\ result Sim.git (Revert NewDetacher "feature-x" Examples.plain) Examples.insideDetached
     = inr "failed to delete branch 'feature-x__wt_detach': exit status 1"
  /\ final Sim.git (Revert NewDetacher "feature-x" Examples.plain) Examples.insideDetached
     = Examples.insideDetached.
Proof. repeat split. Qed.

(* ================================================================== *)
(** ** The uncommitted-changes error *)
(* ================================================================== *)

(** C2 on the code.  The target worktree has eleven modified files and
    force is not set: [Detach] fails with the uncommitted-changes error,
    whose text holds the worktree path and the force hint, but neither a
    file name nor "11 files or more", although the status output the
    engine has read names the files; [Revert] fails with the very same
    error.  The error is built from the path alone. *)
Theorem Detach_uncommitted_error_has_no_file_list :
  let res := result Sim.git (Detach NewDetacher "feature-x" Examples.plain)
                    Examples.elevenDirty in
  res = inr (errUncommitted "/wt/x")
  /\ Go.Contains (messageOf res) "/wt/x" = true
  /\ Go.Contains (messageOf res) "Use --force to override" = true
  /\ Go.Contains (messageOf res) "11 files or more" = false
  /\ Go.Contains (messageOf res) "f01.txt" = false
  /\ Go.Contains (Go.TrimSpace
                    (fst (fst (Sim.git Examples.elevenDirty (cmdStatus "/wt/x")))))
                 "f01.txt" = true
  /\ result Sim.git (Revert NewDetacher "feature-x" Examples.plain)
            Examples.elevenDirtyDetached
     = inr (errUncommitted "/wt/x").
Proof. vm_compute. repeat split. Qed.

(* ================================================================== *)
(** ** The repository model: what the engine reads *)
(* ================================================================== *)

(** *** White space at the ends *)

Lemma rev_append (a b : string) : Go.rev (a ++ b) = Go.rev b ++ Go.rev a.
Proof.
  induction a as [|c a IH]; cbn [append Go.rev].
  - now rewrite append_nil_r.
  - now rewrite IH, append_assoc.
Qed.

Lemma rev_involutive (s : string) : Go.rev (Go.rev s) = s.
Proof.
  induction s as [|c s IH]; [reflexivity | ].
  cbn [Go.rev]. rewrite rev_append, IH. reflexivity.
Qed.

Lemma rev_nonempty (s : string) : s <> "" -> Go.rev s <> "".
Proof.
  intros Hs H. apply Hs. rewrite <- (rev_involutive s), H. reflexivity.
Qed.

(** An ASCII byte is no part of the encoding of a white-space rune above
    U+007F. *)
Lemma space2_ascii_l (g c : ascii) : (Go.byte g < 128)%N -> Go.space2 g c = false.
Proof.
  intros H. unfold Go.space2.
  destruct (N.eqb_spec (Go.byte g) 194); try lia.
  all: reflexivity.
Qed.

Lemma space2_ascii_r (c g : ascii) : (Go.byte g < 128)%N -> Go.space2 c g = false.
Proof.
  intros H. unfold Go.space2.
  destruct (N.eqb_spec (Go.byte g) 133), (N.eqb_spec (Go.byte g) 160); try lia.
  all: apply andb_false_r.
Qed.

Lemma space3_ascii_l (g c d : ascii) : (Go.byte g < 128)%N -> Go.space3 g c d = false.
Proof.
  intros H. unfold Go.space3. cbv zeta.
  destruct (N.eqb_spec (Go.byte g) 225), (N.eqb_spec (Go.byte g) 226),
    (N.eqb_spec (Go.byte g) 227); try lia.
  all: reflexivity.
Qed.

Lemma space3_ascii_m (c g d : ascii) : (Go.byte g < 128)%N -> Go.space3 c g d = false.
Proof.
  intros H. unfold Go.space3. cbv zeta.
  destruct (N.eqb_spec (Go.byte g) 154), (N.eqb_spec (Go.byte g) 128),
    (N.eqb_spec (Go.byte g) 129); try lia.
  all: cbn [andb orb]; rewrite ?andb_false_r; reflexivity.
Qed.

Lemma space3_ascii_r (c d g : ascii) : (Go.byte g < 128)%N -> Go.space3 c d g = false.
Proof.
  intros H. unfold Go.space3. cbv zeta.
  destruct (N.eqb_spec (Go.byte g) 128), (N.leb_spec 128 (Go.byte g)),
    (N.eqb_spec (Go.byte g) 168), (N.eqb_spec (Go.byte g) 169),
    (N.eqb_spec (Go.byte g) 175), (N.eqb_spec (Go.byte g) 159); try lia.
  all: cbn [andb orb]; rewrite ?andb_false_r; reflexivity.
Qed.

Lemma trimLeft_stable (x : string) : Sim.startsSpace x = false -> Go.trimLeft x = x.
Proof.
  destruct x as [|c0 [|c1 [|c2 r]]]; cbn [Sim.startsSpace Go.trimLeft]; intros H.
  - reflexivity.
  - rewrite orb_false_r in H. now rewrite H.
  - apply orb_false_iff in H as [H0 H1]. rewrite orb_false_r in H1. now rewrite H0, H1.
  - apply orb_false_iff in H as [H0 H]. apply orb_false_iff in H as [H1 H2].
    now rewrite H0, H1, H2.
Qed.

Lemma trimLeftRev_stable (x : string) : Sim.startsSpaceRev x = false -> Go.trimLeftRev x = x.
Proof.
  destruct x as [|c0 [|c1 [|c2 r]]]; cbn [Sim.startsSpaceRev Go.trimLeftRev]; intros H.
  - reflexivity.
  - rewrite orb_false_r in H. now rewrite H.
  - apply orb_false_iff in H as [H0 H1]. rewrite orb_false_r in H1. now rewrite H0, H1.
  - apply orb_false_iff in H as [H0 H]. apply orb_false_iff in H as [H1 H2].
    now rewrite H0, H1, H2.
Qed.

(** Whether a text begins with a white-space rune is decided before an
    ASCII byte that follows it. *)
Lemma startsSpace_before_ascii (u v : string) (g : ascii) :
  u <> "" -> (Go.byte g < 128)%N ->
  Sim.startsSpace (u ++ String g v) = Sim.startsSpace u.
Proof.
  intros Hu Hg. destruct u as [|c0 [|c1 [|c2 r]]]; [now elim Hu | | | reflexivity].
  - cbn [append Sim.startsSpace]. rewrite (space2_ascii_r c0 g Hg).
    destruct v as [|c2 v]; [reflexivity | ]. now rewrite (space3_ascii_m c0 g c2 Hg).
  - cbn [append Sim.startsSpace]. now rewrite (space3_ascii_r c0 c1 g Hg).
Qed.

Lemma startsSpaceRev_before_ascii (u v : string) (g : ascii) :
  u <> "" -> (Go.byte g < 128)%N ->
  Sim.startsSpaceRev (u ++ String g v) = Sim.startsSpaceRev u.
Proof.
  intros Hu Hg. destruct u as [|c0 [|c1 [|c2 r]]]; [now elim Hu | | | reflexivity].
  - cbn [append Sim.startsSpaceRev]. rewrite (space2_ascii_l g c0 Hg).
    destruct v as [|c2 v]; [reflexivity | ]. now rewrite (space3_ascii_m c2 g c0 Hg).
  - cbn [append Sim.startsSpaceRev]. now rewrite (space3_ascii_l g c1 c0 Hg).
Qed.

Lemma endsSpace_after_ascii (a b : string) (g : ascii) :
  (Go.byte g < 128)%N -> b <> "" ->
  Sim.endsSpace (a ++ String g b) = Sim.endsSpace b.
Proof.
  intros Hg Hb. unfold Sim.endsSpace. rewrite rev_append. cbn [Go.rev].
  rewrite append_assoc. cbn [append].
  apply startsSpaceRev_before_ascii; [now apply rev_nonempty | assumption].
Qed.

Lemma LF_ascii : (Go.byte Go.LF < 128)%N.
Proof. reflexivity. Qed.

Lemma endsSpace_after_nl (a b : string) :
  b <> "" -> Sim.endsSpace (a ++ Porcelain.nl ++ b) = Sim.endsSpace b.
Proof.
  intros Hb. change (Porcelain.nl ++ b) with (String Go.LF b).
  now apply endsSpace_after_ascii; [exact LF_ascii | ].
Qed.

Lemma trimRight_stable (x : string) : Sim.endsSpace x = false -> Go.trimRight x = x.
Proof.
  intros H. unfold Go.trimRight. rewrite (trimLeftRev_stable _ H). apply rev_involutive.
Qed.

Lemma trimRight_nl (x : string) : Go.trimRight (x ++ Porcelain.nl) = Go.trimRight x.
Proof.
  unfold Go.trimRight. rewrite rev_append.
  change (Go.rev Porcelain.nl) with (String Go.LF "").
  cbn [append Go.trimLeftRev]. change (Go.asciiSpace Go.LF) with true.
  reflexivity.
Qed.

(** Text with no white-space rune at either end comes back unchanged when
    the line feeds after it are trimmed. *)
Lemma TrimSpace_stable (x : string) :
  x <> "" -> Sim.startsSpace x = false -> Sim.endsSpace x = false ->
  Go.TrimSpace (x ++ Porcelain.nl) = x
  /\ Go.TrimSpace (x ++ Porcelain.nl ++ Porcelain.nl) = x.
Proof.
  intros Hx Hfirst Hlast. unfold Go.TrimSpace.
  assert (H1 : Go.trimLeft (x ++ Porcelain.nl) = x ++ Porcelain.nl).
  { apply trimLeft_stable. unfold Porcelain.nl.
    now rewrite (startsSpace_before_ascii x "" Go.LF Hx LF_ascii). }
  assert (H2 : Go.trimLeft (x ++ Porcelain.nl ++ Porcelain.nl)
               = x ++ Porcelain.nl ++ Porcelain.nl).
  { apply trimLeft_stable. unfold Porcelain.nl at 1. cbn [append].
    now rewrite (startsSpace_before_ascii x Porcelain.nl Go.LF Hx LF_ascii). }
  rewrite H1, H2, <- append_assoc, !trimRight_nl.
  split; now apply trimRight_stable.
Qed.

(** *** Names and lines *)

Lemma noLF_append (a b : string) :
  Porcelain.noLF (a ++ b) = Porcelain.noLF a && Porcelain.noLF b.
Proof.
  induction a as [|c a IH]; [reflexivity | ].
  cbn [append Porcelain.noLF]. now rewrite IH, andb_assoc.
Qed.

Lemma endsCR_append (a b : string) :
  b <> "" -> Porcelain.endsCR (a ++ b) = Porcelain.endsCR b.
Proof.
  intros Hb. induction a as [|c a IH]; [reflexivity | ].
  cbn [append Porcelain.endsCR]. rewrite IH.
  destruct (a ++ b) eqn:E; [ | reflexivity].
  destruct a; [now elim Hb | discriminate E].
Qed.

Lemma endsCR_rev (s : string) :
  Porcelain.endsCR s = true -> exists t, Go.rev s = String Go.CR t.
Proof.
  induction s as [|c s IH]; [discriminate | ].
  cbn [Porcelain.endsCR Go.rev]. destruct s as [|d s].
  - intros H. apply Ascii.eqb_eq in H. subst c. now exists "".
  - intros H. destruct (IH H) as [t ->]. now exists (t ++ String c "").
Qed.

(** A carriage return is white space. *)
Lemma endsSpace_endsCR (s : string) :
  Sim.endsSpace s = false -> Porcelain.endsCR s = false.
Proof.
  intros H. destruct (Porcelain.endsCR s) eqn:E; [ | reflexivity].
  destruct (endsCR_rev s E) as [t Ht]. unfold Sim.endsSpace in H.
  rewrite Ht in H. discriminate H.
Qed.

Lemma wfName_parts (s : string) :
  Sim.wfName s = true ->
  Porcelain.noLF s = true /\ s <> "" /\ Sim.startsSpace s = false
  /\ Sim.endsSpace s = false /\ (N.of_nat (String.length s) <= 4096)%N.
Proof.
  unfold Sim.wfName. rewrite !andb_true_iff, !negb_true_iff, N.leb_le, String.eqb_neq.
  tauto.
Qed.

(** A well-formed name after a short prefix is a well-formed line. *)
Lemma wfLine_prefixed (pre s : string) :
  Porcelain.noLF pre = true -> (N.of_nat (String.length pre) <= 100)%N ->
  Sim.wfName s = true -> Porcelain.wfLine (pre ++ s) = true.
Proof.
  intros Hpre Hlen Hs. destruct (wfName_parts s Hs) as (Hlf & Hne & _ & Hlast & Hn).
  unfold Porcelain.wfLine. rewrite noLF_append, Hpre, Hlf.
  rewrite endsCR_append by assumption.
  rewrite (endsSpace_endsCR s Hlast). cbn [andb negb].
  apply N.ltb_lt. rewrite length_append. unfold Go.MaxScanTokenSize. lia.
Qed.

(** *** The listing of the model is a well-formed listing *)

Lemma wfBlock_blockOf (t : Sim.Tree) :
  Sim.wfTree t = true -> Porcelain.wfBlock (Sim.blockOf t) = true.
Proof.
  unfold Sim.wfTree. rewrite !andb_true_iff. intros [[Hp Hh] Hb].
  unfold Porcelain.wfBlock, Sim.blockOf, Porcelain.attrLine.
  cbn [Porcelain.bpath Porcelain.battrs forallb].
  rewrite (wfLine_prefixed "worktree " (Sim.tpath t)) by (try reflexivity; cbn; try lia; assumption).
  rewrite (wfLine_prefixed "HEAD " (Sim.thead t)) by (try reflexivity; cbn; try lia; assumption).
  unfold Sim.branchLine. destruct (Sim.tbranch t) as [b|].
  - rewrite (wfLine_prefixed "branch refs/heads/" b) by (try reflexivity; cbn; try lia; assumption).
    reflexivity.
  - reflexivity.
Qed.

Lemma blockRecord_blockOf (t : Sim.Tree) :
  Porcelain.blockRecord (Sim.blockOf t) = Sim.recordOf t.
Proof.
  unfold Porcelain.blockRecord, Sim.recordOf, Sim.blockOf, Sim.branchLine.
  destruct (Sim.tbranch t); reflexivity.
Qed.

Lemma joinLines_app (l1 l2 : list string) :
  l1 <> [] -> l2 <> [] ->
  Porcelain.joinLines (l1 ++ l2)
  = Porcelain.joinLines l1 ++ Porcelain.nl ++ Porcelain.joinLines l2.
Proof.
  intros H1 H2. induction l1 as [|a l1 IH]; [now elim H1 | ].
  destruct l1 as [|b l1].
  - cbn [app Porcelain.joinLines]. destruct l2; [now elim H2 | reflexivity].
  - change ((a :: b :: l1) ++ l2)%list with (a :: (b :: l1) ++ l2)%list.
    change (Porcelain.joinLines (a :: (b :: l1) ++ l2)%list)
      with (a ++ Porcelain.nl ++ Porcelain.joinLines ((b :: l1) ++ l2)%list).
    rewrite IH by discriminate.
    change (Porcelain.joinLines (a :: b :: l1))
      with (a ++ Porcelain.nl ++ Porcelain.joinLines (b :: l1)).
    now rewrite !append_assoc.
Qed.

Lemma renderBlocks_cons (b b' : Porcelain.Block) (rest : list Porcelain.Block) :
  Porcelain.renderBlocks (b :: b' :: rest)
  = Porcelain.joinLines (Porcelain.blockLines b) ++ Porcelain.nl ++ Porcelain.nl
    ++ Porcelain.renderBlocks (b' :: rest).
Proof.
  unfold Porcelain.renderBlocks.
  change (Porcelain.listingLines (b :: b' :: rest))
    with (Porcelain.blockLines b ++ "" :: Porcelain.listingLines (b' :: rest))%list.
  rewrite joinLines_app; [ | discriminate | discriminate].
  f_equal. f_equal.
  destruct (Porcelain.listingLines (b' :: rest)) eqn:E; [ | reflexivity].
  exfalso. cbn [Porcelain.listingLines Porcelain.blockLines] in E.
  destruct rest; discriminate E.
Qed.

Lemma renderTree_block (t : Sim.Tree) :
  Sim.renderTree t
  = Porcelain.joinLines (Porcelain.blockLines (Sim.blockOf t))
    ++ Porcelain.nl ++ Porcelain.nl.
Proof.
  unfold Sim.renderTree, Sim.blockOf, Porcelain.blockLines, Sim.nl.
  cbn [Porcelain.bpath Porcelain.battrs Porcelain.joinLines].
  fold (Sim.branchLine t). now rewrite !append_assoc.
Qed.

Lemma renderTrees_blocks (ts : list Sim.Tree) :
  ts <> [] ->
  Sim.renderTrees ts
  = Porcelain.renderBlocks (map Sim.blockOf ts) ++ Porcelain.nl ++ Porcelain.nl.
Proof.
  induction ts as [|t rest IH]; [intros H; now elim H | intros _].
  cbn [Sim.renderTrees]. rewrite renderTree_block. destruct rest as [|t' rest'].
  - cbn [Sim.renderTrees map]. now rewrite append_nil_r.
  - rewrite IH by discriminate. cbn [map]. rewrite renderBlocks_cons.
    now rewrite !append_assoc.
Qed.

Lemma branchLine_ends (t : Sim.Tree) :
  Sim.wfTree t = true ->
  Sim.branchLine t <> "" /\ Sim.endsSpace (Sim.branchLine t) = false.
Proof.
  unfold Sim.wfTree, Sim.branchLine. rewrite !andb_true_iff. intros [_ Hb].
  destruct (Sim.tbranch t) as [b|]; [ | split; [discriminate | reflexivity]].
  destruct (wfName_parts b Hb) as (_ & Hne & _ & Hlast & _).
  split; [discriminate | ].
  change ("branch refs/heads/" ++ b) with ("branch refs/heads" ++ String "/" b).
  rewrite endsSpace_after_ascii; [assumption | reflexivity | assumption].
Qed.

Lemma blockText_ends (t : Sim.Tree) :
  Sim.wfTree t = true ->
  Sim.endsSpace (Porcelain.joinLines (Porcelain.blockLines (Sim.blockOf t))) = false.
Proof.
  intros Ht. destruct (branchLine_ends t Ht) as [Hne Hends].
  unfold Sim.blockOf, Porcelain.blockLines.
  cbn [Porcelain.bpath Porcelain.battrs Porcelain.joinLines].
  rewrite endsSpace_after_nl.
  - now rewrite endsSpace_after_nl.
  - discriminate.
Qed.

Lemma renderBlocks_ends (ts : list Sim.Tree) :
  ts <> [] -> forallb Sim.wfTree ts = true ->
  Porcelain.renderBlocks (map Sim.blockOf ts) <> ""
  /\ Sim.startsSpace (Porcelain.renderBlocks (map Sim.blockOf ts)) = false
  /\ Sim.endsSpace (Porcelain.renderBlocks (map Sim.blockOf ts)) = false.
Proof.
  induction ts as [|t rest IH]; [intros H; now elim H | intros _ Hwf].
  cbn [forallb] in Hwf. apply andb_true_iff in Hwf as [Ht Hrest].
  destruct rest as [|t' rest'].
  - split; [discriminate | split; [reflexivity | now apply blockText_ends]].
  - destruct (IH ltac:(discriminate) Hrest) as (IHne & _ & IHlast).
    change (map Sim.blockOf (t :: t' :: rest'))
      with (Sim.blockOf t :: Sim.blockOf t' :: map Sim.blockOf rest').
    rewrite renderBlocks_cons.
    change (Sim.blockOf t' :: map Sim.blockOf rest')
      with (map Sim.blockOf (t' :: rest')).
    split; [discriminate | split; [reflexivity | ]].
    rewrite <- append_assoc. now rewrite endsSpace_after_nl.
Qed.

Lemma ParseWorktreeList_renderBlocks (bs : list Porcelain.Block) :
  forallb Porcelain.wfBlock bs = true ->
  ParseWorktreeList (Porcelain.renderBlocks bs) = map Porcelain.blockRecord bs.
Proof.
  intros Hwf. unfold ParseWorktreeList, Porcelain.renderBlocks.
  destruct (listingLines_wf bs Hwf) as [Hl Hlast].
  rewrite ScanLines_joinLines by assumption.
  unfold parseLines. now rewrite parse_listingLines.
Qed.

(** The engine reads the worktrees of the model off the listing. *)
Lemma parse_listing (ts : list Sim.Tree) :
  forallb Sim.wfTree ts = true ->
  ParseWorktreeList (Go.TrimSpace (Sim.renderTrees ts)) = map Sim.recordOf ts.
Proof.
  intros Hwf. destruct ts as [|t rest] eqn:E; [reflexivity | ]. rewrite <- E in *.
  assert (Hne : ts <> []) by (rewrite E; discriminate).
  rewrite renderTrees_blocks by assumption.
  destruct (renderBlocks_ends ts Hne Hwf) as (Hx & Hfirst & Hlast).
  rewrite (proj2 (TrimSpace_stable _ Hx Hfirst Hlast)).
  rewrite ParseWorktreeList_renderBlocks.
  - rewrite map_map. apply map_ext. exact blockRecord_blockOf.
  - rewrite forallb_forall in Hwf |- *.
    intros b Hin. apply in_map_iff in Hin as (t0 & <- & Hin).
    apply wfBlock_blockOf. now apply Hwf.
Qed.

Lemma TrimSpace_name (s : string) :
  Sim.wfName s = true -> Go.TrimSpace (s ++ Sim.nl) = s.
Proof.
  intros H. destruct (wfName_parts s H) as (_ & Hne & Hfirst & Hlast & _).
  exact (proj1 (TrimSpace_stable s Hne Hfirst Hlast)).
Qed.

(* ================================================================== *)
(** ** The successful runs of the engine *)
(* ================================================================== *)

Section SuccessfulRuns.
Context {W : Type} (os : W -> list string -> Reply * W).
Variables (d : Detacher) (branch : string) (opts : Options) (wt : Worktree).

Let tmp : string := TempBranchName d branch.


End SuccessfulRuns.

(* ================================================================== *)
(** ** The repository model: what the commands do *)
(* ================================================================== *)

Lemma existsb_eqb_In (x : string) (l : list string) :
  existsb (String.eqb x) l = true <-> In x l.
Proof.
  rewrite existsb_exists. split.
  - intros (y & Hin & Heq). apply String.eqb_eq in Heq. now subst.
  - intros Hin. exists x. split; [assumption | apply String.eqb_refl].
Qed.

Lemma distinct_cons (x : string) (l : list string) :
  Sim.distinct (x :: l) = true <-> ~ In x l /\ Sim.distinct l = true.
Proof.
  cbn [Sim.distinct]. rewrite andb_true_iff, negb_true_iff.
  rewrite <- existsb_eqb_In. destruct (existsb (String.eqb x) l); intuition congruence.
Qed.

Lemma distinct_split (l1 l2 : list string) (x : string) :
  Sim.distinct (l1 ++ x :: l2) = true -> ~ In x l1 /\ ~ In x l2.
Proof.
  induction l1 as [|a l1 IH]; cbn [app]; intros H; apply distinct_cons in H as [Ha Hd].
  - split; [intros [] | assumption].
  - destruct (IH Hd) as [H1 H2]. split; [ | assumption].
    intros [-> | Hin]; [ | now apply H1].
    apply Ha. apply in_or_app. right. now left.
Qed.

Lemma commitOf_hasBranch (r : Sim.Repo) (b : string) :
  Sim.hasBranch r b = match Sim.commitOf (Sim.branches r) b with
                      | Some _ => true
                      | None => false
                      end.
Proof.
  unfold Sim.hasBranch. induction (Sim.branches r) as [|e rest IH]; [reflexivity | ].
  cbn [existsb Sim.commitOf]. destruct (fst e =? b)%string; [reflexivity | exact IH].
Qed.

Lemma commitOf_app_new (bs : list (string * string)) (b c : string) :
  Sim.commitOf bs b = None -> Sim.commitOf (bs ++ [(b, c)]) b = Some c.
Proof.
  induction bs as [|e rest IH]; cbn [app Sim.commitOf fst snd].
  - now rewrite String.eqb_refl.
  - destruct (fst e =? b)%string; [discriminate | exact IH].
Qed.

Lemma commitOf_app_old (bs : list (string * string)) (b b' c c' : string) :
  Sim.commitOf bs b = Some c -> Sim.commitOf (bs ++ [(b', c')]) b = Some c.
Proof.
  induction bs as [|e rest IH]; cbn [app Sim.commitOf]; [discriminate | ].
  destruct (fst e =? b)%string; [trivial | exact IH].
Qed.

Lemma filter_app_new (bs : list (string * string)) (b c : string) :
  Sim.commitOf bs b = None ->
  filter (fun e => negb (fst e =? b)%string) (bs ++ [(b, c)]) = bs.
Proof.
  induction bs as [|e rest IH]; cbn [app filter Sim.commitOf fst].
  - now rewrite String.eqb_refl.
  - destruct (fst e =? b)%string; [discriminate | ].
    intros H. cbn [negb]. now rewrite IH.
Qed.

(** *** Worktrees at distinct paths *)

Section OneTree.
Variables (before after : list Sim.Tree) (t : Sim.Tree).
Hypothesis Hpaths : Sim.distinct (map Sim.tpath (before ++ t :: after)) = true.

Lemma other_paths (x : Sim.Tree) :
  In x (before ++ after) -> (Sim.tpath x =? Sim.tpath t)%string = false.
Proof.
  intros Hin. apply String.eqb_neq. intros Heq.
  rewrite map_app in Hpaths. cbn [map] in Hpaths.
  destruct (distinct_split _ _ _ Hpaths) as [H1 H2].
  apply in_app_or in Hin as [Hin | Hin].
  - apply H1. rewrite <- Heq. now apply in_map.
  - apply H2. rewrite <- Heq. now apply in_map.
Qed.

Lemma setTree_other (f : Sim.Tree -> Sim.Tree) (l : list Sim.Tree) :
  (forall x, In x l -> (Sim.tpath x =? Sim.tpath t)%string = false) ->
  Sim.setTree (Sim.tpath t) f l = l.
Proof.
  intros H. unfold Sim.setTree. induction l as [|x l IH]; [reflexivity | ].
  cbn [map]. rewrite (H x) by now left.
  rewrite IH; [reflexivity | ]. intros y Hy. apply H. now right.
Qed.

Lemma setTree_split (f : Sim.Tree -> Sim.Tree) :
  Sim.setTree (Sim.tpath t) f (before ++ t :: after) = (before ++ f t :: after)%list.
Proof.
  unfold Sim.setTree. rewrite map_app. cbn [map]. rewrite String.eqb_refl.
  fold (Sim.setTree (Sim.tpath t) f before). fold (Sim.setTree (Sim.tpath t) f after).
  rewrite !setTree_other; [reflexivity | | ];
    intros x Hx; apply other_paths, in_or_app; [now right | now left].
Qed.

Lemma treeAt_split (t' : Sim.Tree) :
  Sim.tpath t' = Sim.tpath t ->
  Sim.treeAt (before ++ t' :: after) (Sim.tpath t) = Some t'.
Proof.
  intros Hp.
  assert (H : forall x, In x before -> (Sim.tpath x =? Sim.tpath t)%string = false)
    by (intros x Hx; apply other_paths, in_or_app; now left).
  clear Hpaths. induction before as [|x l IH]; cbn [app Sim.treeAt].
  - now rewrite Hp, String.eqb_refl.
  - rewrite (H x) by now left. apply IH. intros y Hy. apply H. now right.
Qed.

Lemma treeAt_elsewhere (t' : Sim.Tree) (p : string) :
  p <> Sim.tpath t -> Sim.tpath t' = Sim.tpath t ->
  Sim.treeAt (before ++ t' :: after) p = Sim.treeAt (before ++ t :: after) p.
Proof.
  intros Hp Ht'. clear Hpaths. induction before as [|x l IH]; cbn [app Sim.treeAt].
  - rewrite Ht'. destruct (String.eqb_spec (Sim.tpath t) p) as [E | _];
      [now elim Hp | reflexivity].
  - destruct (Sim.tpath x =? p)%string; [reflexivity | exact IH].
Qed.
End OneTree.

(** *** Who holds a branch *)

Lemma checkedOut_app (l1 l2 : list Sim.Tree) :
  Sim.checkedOut (l1 ++ l2) = (Sim.checkedOut l1 ++ Sim.checkedOut l2)%list.
Proof.
  induction l1 as [|x l1 IH]; [reflexivity | ].
  cbn [app Sim.checkedOut]. destruct (Sim.tbranch x); now rewrite IH.
Qed.

Lemma In_checkedOut (l : list Sim.Tree) (x : Sim.Tree) (b : string) :
  In x l -> Sim.tbranch x = Some b -> In b (Sim.checkedOut l).
Proof.
  intros Hin Hb. induction l as [|y l IH]; [destruct Hin | ].
  cbn [Sim.checkedOut]. destruct Hin as [-> | Hin].
  - rewrite Hb. now left.
  - destruct (Sim.tbranch y); [right | ]; now apply IH.
Qed.

Lemma onBranch_true (b : string) (x : Sim.Tree) :
  Sim.onBranch b x = true <-> Sim.tbranch x = Some b.
Proof.
  unfold Sim.onBranch. destruct (Sim.tbranch x) as [b'|].
  - rewrite String.eqb_eq. split; [now intros -> | now intros [= ->]].
  - split; discriminate.
Qed.

Lemma only_holder (before after : list Sim.Tree) (t : Sim.Tree) (b : string) :
  Sim.distinct (Sim.checkedOut (before ++ t :: after)) = true ->
  Sim.tbranch t = Some b ->
  forall x, In x (before ++ after) -> Sim.onBranch b x = false.
Proof.
  intros Hd Hb x Hin. rewrite checkedOut_app in Hd. cbn [Sim.checkedOut] in Hd.
  rewrite Hb in Hd. destruct (distinct_split _ _ _ Hd) as [H1 H2].
  destruct (Sim.onBranch b x) eqn:E; [exfalso | reflexivity].
  apply onBranch_true in E. apply in_app_or in Hin as [Hin | Hin].
  - apply H1. now apply (In_checkedOut before x).
  - apply H2. now apply (In_checkedOut after x).
Qed.

Lemma existsb_false (A : Type) (f : A -> bool) (l : list A) :
  (forall x, In x l -> f x = false) -> existsb f l = false.
Proof.
  intros H. induction l as [|x l IH]; [reflexivity | ].
  cbn [existsb]. rewrite (H x) by now left. apply IH. intros y Hy. apply H. now right.
Qed.

Lemma heldElsewhere_split (before after : list Sim.Tree) (t' : Sim.Tree) (p b : string) :
  (forall x, In x (before ++ after) -> Sim.onBranch b x = false) ->
  Sim.tpath t' = p ->
  Sim.heldElsewhere (before ++ t' :: after) p b = false.
Proof.
  intros Hothers Hp. unfold Sim.heldElsewhere. apply existsb_false.
  intros x Hin. apply in_app_or in Hin as [Hin | [<- | Hin]].
  - rewrite Hothers; [reflexivity | apply in_or_app; now left].
  - rewrite Hp, String.eqb_refl. apply andb_false_r.
  - rewrite Hothers; [reflexivity | apply in_or_app; now right].
Qed.

Lemma Find_recordOf (before after : list Sim.Tree) (t : Sim.Tree) (b p : string) :
  (forall x, In x before -> Sim.onBranch b x = false) ->
  Sim.tbranch t = Some b -> Sim.tpath t <> p -> b <> "" ->
  FindWorktreeByBranch (map Sim.recordOf (before ++ t :: after)) b p
  = Some (Sim.recordOf t).
Proof.
  intros Hbefore Hb Hp Hne.
  apply (Find_first _ (map Sim.recordOf before) (map Sim.recordOf after)).
  - now rewrite map_app.
  - unfold Sim.recordOf. cbn [Branch]. now rewrite Hb.
  - exact Hp.
  - intros x Hin [Hx _]. apply in_map_iff in Hin as (y & <- & Hy).
    pose proof (Hbefore y Hy) as Hno. unfold Sim.onBranch in Hno.
    unfold Sim.recordOf in Hx. cbn [Branch] in Hx.
    destruct (Sim.tbranch y) as [b'|]; [ | now apply Hne].
    subst b'. now rewrite String.eqb_refl in Hno.
Qed.

(** *** The commands on the model *)

Lemma git_branchExists (r : Sim.Repo) (b : string) :
  Sim.git r (cmdBranchExists b)
  = match Sim.commitOf (Sim.branches r) b with
    | Some c => ((c ++ Sim.nl, None), r)
    | None => if Sim.absent r b then (("", Some "exit status 128"), r) else Sim.lose r
    end.
Proof. reflexivity. Qed.

Lemma git_toplevel (r : Sim.Repo) :
  Sim.git r cmdToplevel
  = match Sim.treeAt (Sim.trees r) (Sim.cwd r) with
    | Some _ => ((Sim.cwd r ++ Sim.nl, None), r)
    | None => (("", Some "exit status 128"), r)
    end.
Proof. reflexivity. Qed.

Lemma git_list (r : Sim.Repo) :
  Sim.git r cmdList = ((Sim.renderTrees (Sim.trees r), None), r).
Proof. reflexivity. Qed.

Lemma git_status (r : Sim.Repo) (p : string) :
  Sim.git r (cmdStatus p)
  = match Sim.treeAt (Sim.trees r) p with
    | Some t => ((Sim.renderStatus (Sim.tdirty t), None), r)
    | None => (("", Some "exit status 128"), r)
    end.
Proof. reflexivity. Qed.

Lemma git_create (r : Sim.Repo) (p b : string) :
  Sim.git r (cmdCreate p b) = Sim.createBranch r p b.
Proof. reflexivity. Qed.

Lemma git_checkout (r : Sim.Repo) (p b : string) :
  Sim.git r (cmdCheckout p b) = Sim.checkout r p b.
Proof. reflexivity. Qed.

Lemma git_delete (r : Sim.Repo) (b : string) :
  Sim.git r (cmdDelete b) = Sim.deleteBranch r b.
Proof. reflexivity. Qed.

Lemma absent_parts (r : Sim.Repo) (b : string) :
  Sim.absent r b = true ->
  Sim.hasBranch r b = false /\ Sim.commitOf (Sim.branches r) b = None
  /\ Sim.plainName b = true /\ Sim.wfName b = true.
Proof.
  intros H. unfold Sim.absent in H. rewrite !andb_true_iff, !negb_true_iff in H.
  destruct H as [[Hno Hplain] _].
  split; [exact Hno | ]. split; [ | split; [exact Hplain | ]].
  - rewrite commitOf_hasBranch in Hno.
    destruct (Sim.commitOf (Sim.branches r) b); [discriminate | reflexivity].
  - unfold Sim.plainName in Hplain. rewrite !andb_true_iff in Hplain. tauto.
Qed.

Lemma creatable_parts (r : Sim.Repo) (b : string) :
  Sim.creatable r b = true -> Sim.absent r b = true /\ Sim.nameUnder r b = false.
Proof.
  unfold Sim.creatable. rewrite andb_true_iff, negb_true_iff. tauto.
Qed.

Lemma wfRepo_parts (r : Sim.Repo) :
  Sim.wfRepo r = true ->
  forallb Sim.wfTree (Sim.trees r) = true
  /\ (forall e, In e (Sim.branches r) -> Sim.wfName (fst e) = true)
  /\ Sim.distinct (map Sim.tpath (Sim.trees r)) = true
  /\ Sim.distinct (Sim.checkedOut (Sim.trees r)) = true
  /\ (forall x b, In x (Sim.trees r) -> Sim.tbranch x = Some b ->
                  Sim.commitOf (Sim.branches r) b = Some (Sim.thead x))
  /\ (exists x, Sim.treeAt (Sim.trees r) (Sim.cwd r) = Some x).
Proof.
  unfold Sim.wfRepo. rewrite !andb_true_iff.
  intros [[[[[[Ht Hb] Hp] _] Hc] Hh] Hcwd].
  repeat split; try assumption.
  - intros e He. rewrite forallb_forall in Hb. now apply Hb.
  - intros x b Hx Hxb. rewrite forallb_forall in Hh. specialize (Hh x Hx).
    rewrite Hxb in Hh. destruct (Sim.commitOf (Sim.branches r) b) as [c|]; [ | discriminate].
    apply String.eqb_eq in Hh. now subst.
  - destruct (Sim.treeAt (Sim.trees r) (Sim.cwd r)) as [x|]; [now exists x | discriminate].
Qed.

Lemma commitOf_In (bs : list (string * string)) (b c : string) :
  Sim.commitOf bs b = Some c -> In (b, c) bs.
Proof.
  induction bs as [|e rest IH]; cbn [Sim.commitOf]; [discriminate | ].
  destruct (String.eqb_spec (fst e) b) as [E | _].
  - intros [= <-]. left. destruct e. cbn in E |- *. now subst.
  - intros H. right. now apply IH.
Qed.

(* ================================================================== *)
(** ** Round trip *)
(* ================================================================== *)

Lemma treeAt_In (ts : list Sim.Tree) (p : string) (x : Sim.Tree) :
  Sim.treeAt ts p = Some x -> In x ts /\ Sim.tpath x = p.
Proof.
  induction ts as [|y ts IH]; cbn [Sim.treeAt]; [discriminate | ].
  destruct (String.eqb_spec (Sim.tpath y) p) as [E | _].
  - intros [= <-]. split; [now left | assumption].
  - intros H. destruct (IH H). split; [now right | assumption].
Qed.




(* ================================================================== *)
(** ** Revert: what is issued on each path *)
(* ================================================================== *)

(** None of the four early exits of [Revert] is the outcome at hand. *)
Ltac revert_exit_absurd H :=
  destruct H as [H | [H | [[? H] | H]]];
  lazymatch type of H with
  | false = true => discriminate H
  | _ => apply (f_equal headByte) in H; discriminate H
  end.

(** X1.  Whenever [Revert] ends at one of its exits before the first
    mutation (the branch is missing; the temp branch is missing; there are
    uncommitted changes and no force; or [DryRun] is set), no command that
    creates, checks out or deletes a branch has been issued. *)
Theorem Revert_early_exit_no_mutation :
  forall (W : Type) (os : W -> list string -> Reply * W) (w : W)
         (d : Detacher) (branch : string) (opts : Options),
    let res := result os (Revert d branch opts) w in
    let log := trace os (Revert d branch opts) w in
    (res = inr (errBranchMissing branch)
     \/ res = inr (errTempMissing (TempBranchName d branch))
     \/ (exists p, res = inr (errUncommitted p))
     \/ DryRun opts = true) ->
    readOnly log.
Proof.
  intros W os w d branch opts. unfold result, trace, readOnly.
  exec os.
  all: intros H; first [ solve [read_only] | exfalso; revert_exit_absurd H ].
Qed.

Lemma Revert_early_exit_no_mutation_witness :
  readOnly (trace Sim.git (Revert NewDetacher "feature-x" Examples.plain) Examples.twoTrees)
  /\ result Sim.git (Revert NewDetacher "feature-x" Examples.plain) Examples.twoTrees
     = inr (errTempMissing "feature-x__wt_detach").
Proof.
  split; [ | reflexivity].
  exact (Revert_early_exit_no_mutation Sim.Repo Sim.git Examples.twoTrees
           NewDetacher "feature-x" Examples.plain (or_intror (or_introl eq_refl))).
Defined.

(** Read the reply and the directory off an event found in a trace. *)
Ltac event_facts H :=
  let Hr := fresh "Hr" in
  let Hp := fresh "Hp" in
  pose proof (f_equal snd H) as Hr; cbn [snd] in Hr;
  pose proof (f_equal (fun ev : Event => nth 2 (fst ev) "") H) as Hp;
  cbn [fst nth cmdCheckout cmdCreate cmdStatus] in Hp.

(** X2.  In every execution of [Revert] in which the checkout of the
    original branch failed, that checkout is the last command issued:
    the temp branch is not deleted, nothing before changed the repository,
    and the outcome is the checkout error. *)
Theorem Revert_failed_checkout_keeps_temp_branch :
  forall (W : Type) (os : W -> list string -> Reply * W) (w : W)
         (d : Detacher) (branch : string) (opts : Options) (p o e : string),
    let log := trace os (Revert d branch opts) w in
    In (cmdCheckout p branch, (o, Some e)) log ->
    (exists before,
        log = (before ++ [(cmdCheckout p branch, (o, Some e))])%list
        /\ readOnly before)
    /\ result os (Revert d branch opts) w = inr (errCheckout branch p e).
Proof.
  intros W os w d branch opts p o e log. subst log.
  unfold result, trace, readOnly.
  exec os.
  all: intros Hc.
  all: apply (In_filter_event isCheckout) in Hc; [ | reflexivity].
  all: cbn [filter fst isCreate isCheckout isDelete String.eqb Ascii.eqb Bool.eqb andb] in Hc.
  all: try solve [destruct Hc].
  all: destruct Hc as [Hc | []].
  all: try (exfalso; apply (f_equal snd) in Hc; discriminate Hc).
  all: event_facts Hc; injection Hr as -> ->; subst p.
  all: split; [ | reflexivity].
  all: eexists [_; _; _; _; _]; split; [reflexivity | read_only].
Qed.

Lemma Revert_failed_checkout_keeps_temp_branch_witness :
  result Examples.checkoutFails (Revert NewDetacher "feature-x" Examples.plain)
         Examples.detachedRepo
  = inr (errCheckout "feature-x" "/wt/x" "exit status 1")
  /\ final Examples.checkoutFails (Revert NewDetacher "feature-x" Examples.plain)
           Examples.detachedRepo
     = Examples.detachedRepo.
Proof.
  split; [ | reflexivity].
  refine (proj2 (Revert_failed_checkout_keeps_temp_branch
                   Sim.Repo Examples.checkoutFails Examples.detachedRepo
                   NewDetacher "feature-x" Examples.plain "/wt/x" "" "exit status 1" _));
    vm_compute; repeat (first [left; reflexivity | right]).
Defined.

(** X3.  In every execution of [Revert] in which the original branch was
    checked out and the delete of the temp branch then failed, the failed
    delete is the last command: the checkout is not undone, and the
    outcome is the delete error. *)
Theorem Revert_failed_delete_is_not_rolled_back :
  forall (W : Type) (os : W -> list string -> Reply * W) (w : W)
         (d : Detacher) (branch : string) (opts : Options) (p o1 o2 e : string),
    let tmp := TempBranchName d branch in
    let log := trace os (Revert d branch opts) w in
    In (cmdCheckout p branch, (o1, None)) log ->
    In (cmdDelete tmp, (o2, Some e)) log ->
    (exists before,
        log = (before ++ [ (cmdCheckout p branch, (o1, None));
                           (cmdDelete tmp, (o2, Some e)) ])%list
        /\ readOnly before)
    /\ result os (Revert d branch opts) w
       = inr ("failed to delete branch '" ++ tmp ++ "': " ++ e).
Proof.
  intros W os w d branch opts p o1 o2 e tmp log. subst tmp log.
  unfold result, trace, readOnly.
  exec os.
  all: intros Hc Hd.
  all: apply (In_filter_event isCheckout) in Hc; [ | reflexivity].
  all: apply (In_filter_event isDelete) in Hd; [ | reflexivity].
  all: cbn [filter fst isCreate isCheckout isDelete String.eqb Ascii.eqb Bool.eqb andb]
         in Hc, Hd.
  all: try solve [destruct Hc].
  all: try solve [destruct Hd].
  all: destruct Hc as [Hc | []]; destruct Hd as [Hd | []].
  all: try (exfalso; apply (f_equal snd) in Hd; discriminate Hd).
  all: event_facts Hc; injection Hr as ->; subst p.
  all: pose proof (f_equal snd Hd) as Hr; cbn [snd] in Hr; injection Hr as -> ->.
  all: split; [ | reflexivity].
  all: eexists [_; _; _; _; _]; split; [reflexivity | read_only].
Qed.

(** X4.  In every execution of [Detach] in which the command creating the
    temp branch failed, that command is the last one issued: no checkout
    and no delete follow, nothing before changed the repository, and the
    outcome is the create error. *)
Theorem Detach_failed_create_stops :
  forall (W : Type) (os : W -> list string -> Reply * W) (w : W)
         (d : Detacher) (branch : string) (opts : Options) (p o e : string),
    let tmp := TempBranchName d branch in
    let log := trace os (Detach d branch opts) w in
    In (cmdCreate p tmp, (o, Some e)) log ->
    (exists before,
        log = (before ++ [(cmdCreate p tmp, (o, Some e))])%list
        /\ readOnly before)
    /\ result os (Detach d branch opts) w
       = inr ("failed to create branch '" ++ tmp ++ "': " ++ e).
Proof.
  intros W os w d branch opts p o e tmp log. subst tmp log.
  unfold result, trace, readOnly.
  exec os.
  all: intros Hc.
  all: apply (In_filter_event isCreate) in Hc; [ | reflexivity].
  all: cbn [filter fst isCreate isCheckout isDelete String.eqb Ascii.eqb Bool.eqb andb] in Hc.
  all: try solve [destruct Hc].
  all: destruct Hc as [Hc | []].
  all: try (exfalso; apply (f_equal snd) in Hc; discriminate Hc).
  all: event_facts Hc; injection Hr as -> ->; subst p.
  all: split; [ | reflexivity].
  all: eexists [_; _; _; _; _]; split; [reflexivity | read_only].
Qed.

Lemma Revert_failed_delete_is_not_rolled_back_witness :
  result Examples.deleteFails (Revert NewDetacher "feature-x" Examples.plain)
         Examples.detachedRepo
  = inr "failed to delete branch 'feature-x__wt_detach': exit status 1"
  /\ Sim.treeAt (Sim.trees (final Examples.deleteFails
                              (Revert NewDetacher "feature-x" Examples.plain)
                              Examples.detachedRepo)) "/wt/x"
     = Some {| Sim.tpath := "/wt/x"; Sim.thead := "c1";
               Sim.tbranch := Some "feature-x"; Sim.tdirty := [] |}.
Proof.
  split; [ | reflexivity].
  refine (proj2 (Revert_failed_delete_is_not_rolled_back
                   Sim.Repo Examples.deleteFails Examples.detachedRepo
                   NewDetacher "feature-x" Examples.plain "/wt/x" "" ""
                   "exit status 1" _ _));
    vm_compute; repeat (first [left; reflexivity | right]).
Defined.

Lemma Detach_failed_create_stops_witness :
  result Examples.createFails (Detach NewDetacher "feature-x" Examples.plain)
         Examples.twoTrees
  = inr "failed to create branch 'feature-x__wt_detach': exit status 128"
  /\ final Examples.createFails (Detach NewDetacher "feature-x" Examples.plain)
           Examples.twoTrees
     = Examples.twoTrees.
Proof.
  split; [ | reflexivity].
  refine (proj2 (Detach_failed_create_stops
                   Sim.Repo Examples.createFails Examples.twoTrees
                   NewDetacher "feature-x" Examples.plain "/wt/x" ""
                   "exit status 128" _));
    vm_compute; repeat (first [left; reflexivity | right]).
Defined.

(** X5.  [Detach] deletes a branch only to undo its own create: whenever a
    delete appears among the commands of [Detach], it is the last command,
    it deletes the temp branch, and it comes right after the successful
    create of the temp branch and the failed checkout of it in the same
    worktree. *)
Theorem Detach_deletes_only_as_rollback :
  forall (W : Type) (os : W -> list string -> Reply * W) (w : W)
         (d : Detacher) (branch : string) (opts : Options) (ev : Event),
    let tmp := TempBranchName d branch in
    let log := trace os (Detach d branch opts) w in
    In ev log -> isDelete (fst ev) = true ->
    exists before p o1 o2 e,
      log = (before ++ [ (cmdCreate p tmp, (o1, None));
                         (cmdCheckout p tmp, (o2, Some e)); ev ])%list
      /\ fst ev = cmdDelete tmp
      /\ readOnly before.
Proof.
  intros W os w d branch opts ev tmp log. subst tmp log.
  unfold trace, readOnly.
  exec os.
  all: intros Hin Hdel.
  all: apply (In_filter_event isDelete) in Hin; [ | exact Hdel].
  all: cbn [filter fst isCreate isCheckout isDelete String.eqb Ascii.eqb Bool.eqb andb] in Hin.
  all: try solve [destruct Hin].
  all: destruct Hin as [<- | []].
  all: eexists [_; _; _; _; _], _, _, _, _; split; [reflexivity | ].
  all: split; [reflexivity | read_only].
Qed.

Lemma Detach_deletes_only_as_rollback_witness :
  exists before p o1 o2 e,
    trace Examples.checkoutFails (Detach NewDetacher "feature-x" Examples.plain)
          Examples.twoTrees
    = (before ++ [ (cmdCreate p "feature-x__wt_detach", (o1, None));
                   (cmdCheckout p "feature-x__wt_detach", (o2, Some e));
                   (cmdDelete "feature-x__wt_detach", ("", None)) ])%list
    /\ readOnly before.
Proof.
  destruct (Detach_deletes_only_as_rollback
              Sim.Repo Examples.checkoutFails Examples.twoTrees
              NewDetacher "feature-x" Examples.plain
              (cmdDelete "feature-x__wt_detach", ("", None)))
    as (before & p & o1 & o2 & e & Hlog & _ & Hro).
  - vm_compute. repeat (first [left; reflexivity | right]).
  - reflexivity.
  - exists before, p, o1, o2, e. split; [exact Hlog | exact Hro].
Defined.

(* ================================================================== *)
(** ** Which worktree the engine touches *)
(* ================================================================== *)

Lemma Find_Some_record (worktrees : list Worktree) (b p : string) (wt : Worktree) :
  FindWorktreeByBranch worktrees b p = Some wt ->
  In {| Path := Path wt; Branch := b |} worktrees /\ Path wt <> p.
Proof.
  intros H. destruct (Find_Some _ _ _ _ H) as (bf & af & -> & Hb & Hp & _).
  split; [ | exact Hp]. apply in_or_app. right. left.
  destruct wt as [wp wb]. cbn in Hb |- *. now subst.
Qed.

Ltac found_worktree :=
  match goal with
  | H : FindWorktreeByBranch _ _ _ = Some _ |- _ =>
      let Hin := fresh "Hin" in
      let Hne := fresh "Hne" in
      destruct (Find_Some_record _ _ _ _ H) as [Hin Hne]
  end.

(** X6.  Every create and every checkout that [Detach] issues is for the
    temp branch and runs in a worktree that the parsed listing shows on
    the branch being detached and whose path differs from the path
    [GetCurrentWorktreePath] returned: the output of
    [git rev-parse --show-toplevel] with the white space at its ends
    trimmed.  That is the path of the current worktree when that path has
    no white space at its ends; about a current worktree whose path has,
    nothing is stated. *)
Theorem Detach_mutates_off_the_trimmed_toplevel :
  forall (W : Type) (os : W -> list string -> Reply * W) (w : W)
         (d : Detacher) (branch : string) (opts : Options)
         (p b' : string) (r : Reply),
    let log := trace os (Detach d branch opts) w in
    In (cmdCreate p b', r) log \/ In (cmdCheckout p b', r) log ->
    b' = TempBranchName d branch
    /\ exists cur listing,
         In (cmdToplevel, (cur, None)) log
         /\ In (cmdList, (listing, None)) log
         /\ p <> Go.TrimSpace cur
         /\ In {| Path := p; Branch := branch |}
               (ParseWorktreeList (Go.TrimSpace listing)).
Proof.
  intros W os w d branch opts p b' r log. subst log. unfold trace.
  exec os.
  all: intros [Hc | Hc];
    [ apply (In_filter_event isCreate) in Hc; [ | reflexivity]
    | apply (In_filter_event isCheckout) in Hc; [ | reflexivity] ].
  all: cbn [filter fst isCreate isCheckout isDelete String.eqb Ascii.eqb Bool.eqb andb] in Hc.
  all: try solve [destruct Hc].
  all: destruct Hc as [Hc | []].
  all: pose proof (f_equal (fun ev : Event => nth 2 (fst ev) "") Hc) as Hp;
    pose proof (f_equal (fun ev : Event => nth 4 (fst ev) "") Hc) as Hb;
    cbn [fst nth cmdCheckout cmdCreate] in Hp, Hb; subst p b'.
  all: found_worktree.
  all: split; [reflexivity | ].
  all: eexists _, _; split; [right; left; reflexivity | ].
  all: split; [right; right; left; reflexivity | ].
  all: split; assumption.
Qed.

Lemma Detach_mutates_off_the_trimmed_toplevel_witness :
  "/wt/x" <> Sim.cwd Examples.twoTrees
  /\ exists cur listing,
       In (cmdToplevel, (cur, None))
          (trace Sim.git (Detach NewDetacher "feature-x" Examples.plain) Examples.twoTrees)
       /\ "/wt/x" <> Go.TrimSpace cur
       /\ In {| Path := "/wt/x"; Branch := "feature-x" |}
             (ParseWorktreeList (Go.TrimSpace listing)).
Proof.
  split; [discriminate | ].
  destruct (Detach_mutates_off_the_trimmed_toplevel
              Sim.Repo Sim.git Examples.twoTrees NewDetacher "feature-x" Examples.plain
              "/wt/x" "feature-x__wt_detach" ("", None))
    as (_ & cur & listing & H1 & _ & H3 & H4).
  - left. vm_compute. repeat (first [left; reflexivity | right]).
  - exists cur, listing. repeat split; assumption.
Defined.

(** X7.  Every checkout that [Revert] issues checks out the original
    branch in a worktree that the parsed listing shows on the temp branch
    and whose path differs from the path [GetCurrentWorktreePath]
    returned: the output of [git rev-parse --show-toplevel] with the
    white space at its ends trimmed.  That is the path of the current
    worktree when that path has no white space at its ends; about a
    current worktree whose path has, nothing is stated. *)
Theorem Revert_checks_out_off_the_trimmed_toplevel :
  forall (W : Type) (os : W -> list string -> Reply * W) (w : W)
         (d : Detacher) (branch : string) (opts : Options)
         (p b' : string) (r : Reply),
    let log := trace os (Revert d branch opts) w in
    In (cmdCheckout p b', r) log ->
    b' = branch
    /\ exists cur listing,
         In (cmdToplevel, (cur, None)) log
         /\ In (cmdList, (listing, None)) log
         /\ p <> Go.TrimSpace cur
         /\ In {| Path := p; Branch := TempBranchName d branch |}
               (ParseWorktreeList (Go.TrimSpace listing)).
Proof.
  intros W os w d branch opts p b' r log. subst log. unfold trace.
  exec os.
  all: intros Hc.
  all: apply (In_filter_event isCheckout) in Hc; [ | reflexivity].
  all: cbn [filter fst isCreate isCheckout isDelete String.eqb Ascii.eqb Bool.eqb andb] in Hc.
  all: try solve [destruct Hc].
  all: destruct Hc as [Hc | []].
  all: pose proof (f_equal (fun ev : Event => nth 2 (fst ev) "") Hc) as Hp;
    pose proof (f_equal (fun ev : Event => nth 4 (fst ev) "") Hc) as Hb;
    cbn [fst nth cmdCheckout cmdCreate] in Hp, Hb; subst p b'.
  all: found_worktree.
  all: split; [reflexivity | ].
  all: eexists _, _; split; [right; right; left; reflexivity | ].
  all: split; [right; right; right; left; reflexivity | ].
  all: split; assumption.
Qed.

Lemma Revert_checks_out_off_the_trimmed_toplevel_witness :
  exists cur listing,
    In (cmdToplevel, (cur, None))
       (trace Sim.git (Revert NewDetacher "feature-x" Examples.plain) Examples.detachedRepo)
    /\ "/wt/x" <> Go.TrimSpace cur
    /\ In {| Path := "/wt/x"; Branch := "feature-x__wt_detach" |}
          (ParseWorktreeList (Go.TrimSpace listing)).
Proof.
  destruct (Revert_checks_out_off_the_trimmed_toplevel
              Sim.Repo Sim.git Examples.detachedRepo NewDetacher "feature-x" Examples.plain
              "/wt/x" "feature-x" ("", None))
    as (_ & cur & listing & H1 & _ & H3 & H4).
  - vm_compute. repeat (first [left; reflexivity | right]).
  - exists cur, listing. repeat split; assumption.
Defined.

(* ================================================================== *)
(** ** Force and the status query *)
(* ================================================================== *)

(** X8.  With [Force] set neither [Detach] nor [Revert] ever fails with
    the uncommitted-changes error, whatever the status query answers. *)
Theorem Force_never_blocks_on_uncommitted_changes :
  forall (W : Type) (os : W -> list string -> Reply * W) (w : W)
         (d : Detacher) (branch : string) (opts : Options) (p : string),
    Force opts = true ->
    result os (Detach d branch opts) w <> inr (errUncommitted p)
    /\ result os (Revert d branch opts) w <> inr (errUncommitted p).
Proof.
  intros W os w d branch opts p Hforce. unfold result. split; revert Hforce.
  - exec os.
    all: intros Hf H; first [discriminate Hf | apply (f_equal headByte) in H; discriminate H].
  - exec os.
    all: intros Hf H; first [discriminate Hf | apply (f_equal headByte) in H; discriminate H].
Qed.

Lemma Force_never_blocks_on_uncommitted_changes_witness :
  result Sim.git (Detach NewDetacher "feature-x" Examples.forced) Examples.elevenDirty
  <> inr (errUncommitted "/wt/x")
  /\ Sim.hasBranch (final Sim.git (Detach NewDetacher "feature-x" Examples.forced)
                          Examples.elevenDirty) "feature-x__wt_detach" = true.
Proof.
  split; [ | reflexivity].
  exact (proj1 (Force_never_blocks_on_uncommitted_changes
                  Sim.Repo Sim.git Examples.elevenDirty NewDetacher "feature-x"
                  Examples.forced "/wt/x" eq_refl)).
Defined.

(** X9.  The status query fails safe: when it ends with an error and
    [Force] is not set, [Detach] and [Revert] stop there with the
    uncommitted-changes error for that worktree, and nothing that changes
    the repository has been issued. *)
Theorem status_error_blocks_without_force :
  forall (W : Type) (os : W -> list string -> Reply * W) (w : W)
         (d : Detacher) (branch : string) (opts : Options) (p o e : string),
    Force opts = false ->
    (In (cmdStatus p, (o, Some e)) (trace os (Detach d branch opts) w) ->
     result os (Detach d branch opts) w = inr (errUncommitted p)
     /\ readOnly (trace os (Detach d branch opts) w))
    /\ (In (cmdStatus p, (o, Some e)) (trace os (Revert d branch opts) w) ->
        result os (Revert d branch opts) w = inr (errUncommitted p)
        /\ readOnly (trace os (Revert d branch opts) w)).
Proof.
  intros W os w d branch opts p o e Hforce. unfold result, trace, readOnly.
  split; revert Hforce.
  - exec os.
    all: intros Hf Hs; try discriminate Hf.
    all: apply (In_filter_event isStatus) in Hs; [ | reflexivity].
    all: cbn [filter fst isStatus String.eqb Ascii.eqb Bool.eqb andb] in Hs.
    all: try solve [destruct Hs].
    all: destruct Hs as [Hs | []].
    all: try (exfalso; apply (f_equal snd) in Hs; discriminate Hs).
    all: event_facts Hs; subst p.
    all: split; [reflexivity | read_only].
  - exec os.
    all: intros Hf Hs; try discriminate Hf.
    all: apply (In_filter_event isStatus) in Hs; [ | reflexivity].
    all: cbn [filter fst isStatus String.eqb Ascii.eqb Bool.eqb andb] in Hs.
    all: try solve [destruct Hs].
    all: destruct Hs as [Hs | []].
    all: try (exfalso; apply (f_equal snd) in Hs; discriminate Hs).
    all: event_facts Hs; subst p.
    all: split; [reflexivity | read_only].
Qed.

Lemma status_error_blocks_without_force_witness :
  result Examples.statusFails (Detach NewDetacher "feature-x" Examples.plain)
         Examples.twoTrees
  = inr (errUncommitted "/wt/x")
  /\ Sim.tdirty {| Sim.tpath := "/wt/x"; Sim.thead := "c1";
                   Sim.tbranch := Some "feature-x"; Sim.tdirty := [] |} = [].
Proof.
  split; [ | reflexivity].
  refine (proj1 (proj1 (status_error_blocks_without_force
                          Sim.Repo Examples.statusFails Examples.twoTrees
                          NewDetacher "feature-x" Examples.plain "/wt/x" ""
                          "exit status 128" eq_refl) _)).
  vm_compute. repeat (first [left; reflexivity | right]).
Defined.

(* ================================================================== *)
(** ** More runs of the engine *)
(* ================================================================== *)

Section MoreRuns.
Context {W : Type} (os : W -> list string -> Reply * W).
Variables (d : Detacher) (branch : string) (opts : Options).

Let tmp : string := TempBranchName d branch.

(** [Detach] when the lookup finds nothing. *)
Lemma Detach_nothing_to_do_run (w0 w1 w2 w3 : W) (o1 cur listing : string) :
  os w0 (cmdBranchExists branch) = ((o1, None), w1) ->
  os w1 cmdToplevel = ((cur, None), w2) ->
  os w2 cmdList = ((listing, None), w3) ->
  FindWorktreeByBranch (ParseWorktreeList (Go.TrimSpace listing)) branch (Go.TrimSpace cur)
  = None ->
  result os (Detach d branch opts) w0
  = inl {| Success := true; Message := msgNotCheckedOut branch;
           WorktreePath := ""; TempBranch := "" |}
  /\ final os (Detach d branch opts) w0 = w3.
Proof.
  intros H1 H2 H3 Hfind. unfold result, final.
  unfold cmdBranchExists, cmdToplevel, cmdList in *. unfold_engine.
  run_known H1. run_known H2. run_known H3.
  cbn [run bind fst snd negb andb app]. rewrite Hfind. split; reflexivity.
Qed.

(** [Detach] stopped by uncommitted changes. *)
Lemma Detach_blocked_run (wt : Worktree) (w0 w1 w2 w3 w4 : W)
    (o1 cur listing o4 : string) :
  os w0 (cmdBranchExists branch) = ((o1, None), w1) ->
  os w1 cmdToplevel = ((cur, None), w2) ->
  os w2 cmdList = ((listing, None), w3) ->
  FindWorktreeByBranch (ParseWorktreeList (Go.TrimSpace listing)) branch (Go.TrimSpace cur)
  = Some wt ->
  os w3 (cmdStatus (Path wt)) = ((o4, None), w4) ->
  Go.TrimSpace o4 <> "" ->
  Force opts = false ->
  result os (Detach d branch opts) w0 = inr (errUncommitted (Path wt))
  /\ final os (Detach d branch opts) w0 = w4.
Proof.
  intros H1 H2 H3 Hfind H4 Hdirty Hforce. unfold result, final.
  unfold cmdBranchExists, cmdToplevel, cmdList, cmdStatus in *. unfold_engine.
  run_known H1. run_known H2. run_known H3.
  cbn [run bind fst snd negb andb app]. rewrite Hfind.
  run_known H4. cbn [run bind fst snd negb andb app].
  apply String.eqb_neq in Hdirty. rewrite Hdirty, Hforce. split; reflexivity.
Qed.

(** [Detach] when every command succeeds and the status does not stop
    it: the worktree is clean or [Force] is set. *)
Lemma Detach_proceeds_run (wt : Worktree) (w0 w1 w2 w3 w4 w5 w6 w7 : W)
    (o1 cur listing o4 o5 e5 o6 o7 : string) :
  os w0 (cmdBranchExists branch) = ((o1, None), w1) ->
  os w1 cmdToplevel = ((cur, None), w2) ->
  os w2 cmdList = ((listing, None), w3) ->
  FindWorktreeByBranch (ParseWorktreeList (Go.TrimSpace listing)) branch (Go.TrimSpace cur)
  = Some wt ->
  os w3 (cmdStatus (Path wt)) = ((o4, None), w4) ->
  Go.TrimSpace o4 = "" \/ Force opts = true ->
  os w4 (cmdBranchExists tmp) = ((o5, Some e5), w5) ->
  DryRun opts = false ->
  os w5 (cmdCreate (Path wt) tmp) = ((o6, None), w6) ->
  os w6 (cmdCheckout (Path wt) tmp) = ((o7, None), w7) ->
  result os (Detach d branch opts) w0
  = inl {| Success := true;
           Message := "Branch '" ++ branch ++ "' detached successfully";
           WorktreePath := Path wt; TempBranch := tmp |}
  /\ final os (Detach d branch opts) w0 = w7.
Proof.
  intros H1 H2 H3 Hfind H4 Hgo H5 Hdry H6 H7.
  unfold result, final.
  unfold cmdBranchExists, cmdToplevel, cmdList, cmdStatus, cmdCreate, cmdCheckout in *.
  fold tmp. unfold_engine. fold tmp.
  run_known H1. run_known H2. run_known H3.
  cbn [run bind fst snd negb andb app]. rewrite Hfind.
  run_known H4. cbn [run bind fst snd negb andb app].
  assert (Hpass : negb (Go.TrimSpace o4 =? "")%string && negb (Force opts) = false).
  { destruct Hgo as [-> | ->]; [reflexivity | apply andb_false_r]. }
  rewrite Hpass. run_known H5.
  cbn [run bind fst snd negb andb app]. rewrite Hdry.
  run_known H6. run_known H7. split; reflexivity.
Qed.

Lemma Revert_proceeds_run (wt : Worktree) (w0 w1 w2 w3 w4 w5 w6 w7 : W)
    (o1 o2 cur listing o5 o6 o7 : string) :
  os w0 (cmdBranchExists branch) = ((o1, None), w1) ->
  os w1 (cmdBranchExists tmp) = ((o2, None), w2) ->
  os w2 cmdToplevel = ((cur, None), w3) ->
  os w3 cmdList = ((listing, None), w4) ->
  FindWorktreeByBranch (ParseWorktreeList (Go.TrimSpace listing)) tmp (Go.TrimSpace cur)
  = Some wt ->
  os w4 (cmdStatus (Path wt)) = ((o5, None), w5) ->
  Go.TrimSpace o5 = "" \/ Force opts = true ->
  DryRun opts = false ->
  os w5 (cmdCheckout (Path wt) branch) = ((o6, None), w6) ->
  os w6 (cmdDelete tmp) = ((o7, None), w7) ->
  result os (Revert d branch opts) w0
  = inl {| Success := true;
           Message := "Branch '" ++ branch ++ "' restored successfully";
           WorktreePath := Path wt; TempBranch := tmp |}
  /\ final os (Revert d branch opts) w0 = w7.
Proof.
  intros H1 H2 H3 H4 Hfind H5 Hgo Hdry H6 H7.
  unfold result, final.
  unfold cmdBranchExists, cmdToplevel, cmdList, cmdStatus, cmdCheckout, cmdDelete in *.
  fold tmp. unfold_engine. fold tmp.
  run_known H1. run_known H2. run_known H3. run_known H4.
  cbn [run bind fst snd negb andb app]. rewrite Hfind.
  run_known H5. cbn [run bind fst snd negb andb app].
  assert (Hpass : negb (Go.TrimSpace o5 =? "")%string && negb (Force opts) = false).
  { destruct Hgo as [-> | ->]; [reflexivity | apply andb_false_r]. }
  rewrite Hpass, Hdry.
  run_known H6. run_known H7. split; reflexivity.
Qed.
End MoreRuns.

(** *** A status output that lists a file is not blank *)

Lemma trimLeftRev_keeps_last (g : ascii) :
  (Go.byte g < 128)%N -> Go.asciiSpace g = false ->
  forall (n : nat) (u : string),
    String.length u <= n ->
    exists v, Go.trimLeftRev (u ++ String g "") = v ++ String g "".
Proof.
  intros Hg Hns. induction n as [|n IH]; intros u Hlen.
  - destruct u; [ | cbn in Hlen; lia]. exists "". cbn [append Go.trimLeftRev].
    now rewrite Hns.
  - destruct u as [|c0 [|c1 [|c2 u]]].
    + exists "". cbn [append Go.trimLeftRev]. now rewrite Hns.
    + cbn [append Go.trimLeftRev]. destruct (Go.asciiSpace c0).
      * exists "". now rewrite Hns.
      * rewrite (space2_ascii_l g c0 Hg). now exists (String c0 "").
    + cbn [append Go.trimLeftRev]. destruct (Go.asciiSpace c0).
      * apply (IH (String c1 "")). cbn. cbn in Hlen. lia.
      * destruct (Go.space2 c1 c0).
        -- exists "". now rewrite Hns.
        -- rewrite (space3_ascii_l g c1 c0 Hg). now exists (String c0 (String c1 "")).
    + cbn [append Go.trimLeftRev]. cbn [String.length] in Hlen.
      destruct (Go.asciiSpace c0).
      * apply (IH (String c1 (String c2 u))). cbn [String.length]. lia.
      * destruct (Go.space2 c1 c0).
        -- apply (IH (String c2 u)). cbn [String.length]. lia.
        -- destruct (Go.space3 c2 c1 c0).
           ++ apply (IH u). lia.
           ++ now exists (String c0 (String c1 (String c2 u))).
Qed.

Lemma renderStatus_not_blank (f : string) (fs : list string) :
  Go.TrimSpace (Sim.renderStatus (f :: fs)) <> "".
Proof.
  cbn [Sim.renderStatus]. unfold Go.TrimSpace.
  set (rest := f ++ Sim.nl ++ Sim.renderStatus fs).
  assert (Hleft : Go.trimLeft (" M " ++ rest) = String "M" (String " " rest)).
  { cbn [append Go.trimLeft]. change (Go.asciiSpace " ") with true. cbv iota.
    change (Go.asciiSpace "M") with false. cbv iota.
    change (Go.space2 "M" " ") with false. cbv iota.
    destruct rest as [|c2 r2]; [reflexivity | ].
    assert (HM : (Go.byte "M" < 128)%N) by reflexivity.
    now rewrite (space3_ascii_l "M" " " c2 HM). }
  rewrite Hleft. unfold Go.trimRight. cbn [Go.rev].
  assert (HM : (Go.byte "M" < 128)%N) by reflexivity.
  assert (HS : Go.asciiSpace "M" = false) by reflexivity.
  destruct (trimLeftRev_keeps_last "M" HM HS
              _ (Go.rev rest ++ String " " "") (le_n _)) as [v Hv].
  rewrite Hv, rev_append. cbn [Go.rev append]. discriminate.
Qed.

(* ================================================================== *)
(** ** The engine on the repository model *)
(* ================================================================== *)

Lemma Find_no_holder (ts : list Sim.Tree) (b p : string) :
  b <> "" ->
  (forall x, In x ts -> Sim.tbranch x = Some b -> Sim.tpath x = p) ->
  FindWorktreeByBranch (map Sim.recordOf ts) b p = None.
Proof.
  intros Hne Hall. apply Find_None. intros w Hin [Hb Hp].
  apply in_map_iff in Hin as (x & <- & Hx).
  unfold Sim.recordOf in Hb, Hp. cbn [Branch Path] in Hb, Hp.
  destruct (Sim.tbranch x) as [b'|] eqn:E; [ | now apply Hne].
  subst b'. now apply Hp, Hall.
Qed.

Lemma wfRepo_names (r : Sim.Repo) (x : Sim.Tree) :
  Sim.wfRepo r = true -> In x (Sim.trees r) -> Sim.wfName (Sim.tpath x) = true.
Proof.
  intros Hwf Hin. destruct (wfRepo_parts r Hwf) as (Htrees & _).
  rewrite forallb_forall in Htrees. specialize (Htrees x Hin).
  unfold Sim.wfTree in Htrees. rewrite !andb_true_iff in Htrees. tauto.
Qed.

Lemma wfRepo_cwd (r : Sim.Repo) :
  Sim.wfRepo r = true ->
  Sim.wfName (Sim.cwd r) = true
  /\ Sim.git r cmdToplevel = ((Sim.cwd r ++ Sim.nl, None), r).
Proof.
  intros Hwf. destruct (wfRepo_parts r Hwf) as (_ & _ & _ & _ & _ & [here Hhere]).
  split.
  - destruct (treeAt_In _ _ _ Hhere) as [Hin <-]. now apply (wfRepo_names r).
  - rewrite git_toplevel, Hhere. reflexivity.
Qed.

Lemma hasBranch_commit (r : Sim.Repo) (b : string) :
  Sim.hasBranch r b = true -> exists c, Sim.commitOf (Sim.branches r) b = Some c.
Proof.
  rewrite commitOf_hasBranch. destruct (Sim.commitOf (Sim.branches r) b) as [c|];
    [now exists c | discriminate].
Qed.

Lemma hasBranch_none (r : Sim.Repo) (b : string) :
  Sim.hasBranch r b = false -> Sim.commitOf (Sim.branches r) b = None.
Proof.
  rewrite commitOf_hasBranch. destruct (Sim.commitOf (Sim.branches r) b);
    [discriminate | reflexivity].
Qed.

Section OnTheModel.
Variables (r : Sim.Repo) (d : Detacher) (b : string) (opts : Options) (t : Sim.Tree).
Hypothesis Hwf : Sim.wfRepo r = true.
Hypothesis Hb : Sim.hasBranch r b = true.
Hypothesis Hin : In t (Sim.trees r).
Hypothesis Hon : Sim.tbranch t = Some b.
Hypothesis Hcwd : Sim.tpath t <> Sim.cwd r.

Let tmp : string := TempBranchName d b.

Lemma target_found :
  FindWorktreeByBranch (ParseWorktreeList (Go.TrimSpace (Sim.renderTrees (Sim.trees r))))
                       b (Go.TrimSpace (Sim.cwd r ++ Sim.nl))
  = Some (Sim.recordOf t).
Proof.
  destruct (wfRepo_parts r Hwf) as (Htrees & Hnames & Hpaths & Hheld & Hheads & _).
  destruct (wfRepo_cwd r Hwf) as [Hcwdname _].
  destruct (in_split t (Sim.trees r) Hin) as (before & after & Hts).
  rewrite Hts in Hheld.
  pose proof (only_holder before after t b Hheld Hon) as Honly.
  assert (Hbne : b <> "").
  { pose proof (Hnames (b, Sim.thead t) (commitOf_In _ _ _ (Hheads t b Hin Hon))) as Hn.
    now destruct (wfName_parts b Hn) as (_ & Hl & _). }
  rewrite parse_listing by assumption. rewrite TrimSpace_name by assumption.
  rewrite Hts. apply Find_recordOf; try assumption.
  intros x Hx. apply Honly, in_or_app. now left.
Qed.

(** Uncommitted changes in the target worktree and no force: [Detach]
    stops with the error and the repository is what it was. *)
Lemma Detach_dirty_on_model :
  Sim.tdirty t <> [] -> Force opts = false ->
  result Sim.git (Detach d b opts) r = inr (errUncommitted (Sim.tpath t))
  /\ final Sim.git (Detach d b opts) r = r.
Proof.
  intros Hdirty Hforce.
  destruct (wfRepo_parts r Hwf) as (_ & _ & Hpaths & _ & Hheads & _).
  destruct (wfRepo_cwd r Hwf) as [_ Htop].
  destruct (in_split t (Sim.trees r) Hin) as (before & after & Hts).
  rewrite Hts in Hpaths.
  apply (Detach_blocked_run Sim.git d b opts (Sim.recordOf t) r r r r r
           (Sim.thead t ++ Sim.nl) (Sim.cwd r ++ Sim.nl)
           (Sim.renderTrees (Sim.trees r)) (Sim.renderStatus (Sim.tdirty t))).
  - rewrite git_branchExists, (Hheads t b Hin Hon). reflexivity.
  - exact Htop.
  - apply git_list.
  - exact target_found.
  - rewrite git_status. cbn [Sim.recordOf Path]. rewrite Hts.
    now rewrite (treeAt_split before after t Hpaths t eq_refl).
  - destruct (Sim.tdirty t) as [|f fs]; [now elim Hdirty | apply renderStatus_not_blank].
  - exact Hforce.
Qed.

Hypothesis Hnew : Sim.hasBranch r tmp = false.
Hypothesis Htmp : Sim.wfName tmp = true.

Lemma nobody_on_tmp (x : Sim.Tree) : In x (Sim.trees r) -> Sim.onBranch tmp x = false.
Proof.
  intros Hx. destruct (wfRepo_parts r Hwf) as (_ & _ & _ & _ & Hheads & _).
  destruct (Sim.onBranch tmp x) eqn:E; [exfalso | reflexivity].
  apply onBranch_true in E. pose proof (hasBranch_none r tmp Hnew) as Hnone.
  rewrite (Hheads x tmp Hx E) in Hnone. discriminate Hnone.
Qed.

Lemma tmp_is_not_b : tmp <> b.
Proof. intros E. rewrite E in Hnew. rewrite Hb in Hnew. discriminate Hnew. Qed.

Lemma afterDetach_trees (before after : list Sim.Tree) :
  Sim.trees r = (before ++ t :: after)%list ->
  Sim.trees (Sim.afterDetach r t tmp)
  = (before ++ {| Sim.tpath := Sim.tpath t; Sim.thead := Sim.thead t;
                  Sim.tbranch := Some tmp; Sim.tdirty := Sim.tdirty t |} :: after)%list.
Proof.
  intros Hts. destruct (wfRepo_parts r Hwf) as (_ & _ & Hpaths & _).
  rewrite Hts in Hpaths. unfold Sim.afterDetach. cbn [Sim.trees]. rewrite Hts.
  now rewrite (setTree_split before after t Hpaths).
Qed.

(** The worktree is clean or [Force] is set, and the temp branch is one
    that [git branch] creates: [Detach] succeeds and the repository is
    [afterDetach]. *)
Lemma Detach_on_model :
  Sim.creatable r tmp = true ->
  Sim.tdirty t = [] \/ Force opts = true -> DryRun opts = false ->
  result Sim.git (Detach d b opts) r
  = inl {| Success := true;
           Message := "Branch '" ++ b ++ "' detached successfully";
           WorktreePath := Sim.tpath t; TempBranch := tmp |}
  /\ final Sim.git (Detach d b opts) r = Sim.afterDetach r t tmp.
Proof.
  intros Hcre Hgo Hdry.
  destruct (creatable_parts r tmp Hcre) as [Habs _].
  destruct (wfRepo_parts r Hwf) as (_ & _ & Hpaths & _ & Hheads & _).
  destruct (wfRepo_cwd r Hwf) as [_ Htop].
  destruct (in_split t (Sim.trees r) Hin) as (before & after & Hts).
  pose proof (afterDetach_trees before after Hts) as Hafter.
  rewrite Hts in Hpaths.
  pose proof (hasBranch_none r tmp Hnew) as Hnone.
  set (rc := {| Sim.branches := (Sim.branches r ++ [(tmp, Sim.thead t)])%list;
                Sim.trees := Sim.trees r; Sim.cwd := Sim.cwd r;
                Sim.cfgSuffix := Sim.cfgSuffix r; Sim.lost := Sim.lost r |}).
  apply (Detach_proceeds_run Sim.git d b opts (Sim.recordOf t) r r r r r r rc
           (Sim.afterDetach r t tmp)
           (Sim.thead t ++ Sim.nl) (Sim.cwd r ++ Sim.nl)
           (Sim.renderTrees (Sim.trees r)) (Sim.renderStatus (Sim.tdirty t))
           "" "exit status 128" "" "").
  - rewrite git_branchExists, (Hheads t b Hin Hon). reflexivity.
  - exact Htop.
  - apply git_list.
  - exact target_found.
  - rewrite git_status. cbn [Sim.recordOf Path]. rewrite Hts.
    now rewrite (treeAt_split before after t Hpaths t eq_refl).
  - destruct Hgo as [-> | Hf]; [left; reflexivity | right; exact Hf].
  - rewrite git_branchExists. fold tmp. rewrite Hnone, Habs. reflexivity.
  - exact Hdry.
  - rewrite git_create. unfold Sim.createBranch. cbn [Sim.recordOf Path]. rewrite Hts.
    rewrite (treeAt_split before after t Hpaths t eq_refl). fold tmp.
    rewrite <- Hts, Hnew, Hcre. reflexivity.
  - rewrite git_checkout. unfold Sim.checkout. cbn [Sim.recordOf Path]. fold tmp.
    subst rc. cbn [Sim.trees Sim.branches Sim.cwd Sim.cfgSuffix Sim.lost]. rewrite Hts.
    rewrite (treeAt_split before after t Hpaths t eq_refl).
    rewrite (commitOf_app_new _ _ _ Hnone).
    rewrite heldElsewhere_split;
      [ | intros x Hx; apply nobody_on_tmp; rewrite Hts;
          apply in_app_or in Hx as [Hx | Hx];
          apply in_or_app; [now left | right; now right] | reflexivity].
    rewrite String.eqb_refl, orb_true_r.
    unfold Sim.afterDetach. rewrite Hts. reflexivity.
Qed.

(** On the repository a detach leaves, [Revert] succeeds when the
    worktree is clean or [Force] is set, and gives the repository back. *)
Lemma Revert_on_model :
  Sim.tdirty t = [] \/ Force opts = true -> DryRun opts = false ->
  result Sim.git (Revert d b opts) (Sim.afterDetach r t tmp)
  = inl {| Success := true;
           Message := "Branch '" ++ b ++ "' restored successfully";
           WorktreePath := Sim.tpath t; TempBranch := tmp |}
  /\ final Sim.git (Revert d b opts) (Sim.afterDetach r t tmp) = r.
Proof.
  intros Hgo Hdry.
  destruct (wfRepo_parts r Hwf) as (Htrees & Hnames & Hpaths & Hheld & Hheads & _).
  destruct (wfRepo_cwd r Hwf) as [Hcwdname Htop].
  destruct (in_split t (Sim.trees r) Hin) as (before & after & Hts).
  pose proof (afterDetach_trees before after Hts) as Hafter.
  rewrite Hts in Hpaths, Hheld, Htrees.
  pose proof (hasBranch_none r tmp Hnew) as Hnone.
  pose proof (Hheads t b Hin Hon) as Hcommit.
  pose proof (only_holder before after t b Hheld Hon) as Honly.
  assert (Htne : tmp <> "").
  { now destruct (wfName_parts tmp Htmp) as (_ & Hl & _). }
  set (t1 := {| Sim.tpath := Sim.tpath t; Sim.thead := Sim.thead t;
                Sim.tbranch := Some tmp; Sim.tdirty := Sim.tdirty t |}) in *.
  set (rd := Sim.afterDetach r t tmp) in *.
  set (rb := {| Sim.branches := (Sim.branches r ++ [(tmp, Sim.thead t)])%list;
                Sim.trees := Sim.trees r; Sim.cwd := Sim.cwd r;
                Sim.cfgSuffix := Sim.cfgSuffix r; Sim.lost := Sim.lost r |}).
  assert (Hpaths1 : Sim.distinct (map Sim.tpath (before ++ t1 :: after)) = true).
  { rewrite map_app in Hpaths |- *. exact Hpaths. }
  assert (Htrees1 : forallb Sim.wfTree (before ++ t1 :: after) = true).
  { rewrite forallb_app in Htrees |- *. cbn [forallb] in Htrees |- *.
    apply andb_true_iff in Htrees as [H1 H2]. apply andb_true_iff in H2 as [H2 H3].
    rewrite H1, H3. unfold Sim.wfTree in H2 |- *. cbn [Sim.tpath Sim.thead Sim.tbranch t1].
    rewrite !andb_true_iff in H2. destruct H2 as [[-> ->] _]. now rewrite Htmp. }
  assert (Hback : {| Sim.tpath := Sim.tpath t1; Sim.thead := Sim.thead t;
                     Sim.tbranch := Some b; Sim.tdirty := Sim.tdirty t1 |} = t).
  { destruct t as [p h br dirty]. cbn in Hon |- *. now subst br. }
  assert (Hbr : Sim.branches rd = (Sim.branches r ++ [(tmp, Sim.thead t)])%list)
    by reflexivity.
  assert (Hcw : Sim.cwd rd = Sim.cwd r) by reflexivity.
  apply (Revert_proceeds_run Sim.git d b opts (Sim.recordOf t1) rd rd rd rd rd rd rb r
           (Sim.thead t ++ Sim.nl) (Sim.thead t ++ Sim.nl) (Sim.cwd r ++ Sim.nl)
           (Sim.renderTrees (before ++ t1 :: after))
           (Sim.renderStatus (Sim.tdirty t)) "" "").
  - rewrite git_branchExists, Hbr.
    rewrite (commitOf_app_old _ _ _ _ _ Hcommit). reflexivity.
  - rewrite git_branchExists. fold tmp. rewrite Hbr.
    rewrite (commitOf_app_new _ _ _ Hnone). reflexivity.
  - rewrite git_toplevel, Hafter, Hcw.
    rewrite (treeAt_elsewhere before after t t1 (Sim.cwd r)); [ | congruence | reflexivity].
    rewrite <- Hts. destruct (wfRepo_parts r Hwf) as (_ & _ & _ & _ & _ & [here ->]).
    reflexivity.
  - rewrite git_list, Hafter. reflexivity.
  - rewrite parse_listing by assumption. rewrite TrimSpace_name by assumption. fold tmp.
    apply Find_recordOf; try assumption; try reflexivity.
    intros x Hx. apply nobody_on_tmp. rewrite Hts. apply in_or_app. now left.
  - rewrite git_status, Hafter. cbn [Sim.recordOf Path].
    change (Sim.tpath t1) with (Sim.tpath t).
    now rewrite (treeAt_split before after t Hpaths t1 eq_refl).
  - destruct Hgo as [-> | Hf]; [left; reflexivity | right; exact Hf].
  - exact Hdry.
  - rewrite git_checkout. unfold Sim.checkout. rewrite Hafter, Hbr.
    cbn [Sim.recordOf Path].
    change (Sim.tpath t1) with (Sim.tpath t).
    rewrite (treeAt_split before after t Hpaths t1 eq_refl).
    rewrite (commitOf_app_old _ _ _ _ _ Hcommit).
    rewrite heldElsewhere_split; [ | exact Honly | reflexivity].
    cbn [Sim.thead t1]. rewrite String.eqb_refl, orb_true_r.
    change (Sim.tpath t) with (Sim.tpath t1) at 1.
    rewrite (setTree_split before after t1 Hpaths1). rewrite Hback.
    subst rb. rewrite Hts. reflexivity.
  - rewrite git_delete. unfold Sim.deleteBranch. fold tmp.
    rewrite commitOf_hasBranch. cbn [Sim.branches Sim.trees Sim.cwd Sim.cfgSuffix Sim.lost rb].
    rewrite (commitOf_app_new _ _ _ Hnone).
    unfold Sim.held. rewrite existsb_false by (exact nobody_on_tmp).
    cbn [negb andb]. rewrite (filter_app_new _ _ _ Hnone).
    destruct r; reflexivity.
Qed.

(** The repository a detach leaves is well formed again, and in it the
    branch is checked out nowhere. *)
Lemma afterDetach_released (x : Sim.Tree) :
  In x (Sim.trees (Sim.afterDetach r t tmp)) -> Sim.tbranch x <> Some b.
Proof.
  destruct (wfRepo_parts r Hwf) as (_ & _ & _ & Hheld & _).
  destruct (in_split t (Sim.trees r) Hin) as (before & after & Hts).
  rewrite (afterDetach_trees before after Hts). rewrite Hts in Hheld.
  pose proof (only_holder before after t b Hheld Hon) as Honly.
  intros Hx E. apply in_app_or in Hx as [Hx | [<- | Hx]].
  - apply onBranch_true in E. rewrite Honly in E; [discriminate | ].
    apply in_or_app. now left.
  - cbn [Sim.tbranch] in E. injection E as E. now apply tmp_is_not_b.
  - apply onBranch_true in E. rewrite Honly in E; [discriminate | ].
    apply in_or_app. now right.
Qed.

(** A second [Detach] on the repository the first one left finds the
    branch checked out nowhere. *)
Lemma Detach_again_on_model (opts' : Options) :
  result Sim.git (Detach d b opts') (Sim.afterDetach r t tmp)
  = inl {| Success := true; Message := msgNotCheckedOut b;
           WorktreePath := ""; TempBranch := "" |}
  /\ final Sim.git (Detach d b opts') (Sim.afterDetach r t tmp) = Sim.afterDetach r t tmp.
Proof.
  destruct (wfRepo_parts r Hwf) as (Htrees & Hnames & Hpaths & Hheld & Hheads & _).
  destruct (wfRepo_cwd r Hwf) as [Hcwdname Htop].
  destruct (in_split t (Sim.trees r) Hin) as (before & after & Hts).
  pose proof (afterDetach_trees before after Hts) as Hafter.
  rewrite Hts in Hpaths, Htrees.
  pose proof (Hheads t b Hin Hon) as Hcommit.
  set (t1 := {| Sim.tpath := Sim.tpath t; Sim.thead := Sim.thead t;
                Sim.tbranch := Some tmp; Sim.tdirty := Sim.tdirty t |}) in *.
  assert (Htrees1 : forallb Sim.wfTree (before ++ t1 :: after) = true).
  { rewrite forallb_app in Htrees |- *. cbn [forallb] in Htrees |- *.
    apply andb_true_iff in Htrees as [H1 H2]. apply andb_true_iff in H2 as [H2 H3].
    rewrite H1, H3. unfold Sim.wfTree in H2 |- *. cbn [Sim.tpath Sim.thead Sim.tbranch t1].
    rewrite !andb_true_iff in H2. destruct H2 as [[-> ->] _]. now rewrite Htmp. }
  assert (Hbne : b <> "").
  { pose proof (Hnames (b, Sim.thead t) (commitOf_In _ _ _ Hcommit)) as Hn.
    now destruct (wfName_parts b Hn) as (_ & Hl & _). }
  set (rd := Sim.afterDetach r t tmp) in *.
  assert (Hbr : Sim.branches rd = (Sim.branches r ++ [(tmp, Sim.thead t)])%list)
    by reflexivity.
  assert (Hcw : Sim.cwd rd = Sim.cwd r) by reflexivity.
  apply (Detach_nothing_to_do_run Sim.git d b opts' rd rd rd rd
           (Sim.thead t ++ Sim.nl) (Sim.cwd r ++ Sim.nl)
           (Sim.renderTrees (before ++ t1 :: after))).
  - rewrite git_branchExists, Hbr.
    rewrite (commitOf_app_old _ _ _ _ _ Hcommit). reflexivity.
  - rewrite git_toplevel, Hafter, Hcw.
    rewrite (treeAt_elsewhere before after t t1 (Sim.cwd r)); [ | congruence | reflexivity].
    rewrite <- Hts. destruct (wfRepo_parts r Hwf) as (_ & _ & _ & _ & _ & [here ->]).
    reflexivity.
  - rewrite git_list, Hafter. reflexivity.
  - rewrite parse_listing by assumption. rewrite TrimSpace_name by assumption.
    apply Find_no_holder; [exact Hbne | ].
    intros x Hx E. exfalso. apply (afterDetach_released x); [ | exact E].
    subst rd. now rewrite Hafter.
Qed.
End OnTheModel.

Section BlockedRevert.
Context {W : Type} (os : W -> list string -> Reply * W).
Variables (d : Detacher) (branch : string) (opts : Options).

Let tmp : string := TempBranchName d branch.

(** [Revert] stopped by uncommitted changes. *)
Lemma Revert_blocked_run (wt : Worktree) (w0 w1 w2 w3 w4 w5 : W)
    (o1 o2 cur listing o5 : string) :
  os w0 (cmdBranchExists branch) = ((o1, None), w1) ->
  os w1 (cmdBranchExists tmp) = ((o2, None), w2) ->
  os w2 cmdToplevel = ((cur, None), w3) ->
  os w3 cmdList = ((listing, None), w4) ->
  FindWorktreeByBranch (ParseWorktreeList (Go.TrimSpace listing)) tmp (Go.TrimSpace cur)
  = Some wt ->
  os w4 (cmdStatus (Path wt)) = ((o5, None), w5) ->
  Go.TrimSpace o5 <> "" ->
  Force opts = false ->
  result os (Revert d branch opts) w0 = inr (errUncommitted (Path wt))
  /\ final os (Revert d branch opts) w0 = w5.
Proof.
  intros H1 H2 H3 H4 Hfind H5 Hdirty Hforce. unfold result, final.
  unfold cmdBranchExists, cmdToplevel, cmdList, cmdStatus in *.
  fold tmp. unfold_engine. fold tmp.
  run_known H1. run_known H2. run_known H3. run_known H4.
  cbn [run bind fst snd negb andb app]. rewrite Hfind.
  run_known H5. cbn [run bind fst snd negb andb app].
  apply String.eqb_neq in Hdirty. rewrite Hdirty, Hforce. split; reflexivity.
Qed.
End BlockedRevert.

(** On the repository a forced detach of a worktree with uncommitted
    changes leaves, [Revert] without force stops with the error. *)
Lemma Revert_dirty_on_model (r : Sim.Repo) (d : Detacher) (b : string)
    (opts : Options) (t : Sim.Tree) :
  Sim.wfRepo r = true -> Sim.hasBranch r b = true ->
  In t (Sim.trees r) -> Sim.tbranch t = Some b -> Sim.tpath t <> Sim.cwd r ->
  Sim.hasBranch r (TempBranchName d b) = false ->
  Sim.wfName (TempBranchName d b) = true ->
  Sim.tdirty t <> [] -> Force opts = false ->
  let rd := Sim.afterDetach r t (TempBranchName d b) in
  result Sim.git (Revert d b opts) rd = inr (errUncommitted (Sim.tpath t))
  /\ final Sim.git (Revert d b opts) rd = rd.
Proof.
  intros Hwf Hb Hin Hon Hcwd Hnew Htmp Hdirty Hforce rd.
  set (tmp := TempBranchName d b) in *.
  destruct (wfRepo_parts r Hwf) as (Htrees & Hnames & Hpaths & Hheld & Hheads & _).
  destruct (wfRepo_cwd r Hwf) as [Hcwdname Htop].
  destruct (in_split t (Sim.trees r) Hin) as (before & after & Hts).
  pose proof (afterDetach_trees r d b t Hwf before after Hts) as Hafter.
  fold tmp in Hafter. fold rd in Hafter.
  rewrite Hts in Hpaths, Htrees.
  pose proof (hasBranch_none r tmp Hnew) as Hnone.
  pose proof (Hheads t b Hin Hon) as Hcommit.
  assert (Htne : tmp <> "").
  { now destruct (wfName_parts tmp Htmp) as (_ & Hl & _). }
  set (t1 := {| Sim.tpath := Sim.tpath t; Sim.thead := Sim.thead t;
                Sim.tbranch := Some tmp; Sim.tdirty := Sim.tdirty t |}) in *.
  assert (Htrees1 : forallb Sim.wfTree (before ++ t1 :: after) = true).
  { rewrite forallb_app in Htrees |- *. cbn [forallb] in Htrees |- *.
    apply andb_true_iff in Htrees as [H1 H2]. apply andb_true_iff in H2 as [H2 H3].
    rewrite H1, H3. unfold Sim.wfTree in H2 |- *. cbn [Sim.tpath Sim.thead Sim.tbranch t1].
    rewrite !andb_true_iff in H2. destruct H2 as [[-> ->] _]. now rewrite Htmp. }
  assert (Hbr : Sim.branches rd = (Sim.branches r ++ [(tmp, Sim.thead t)])%list)
    by reflexivity.
  assert (Hcw : Sim.cwd rd = Sim.cwd r) by reflexivity.
  apply (Revert_blocked_run Sim.git d b opts (Sim.recordOf t1) rd rd rd rd rd rd
           (Sim.thead t ++ Sim.nl) (Sim.thead t ++ Sim.nl) (Sim.cwd r ++ Sim.nl)
           (Sim.renderTrees (before ++ t1 :: after))
           (Sim.renderStatus (Sim.tdirty t))).
  - rewrite git_branchExists, Hbr.
    rewrite (commitOf_app_old _ _ _ _ _ Hcommit). reflexivity.
  - rewrite git_branchExists. fold tmp. rewrite Hbr.
    rewrite (commitOf_app_new _ _ _ Hnone). reflexivity.
  - rewrite git_toplevel, Hafter, Hcw.
    rewrite (treeAt_elsewhere before after t t1 (Sim.cwd r)); [ | congruence | reflexivity].
    rewrite <- Hts. destruct (wfRepo_parts r Hwf) as (_ & _ & _ & _ & _ & [here ->]).
    reflexivity.
  - rewrite git_list, Hafter. reflexivity.
  - rewrite parse_listing by assumption. rewrite TrimSpace_name by assumption. fold tmp.
    apply Find_recordOf; try assumption; try reflexivity.
    intros x Hx. apply (nobody_on_tmp r d b Hwf Hnew). rewrite Hts. apply in_or_app. now left.
  - rewrite git_status, Hafter. cbn [Sim.recordOf Path].
    change (Sim.tpath t1) with (Sim.tpath t).
    now rewrite (treeAt_split before after t Hpaths t1 eq_refl).
  - destruct (Sim.tdirty t) as [|f fs]; [now elim Hdirty | apply renderStatus_not_blank].
  - exact Hforce.
Qed.

(** X10.  Round trip with force.  In a well-formed repository, let branch
    [b] be checked out in a worktree [t] other than the current one, with
    whatever uncommitted changes, and let the temp branch be a name that
    [git branch] creates ([Sim.creatable]: a plain name in the sense of
    [Sim.plainName] that no branch has, that no branch
    [refs/heads/<name>] hides and that no branch name [<name>/...] lies
    under).  With [Force] set and [DryRun] off [Detach] succeeds and
    leaves [t] on the temp branch, at the commit it was at, with its
    uncommitted changes as they were; the [Revert] that follows with the
    same options succeeds and gives back exactly the repository there
    was, uncommitted changes included. *)
Theorem Force_round_trip_keeps_uncommitted_changes :
  forall (r : Sim.Repo) (d : Detacher) (b : string) (opts : Options) (t : Sim.Tree),
    Sim.wfRepo r = true ->
    Sim.hasBranch r b = true ->
    In t (Sim.trees r) -> Sim.tbranch t = Some b -> Sim.tpath t <> Sim.cwd r ->
    Sim.creatable r (TempBranchName d b) = true ->
    Force opts = true -> DryRun opts = false ->
    let tmp := TempBranchName d b in
    let r1 := final Sim.git (Detach d b opts) r in
    let r2 := final Sim.git (Revert d b opts) r1 in
    result Sim.git (Detach d b opts) r
    = inl {| Success := true;
             Message := "Branch '" ++ b ++ "' detached successfully";
             WorktreePath := Sim.tpath t; TempBranch := tmp |}
    /\ Sim.treeAt (Sim.trees r1) (Sim.tpath t)
       = Some {| Sim.tpath := Sim.tpath t; Sim.thead := Sim.thead t;
                 Sim.tbranch := Some tmp; Sim.tdirty := Sim.tdirty t |}
    /\ result Sim.git (Revert d b opts) r1
       = inl {| Success := true;
                Message := "Branch '" ++ b ++ "' restored successfully";
                WorktreePath := Sim.tpath t; TempBranch := tmp |}
    /\ r2 = r.
Proof.
  intros r d b opts t Hwf Hb Hin Hon Hcwd Hcre Hforce Hdry tmp r1 r2.
  destruct (creatable_parts r _ Hcre) as [Habs _].
  destruct (absent_parts r _ Habs) as (Hnew & _ & _ & Htmp).
  assert (Hgo : Sim.tdirty t = [] \/ Force opts = true) by (right; exact Hforce).
  assert (H1 : result Sim.git (Detach d b opts) r
               = inl {| Success := true;
                        Message := "Branch '" ++ b ++ "' detached successfully";
                        WorktreePath := Sim.tpath t; TempBranch := tmp |}
               /\ final Sim.git (Detach d b opts) r = Sim.afterDetach r t tmp)
    by (apply Detach_on_model; assumption).
  assert (H2 : result Sim.git (Revert d b opts) (Sim.afterDetach r t tmp)
               = inl {| Success := true;
                        Message := "Branch '" ++ b ++ "' restored successfully";
                        WorktreePath := Sim.tpath t; TempBranch := tmp |}
               /\ final Sim.git (Revert d b opts) (Sim.afterDetach r t tmp) = r)
    by (apply Revert_on_model; assumption).
  destruct H1 as [Hres1 Hfin1]. destruct H2 as [Hres2 Hfin2].
  subst r2 r1. rewrite Hfin1.
  split; [exact Hres1 | ]. split; [ | split; [exact Hres2 | exact Hfin2]].
  destruct (in_split t (Sim.trees r) Hin) as (before & after & Hts).
  subst tmp. rewrite (afterDetach_trees r d b t Hwf before after Hts).
  destruct (wfRepo_parts r Hwf) as (_ & _ & Hpaths & _).
  rewrite Hts in Hpaths.
  apply (treeAt_split before after t Hpaths). reflexivity.
Qed.

Lemma Force_round_trip_keeps_uncommitted_changes_witness :
  final Sim.git (Detach NewDetacher "feature-x" Examples.forced) Examples.elevenDirty
  = Examples.elevenDirtyDetached
  /\ final Sim.git (Revert NewDetacher "feature-x" Examples.forced)
           (final Sim.git (Detach NewDetacher "feature-x" Examples.forced)
                  Examples.elevenDirty)
     = Examples.elevenDirty.
Proof.
  split; [reflexivity | ].
  refine (proj2 (proj2 (proj2
            (Force_round_trip_keeps_uncommitted_changes
               Examples.elevenDirty NewDetacher "feature-x" Examples.forced
               {| Sim.tpath := "/wt/x"; Sim.thead := "c1";
                  Sim.tbranch := Some "feature-x";
                  Sim.tdirty := ["f01.txt"; "f02.txt"; "f03.txt"; "f04.txt"; "f05.txt";
                                 "f06.txt"; "f07.txt"; "f08.txt"; "f09.txt"; "f10.txt";
                                 "f11.txt"] |}
               eq_refl eq_refl _ eq_refl _ eq_refl eq_refl eq_refl)))).
  - right. left. reflexivity.
  - cbn. discriminate.
Defined.

(** X11.  [Detach] is not repeatable as an error.  In a well-formed
    repository, let [b] be checked out in a worktree other than the current
    one, clean or with [Force] set, [DryRun] off, and let the temp branch
    be a name that [git branch] creates ([Sim.creatable]).  After the
    [Detach] of [b], which creates the temp branch, a second [Detach] of
    [b] (with any options) does not fail on the temp branch it finds; it
    looks for a worktree on [b] first, finds none, reports success with
    the "not checked out" message and leaves the repository as the first
    [Detach] left it. *)
Theorem Detach_twice_reports_not_checked_out :
  forall (r : Sim.Repo) (d : Detacher) (b : string) (opts opts' : Options) (t : Sim.Tree),
    Sim.wfRepo r = true ->
    Sim.hasBranch r b = true ->
    In t (Sim.trees r) -> Sim.tbranch t = Some b -> Sim.tpath t <> Sim.cwd r ->
    Sim.creatable r (TempBranchName d b) = true ->
    Sim.tdirty t = [] \/ Force opts = true ->
    DryRun opts = false ->
    let r1 := final Sim.git (Detach d b opts) r in
    Sim.hasBranch r1 (TempBranchName d b) = true
    /\ result Sim.git (Detach d b opts') r1
       = inl {| Success := true; Message := msgNotCheckedOut b;
                WorktreePath := ""; TempBranch := "" |}
    /\ final Sim.git (Detach d b opts') r1 = r1.
Proof.
  intros r d b opts opts' t Hwf Hb Hin Hon Hcwd Hcre Hgo Hdry r1.
  destruct (creatable_parts r _ Hcre) as [Habs _].
  destruct (absent_parts r _ Habs) as (Hnew & _ & _ & Htmp).
  assert (Hfin1 : final Sim.git (Detach d b opts) r
                  = Sim.afterDetach r t (TempBranchName d b))
    by (apply Detach_on_model; assumption).
  subst r1. rewrite Hfin1. split.
  - rewrite commitOf_hasBranch. unfold Sim.afterDetach. cbn [Sim.branches].
    now rewrite (commitOf_app_new _ _ _ (hasBranch_none r _ Hnew)).
  - apply Detach_again_on_model; assumption.
Qed.

Lemma Detach_twice_reports_not_checked_out_witness :
  result Sim.git (Detach NewDetacher "feature-x" Examples.plain)
         (final Sim.git (Detach NewDetacher "feature-x" Examples.plain) Examples.twoTrees)
  = inl {| Success := true; Message := msgNotCheckedOut "feature-x";
           WorktreePath := ""; TempBranch := "" |}.
Proof.
  refine (proj1 (proj2
            (Detach_twice_reports_not_checked_out
               Examples.twoTrees NewDetacher "feature-x" Examples.plain Examples.plain
               {| Sim.tpath := "/wt/x"; Sim.thead := "c1";
                  Sim.tbranch := Some "feature-x"; Sim.tdirty := [] |}
               eq_refl eq_refl _ eq_refl _ eq_refl (or_introl eq_refl) eq_refl))).
  - right. left. reflexivity.
  - cbn. discriminate.
Defined.

(** X12.  Uncommitted changes block both directions and cost nothing.  In
    a well-formed repository where [b] is checked out in another worktree
    [t] that has uncommitted changes, [Detach] without force fails with the
    uncommitted-changes error for the path of [t] and the repository is
    unchanged; and on the repository a forced detach of [t] leaves,
    [Revert] without force fails with the same error and leaves that
    repository unchanged: the worktree stays on the temp branch. *)
Theorem uncommitted_changes_block_without_side_effect :
  forall (r : Sim.Repo) (d : Detacher) (b : string) (opts : Options) (t : Sim.Tree),
    Sim.wfRepo r = true ->
    Sim.hasBranch r b = true ->
    In t (Sim.trees r) -> Sim.tbranch t = Some b -> Sim.tpath t <> Sim.cwd r ->
    Sim.tdirty t <> [] -> Force opts = false ->
    (result Sim.git (Detach d b opts) r = inr (errUncommitted (Sim.tpath t))
     /\ final Sim.git (Detach d b opts) r = r)
    /\ (Sim.hasBranch r (TempBranchName d b) = false ->
        Sim.wfName (TempBranchName d b) = true ->
        let rd := Sim.afterDetach r t (TempBranchName d b) in
        result Sim.git (Revert d b opts) rd = inr (errUncommitted (Sim.tpath t))
        /\ final Sim.git (Revert d b opts) rd = rd).
Proof.
  intros r d b opts t Hwf Hb Hin Hon Hcwd Hdirty Hforce. split.
  - apply Detach_dirty_on_model; assumption.
  - intros Hnew Htmp.
    apply Revert_dirty_on_model; assumption.
Qed.

Lemma uncommitted_changes_block_without_side_effect_witness :
  result Sim.git (Detach NewDetacher "feature-x" Examples.plain) Examples.elevenDirty
  = inr (errUncommitted "/wt/x")
  /\ result Sim.git (Revert NewDetacher "feature-x" Examples.plain)
            Examples.elevenDirtyDetached
     = inr (errUncommitted "/wt/x").
Proof.
  pose proof (uncommitted_changes_block_without_side_effect
                Examples.elevenDirty NewDetacher "feature-x" Examples.plain
                {| Sim.tpath := "/wt/x"; Sim.thead := "c1";
                   Sim.tbranch := Some "feature-x";
                   Sim.tdirty := ["f01.txt"; "f02.txt"; "f03.txt"; "f04.txt"; "f05.txt";
                                  "f06.txt"; "f07.txt"; "f08.txt"; "f09.txt"; "f10.txt";
                                  "f11.txt"] |}
                eq_refl eq_refl (or_intror (or_introl eq_refl)) eq_refl
                ltac:(cbn; discriminate) ltac:(cbn; discriminate) eq_refl) as [H1 H2].
  split; [exact (proj1 H1) | exact (proj1 (H2 eq_refl eq_refl))].
Defined.

(** X13.  On the repository model, with no other worktree on the branch
    [Detach] changes nothing.  In a well-formed repository, where in
    particular no worktree path begins or ends with white space (so that
    [TrimSpace] returns the current path as git printed it), let [b] exist
    and let every worktree that has [b] checked out be the current one
    (in particular when none has).  Then [Detach] answers success with
    the "not checked out" message, for any options, and the repository is
    unchanged.  Nothing is stated about paths with white space at an
    end, which the model leaves out. *)
Theorem Detach_without_other_holder_changes_nothing :
  forall (r : Sim.Repo) (d : Detacher) (b : string) (opts : Options),
    Sim.wfRepo r = true -> Sim.hasBranch r b = true ->
    (forall x, In x (Sim.trees r) -> Sim.tbranch x = Some b -> Sim.tpath x = Sim.cwd r) ->
    result Sim.git (Detach d b opts) r
    = inl {| Success := true; Message := msgNotCheckedOut b;
             WorktreePath := ""; TempBranch := "" |}
    /\ final Sim.git (Detach d b opts) r = r.
Proof.
  intros r d b opts Hwf Hb Hall.
  destruct (wfRepo_parts r Hwf) as (Htrees & Hnames & _).
  destruct (wfRepo_cwd r Hwf) as [Hcwdname Htop].
  destruct (hasBranch_commit r b Hb) as [c Hc].
  assert (Hbne : b <> "").
  { pose proof (Hnames (b, c) (commitOf_In _ _ _ Hc)) as Hn.
    now destruct (wfName_parts b Hn) as (_ & Hl & _). }
  apply (Detach_nothing_to_do_run Sim.git d b opts r r r r
           (c ++ Sim.nl) (Sim.cwd r ++ Sim.nl) (Sim.renderTrees (Sim.trees r))).
  - rewrite git_branchExists, Hc. reflexivity.
  - exact Htop.
  - apply git_list.
  - rewrite parse_listing by assumption. rewrite TrimSpace_name by assumption.
    now apply Find_no_holder.
Qed.

Lemma Detach_without_other_holder_changes_nothing_witness :
  result Sim.git (Detach NewDetacher "main" Examples.forced) Examples.twoTrees
  = inl {| Success := true; Message := msgNotCheckedOut "main";
           WorktreePath := ""; TempBranch := "" |}
  /\ final Sim.git (Detach NewDetacher "main" Examples.forced) Examples.twoTrees
     = Examples.twoTrees.
Proof.
  apply (Detach_without_other_holder_changes_nothing
           Examples.twoTrees NewDetacher "main" Examples.forced eq_refl eq_refl).
  intros x [<- | [<- | []]]; [reflexivity | discriminate].
Defined.

(* ================================================================== *)
(** ** The parser on arbitrary input *)
(* ================================================================== *)

Lemma HasPrefix_split (p s : string) :
  Go.HasPrefix s p = true -> s = p ++ Go.TrimPrefix s p.
Proof.
  unfold Go.TrimPrefix. intros H. rewrite H.
  revert s H. induction p as [|c p IH]; intros s H; [reflexivity | ].
  destruct s as [|x s]; [discriminate H | ].
  cbn [Go.HasPrefix] in H. apply andb_true_iff in H as [Hc Hp].
  apply Ascii.eqb_eq in Hc. subst x.
  cbn [String.length Go.skip append]. f_equal. now apply IH.
Qed.

Lemma namedBy_more (seen more : list string) (wt : Worktree) :
  namedBy seen wt -> namedBy (seen ++ more) wt.
Proof.
  intros [Hp Hb]. split; [apply in_or_app; now left | ].
  destruct Hb as [Hb | Hb]; [now left | right; apply in_or_app; now left].
Qed.

(** Whatever the lines, the records delivered and the open record are
    named by lines already read. *)
Lemma fold_parseLine_namedBy (lines seen : list string) (st : ParseState) :
  (forall wt, In wt (fst st) \/ snd st = Some wt -> namedBy seen wt) ->
  forall wt, In wt (parseFinish (fold_left parseLine lines st)) ->
             namedBy (seen ++ lines)%list wt.
Proof.
  revert seen st. induction lines as [|l lines IH]; intros seen st Hinv wt Hin.
  - rewrite app_nil_r. apply Hinv. destruct st as [ws [cur|]]; cbn in Hin |- *.
    + apply in_app_or in Hin as [Hin | [<- | []]]; [now left | now right].
    + now left.
  - cbn [fold_left] in Hin.
    replace (seen ++ l :: lines)%list with ((seen ++ [l]) ++ lines)%list
      by (rewrite <- app_assoc; reflexivity).
    apply (IH (seen ++ [l])%list (parseLine st l)); [ | exact Hin].
    clear IH Hin wt. intros wt Hwt.
    destruct st as [ws cur]. unfold parseLine in Hwt.
    destruct (Go.HasPrefix l "worktree ") eqn:Ew.
    { cbn [fst snd] in Hwt. destruct Hwt as [Hwt | Hwt].
      - apply namedBy_more, Hinv. now left.
      - injection Hwt as <-. split; cbn [Path Branch]; [ | now left].
        apply in_or_app. right. left. now apply HasPrefix_split. }
    destruct (Go.HasPrefix l "branch refs/heads/") eqn:Eb.
    { destruct cur as [cur|]; cbn [fst snd] in Hwt.
      - destruct Hwt as [Hwt | Hwt]; [apply namedBy_more, Hinv; now left | ].
        injection Hwt as <-. split; cbn [Path Branch].
        + apply in_or_app. left. apply (Hinv cur). now right.
        + right. apply in_or_app. right. left. now apply HasPrefix_split.
      - apply namedBy_more, Hinv. exact Hwt. }
    destruct (l =? "")%string.
    { destruct cur as [cur|]; cbn [fst snd] in Hwt.
      - destruct Hwt as [Hwt | Hwt]; [ | discriminate Hwt].
        apply namedBy_more, Hinv. cbn [fst snd].
        apply in_app_or in Hwt as [Hwt | [<- | []]]; [now left | now right].
      - apply namedBy_more, Hinv. exact Hwt. }
    apply namedBy_more, Hinv. exact Hwt.
Qed.

(** X14.  The parser invents nothing.  For every input whatsoever, each
    record that [ParseWorktreeList] returns has the path of some line
    [worktree <path>] of the input, and its branch is either empty or the
    branch of some line [branch refs/heads/<branch>] of the input. *)
Theorem ParseWorktreeList_records_come_from_lines :
  forall (output : string) (wt : Worktree),
    In wt (ParseWorktreeList output) ->
    In ("worktree " ++ Path wt) (Go.ScanLines output)
    /\ (Branch wt = ""
        \/ In ("branch refs/heads/" ++ Branch wt) (Go.ScanLines output)).
Proof.
  intros output wt Hin.
  apply (fold_parseLine_namedBy (Go.ScanLines output) [] ([], None)); [ | exact Hin].
  intros x [[] | Hx]. discriminate Hx.
Qed.

Lemma ParseWorktreeList_records_come_from_lines_witness :
  In "worktree /wt/x"
     (Go.ScanLines ("worktree /wt/x" ++ Porcelain.nl ++ "HEAD c1" ++ Porcelain.nl
                    ++ "branch refs/heads/feature-x" ++ Porcelain.nl))
  /\ In "branch refs/heads/feature-x"
        (Go.ScanLines ("worktree /wt/x" ++ Porcelain.nl ++ "HEAD c1" ++ Porcelain.nl
                       ++ "branch refs/heads/feature-x" ++ Porcelain.nl)).
Proof.
  destruct (ParseWorktreeList_records_come_from_lines
              ("worktree /wt/x" ++ Porcelain.nl ++ "HEAD c1" ++ Porcelain.nl
               ++ "branch refs/heads/feature-x" ++ Porcelain.nl)
              {| Path := "/wt/x"; Branch := "feature-x" |}
              (or_introl eq_refl)) as [Hp [Hb | Hb]].
  - split; [exact Hp | discriminate Hb].
  - split; [exact Hp | exact Hb].
Defined.

(** The records delivered, and the open one, are no more than the
    [worktree] lines read. *)
Lemma fold_parseLine_count (lines : list string) (st : ParseState) :
  List.length (parseFinish (fold_left parseLine lines st))
  <= List.length (parseFinish st)
     + List.length (filter (fun l => Go.HasPrefix l "worktree ") lines).
Proof.
  revert st. induction lines as [|l lines IH]; intros st; [cbn; lia | ].
  cbn [fold_left filter]. specialize (IH (parseLine st l)).
  assert (Hstep : List.length (parseFinish (parseLine st l))
                  <= List.length (parseFinish st)
                     + (if Go.HasPrefix l "worktree " then 1 else 0)).
  { destruct st as [ws cur]. unfold parseLine.
    destruct (Go.HasPrefix l "worktree ").
    - destruct cur; cbn [parseFinish fst snd]; rewrite ?length_app; cbn [List.length]; lia.
    - destruct (Go.HasPrefix l "branch refs/heads/").
      + destruct cur; cbn [parseFinish fst snd]; rewrite ?length_app; cbn [List.length]; lia.
      + destruct (l =? "")%string; [ | lia].
        destruct cur; cbn [parseFinish fst snd]; rewrite ?length_app; cbn [List.length]; lia. }
  destruct (Go.HasPrefix l "worktree "); cbn [List.length] in *; lia.
Qed.

(** X15.  For every input whatsoever, [ParseWorktreeList] returns at most
    as many records as the input has [worktree] lines; an input without
    such a line gives no record at all. *)
Theorem ParseWorktreeList_at_most_one_record_per_worktree_line :
  forall output : string,
    List.length (ParseWorktreeList output)
    <= List.length (filter (fun l => Go.HasPrefix l "worktree ") (Go.ScanLines output))
    /\ (filter (fun l => Go.HasPrefix l "worktree ") (Go.ScanLines output) = []
        -> ParseWorktreeList output = []).
Proof.
  intros output.
  pose proof (fold_parseLine_count (Go.ScanLines output) ([], None)) as H.
  cbn [parseFinish snd fst List.length Nat.add] in H.
  split; [exact H | ].
  intros E. rewrite E in H. cbn [List.length] in H.
  unfold ParseWorktreeList, parseLines.
  destruct (parseFinish (fold_left parseLine (Go.ScanLines output) ([], None)));
    [reflexivity | cbn [List.length] in H; lia].
Qed.

(** *** Carriage returns *)

Lemma dropCR_CR (l : string) : Go.dropCR (l ++ String Go.CR "") = l.
Proof.
  induction l as [|c l IH]; [reflexivity | ].
  cbn [append Go.dropCR]. destruct (l ++ String Go.CR "") eqn:E.
  - destruct l; discriminate E.
  - now rewrite IH.
Qed.

Lemma noLF_CR (l : string) :
  Porcelain.noLF l = true -> Porcelain.noLF (l ++ String Go.CR "") = true.
Proof. intros H. rewrite noLF_append, H. reflexivity. Qed.

Lemma ScanLines_CRLF (ls : list string) :
  forallb (fun l => Porcelain.noLF l
                    && (N.of_nat (String.length l) + 1 <? Go.MaxScanTokenSize)%N) ls = true ->
  Go.ScanLines (Porcelain.joinLines (map (fun l => l ++ String Go.CR "") ls)) = ls.
Proof.
  unfold Go.ScanLines. induction ls as [|l rest IH]; intros Hwf; [reflexivity | ].
  cbn [forallb] in Hwf. apply andb_true_iff in Hwf as [Hl Hrest].
  apply andb_true_iff in Hl as [Hlf Hlen]. apply N.ltb_lt in Hlen.
  assert (Hlen' : (0 + N.of_nat (String.length (l ++ String Go.CR "")) < Go.MaxScanTokenSize)%N).
  { rewrite length_append. cbn [String.length]. lia. }
  cbn [map Porcelain.joinLines]. destruct rest as [|l' rest'].
  - cbn [map]. rewrite scan_last; [ | now apply noLF_CR | exact Hlen'].
    destruct (N.eqb_spec (0 + N.of_nat (String.length (l ++ String Go.CR ""))) 0) as [E | _].
    + rewrite length_append in E. cbn [String.length] in E. lia.
    + cbn [append]. now rewrite dropCR_CR.
  - cbn [map]. unfold Porcelain.nl. cbn [append].
    rewrite scan_line; [ | now apply noLF_CR | exact Hlen'].
    cbn [append]. rewrite dropCR_CR. f_equal. now apply IH.
Qed.

(** X16.  Carriage returns before the line feeds do not matter: the text
    of well-formed paragraph blocks in which every line, the last
    included, ends with a carriage return parses to the records of the
    blocks, as the text without carriage returns does. *)
Theorem ParseWorktreeList_ignores_carriage_returns :
  forall bs : list Porcelain.Block,
    forallb Porcelain.wfBlock bs = true ->
    forallb (fun l => (N.of_nat (String.length l) + 1 <? Go.MaxScanTokenSize)%N)
            (Porcelain.listingLines bs) = true ->
    ParseWorktreeList
      (Porcelain.joinLines (map (fun l => l ++ String Go.CR "") (Porcelain.listingLines bs)))
    = map Porcelain.blockRecord bs
    /\ ParseWorktreeList (Porcelain.renderBlocks bs) = map Porcelain.blockRecord bs.
Proof.
  intros bs Hwf Hshort.
  assert (Hparse : parseLines (Porcelain.listingLines bs) = map Porcelain.blockRecord bs)
    by exact (parse_listingLines bs [] Hwf).
  split; [ | now apply ParseWorktreeList_renderBlocks].
  unfold ParseWorktreeList. rewrite ScanLines_CRLF; [exact Hparse | ].
  destruct (listingLines_wf bs Hwf) as [Hlines _].
  rewrite forallb_forall in Hshort, Hlines |- *. intros l Hl.
  rewrite (Hshort l Hl), andb_true_r.
  now destruct (wfLine_parts l (Hlines l Hl)) as (H & _).
Qed.

Lemma ParseWorktreeList_ignores_carriage_returns_witness :
  ParseWorktreeList
    ("worktree /repo" ++ String Go.CR Porcelain.nl
     ++ "branch refs/heads/main" ++ String Go.CR "")
  = [{| Path := "/repo"; Branch := "main" |}].
Proof.
  exact (proj1 (ParseWorktreeList_ignores_carriage_returns
                  [{| Porcelain.bpath := "/repo";
                      Porcelain.battrs := ["branch refs/heads/main"] |}]
                  eq_refl eq_refl)).
Defined.

(** *** Lines too long for the scanner *)

Lemma scan_too_long (l rest tok : string) (n : N) :
  Porcelain.noLF l = true ->
  (n < Go.MaxScanTokenSize)%N ->
  (Go.MaxScanTokenSize <= n + N.of_nat (String.length l))%N ->
  Go.scan (l ++ rest) tok n = [].
Proof.
  revert tok n. induction l as [|c l IH]; intros tok n Hlf Hn Hlen.
  - cbn [String.length] in Hlen. lia.
  - cbn [append Go.scan]. cbn [Porcelain.noLF] in Hlf.
    apply andb_true_iff in Hlf as [Hc Hl]. apply negb_true_iff in Hc. rewrite Hc.
    destruct (N.leb_spec Go.MaxScanTokenSize (n + 1)) as [_ | Hsmall]; [reflexivity | ].
    apply IH; [assumption | exact Hsmall | cbn [String.length] in Hlen; lia].
Qed.

Lemma scan_cut (s rest tok : string) (n : N) :
  Go.scan rest "" 0%N = [] ->
  Go.scan (s ++ Porcelain.nl ++ rest) tok n = Go.scan (s ++ Porcelain.nl) tok n.
Proof.
  intros Hrest. revert tok n. induction s as [|c s IH]; intros tok n.
  - cbn [append Porcelain.nl Go.scan]. rewrite Ascii.eqb_refl, Hrest. reflexivity.
  - cbn [append Go.scan]. destruct (Ascii.eqb c Go.LF); [now rewrite IH | ].
    destruct (Go.MaxScanTokenSize <=? n + 1)%N; [reflexivity | apply IH].
Qed.

(** X17.  A line of 65536 bytes or more ends the parse without an error:
    whatever precedes it (up to a line feed) is parsed as if the input
    ended there, and everything from that line on is dropped, the records
    of further worktrees included.  At the start of the input the result
    is empty. *)
Theorem ParseWorktreeList_stops_at_overlong_line :
  forall (l rest : string),
    Porcelain.noLF l = true ->
    (Go.MaxScanTokenSize <=? N.of_nat (String.length l))%N = true ->
    ParseWorktreeList (l ++ rest) = []
    /\ forall s : string,
         ParseWorktreeList (s ++ Porcelain.nl ++ l ++ rest) = ParseWorktreeList s.
Proof.
  intros l rest Hlf Hlen. apply N.leb_le in Hlen.
  assert (Hcut : Go.scan (l ++ rest) "" 0%N = []).
  { apply scan_too_long; [assumption | reflexivity | lia]. }
  split.
  - unfold ParseWorktreeList, Go.ScanLines. now rewrite Hcut.
  - intros s. rewrite <- (ParseWorktreeList_append_nl s).
    unfold ParseWorktreeList, Go.ScanLines. now rewrite (scan_cut s _ "" 0%N Hcut).
Qed.

Lemma ParseWorktreeList_stops_at_overlong_line_witness :
  ParseWorktreeList
    (("worktree /a" ++ Porcelain.nl) ++ Porcelain.nl
     ++ Examples.longLine ++ (Porcelain.nl ++ Porcelain.nl ++ "worktree /b"))
  = [{| Path := "/a"; Branch := "" |}].
Proof.
  refine (eq_trans
            (proj2 (ParseWorktreeList_stops_at_overlong_line
                      Examples.longLine (Porcelain.nl ++ Porcelain.nl ++ "worktree /b")
                      _ _) ("worktree /a" ++ Porcelain.nl))
            eq_refl); vm_compute; reflexivity.
Defined.

(* ================================================================== *)
(** ** Temp branch names *)
(* ================================================================== *)

Lemma append_inv_tail (a b c : string) : a ++ c = b ++ c -> a = b.
Proof.
  intros H. apply (f_equal Go.rev) in H. rewrite !rev_append in H.
  apply append_inv_head in H. apply (f_equal Go.rev) in H.
  now rewrite !rev_involutive in H.
Qed.

(** X18.  Temp branch names do not collide: with one suffix, two
    branches have the same temp branch only if they are the same branch;
    and the temp branch name begins with the branch name. *)
Theorem TempBranchName_injective :
  forall (d : Detacher) (b1 b2 : string),
    (TempBranchName d b1 = TempBranchName d b2 -> b1 = b2)
    /\ Go.HasPrefix (TempBranchName d b1) b1 = true.
Proof.
  intros d b1 b2. unfold TempBranchName. split.
  - apply append_inv_tail.
  - apply HasPrefix_append.
Qed.

(* ================================================================== *)
(** ** The command line *)
(* ================================================================== *)

Section CliRuns.
Context {W : Type} (os : W -> list string -> Reply * W).

(** A method of the detacher called from the command line runs as it
    does on its own; its commands come first. *)
Lemma runCli_lift {A B : Type} (m : GitM A) (k : A -> CliM B) (w : W) (stdin : list bool) :
  runCli os (cbind (lift m) k) w stdin
  = (fst (fst (runCli os (k (result os m w)) (final os m w) stdin)),
     snd (fst (runCli os (k (result os m w)) (final os m w) stdin)),
     (map Ran (trace os m w) ++ snd (runCli os (k (result os m w)) (final os m w) stdin))%list).
Proof.
  unfold result, final, trace. revert w. induction m as [a | argv g IH]; intros w.
  - cbn [lift cbind run fst snd map app].
    now destruct (runCli os (k a) w stdin) as [[b w2] acts].
  - cbn [lift cbind runCli run]. destruct (os w argv) as [r w1].
    rewrite IH. destruct (run os (g r) w1) as [[a w2] log]. cbn [fst snd map app].
    reflexivity.
Qed.

Lemma LoadSuffixFromConfig_run (d : Detacher) (w : W) :
  run os (LoadSuffixFromConfig d) w
  = (result os (LoadSuffixFromConfig d) w, snd (os w cmdConfig),
     [(cmdConfig, fst (os w cmdConfig))]).
Proof.
  unfold result, LoadSuffixFromConfig, Git.Run, cmdConfig. cbn [bind run].
  destruct (os w ["git"; "config"; "--get"; "wt-detach.suffix"]) as [[out err] w1].
  cbn [fst snd]. destruct err as [e|]; [reflexivity | ].
  destruct (negb (Go.TrimSpace out =? "")%string); reflexivity.
Qed.
End CliRuns.

Lemma commands_app (a b : list Action) : commands (a ++ b) = (commands a ++ commands b)%list.
Proof.
  induction a as [|[ev | text | ans] a IH]; cbn [app commands]; [reflexivity | | | ];
    now rewrite IH.
Qed.

Lemma commands_Ran (log : list Event) : commands (map Ran log) = log.
Proof. induction log as [|ev log IH]; cbn [map commands]; [reflexivity | now rewrite IH]. Qed.

Lemma answers_Ran (log : list Event) (acts : list Action) :
  answers (map Ran log ++ acts) = answers acts.
Proof. induction log as [|ev log IH]; cbn [map app answers]; [reflexivity | exact IH]. Qed.

Lemma printed_Ran (log : list Event) (acts : list Action) :
  printed (map Ran log ++ acts) = printed acts.
Proof. induction log as [|ev log IH]; cbn [map app printed]; [reflexivity | exact IH]. Qed.

Lemma In_answers (b : bool) (acts : list Action) : In (Asked b) acts -> In b (answers acts).
Proof.
  induction acts as [|[ev | text | ans] acts IH]; cbn [In answers]; [tauto | | | ].
  - intros [H | H]; [discriminate H | now apply IH].
  - intros [H | H]; [discriminate H | now apply IH].
  - intros [H | H]; [left; now injection H | right; now apply IH].
Qed.

Lemma readOnly_app (a b : list Event) : readOnly a -> readOnly b -> readOnly (a ++ b).
Proof. unfold readOnly. intros Ha Hb. apply Forall_app. now split. Qed.

(** Run the command line up to the call of the engine, case by case. *)
Ltac cli_step os :=
  cbn [runCli cbind lift run bind fst snd negb andb hd tl DryRun Force Yes Revert_];
  match goal with
  | |- context [os ?w ?argv] =>
      let out := fresh "out" in
      let e := fresh "e" in
      let w' := fresh "w" in
      destruct (os w argv) as [[out [e|]] w'] eqn:?
  | |- context [FindWorktreeByBranch ?l ?b ?p] =>
      let wt := fresh "wt" in
      destruct (FindWorktreeByBranch l b p) as [wt|] eqn:?
  | |- context [String.eqb (Go.TrimSpace ?x) ""] =>
      destruct (String.eqb (Go.TrimSpace x) "") eqn:?
  | |- context [if negb ?b then _ else _] => is_var b; destruct b
  | |- context [if ?b then _ else _] => is_var b; destruct b
  | |- context [hd false ?s] => is_var s; destruct s as [|[|] ?]
  end.

Ltac cli_exec os :=
  unfold runDetach, runRevert, confirm, readYesNo, BranchExists, FindWorktreeForBranch,
    GetCurrentWorktreePath, ListWorktrees, HasUncommittedChanges, Git.Run, Git.RunInDir;
  repeat cli_step os;
  cbn [runCli cbind lift run bind fst snd negb andb hd tl DryRun Force Yes Revert_].

(** With [DryRun] the engine is not called at all. *)
Lemma run_dry_run (W : Type) (os : W -> list string -> Reply * W) (w : W)
    (stdin : list bool) (c : Cli.CLI) (d : Detacher) (opts : Options) (rev : bool) :
  DryRun opts = true ->
  let m := if rev then runRevert c d opts else runDetach c d opts in
  readOnly (commands (actions os m w stdin)) /\ answers (actions os m w stdin) = [].
Proof.
  intros Hdry m. subst m. unfold actions.
  destruct opts as [dry r0 force yes]. cbn [DryRun] in Hdry. subst dry.
  destruct rev; cli_exec os.
  all: cbn [commands answers].
  all: split; [read_only | reflexivity].
Qed.

(** X19.  A dry run through the command line changes nothing and asks
    nothing: whatever the flags, the input and the answers of the external
    commands, with [DryRun] set no command that creates, checks out or
    deletes a branch is issued, and no confirmation is read. *)
Theorem CLI_dry_run_changes_nothing_and_asks_nothing :
  forall (W : Type) (os : W -> list string -> Reply * W) (w : W)
         (stdin : list bool) (c : Cli.CLI),
    Cli.DryRun c = true ->
    readOnly (commands (actions os (CLI_Run c) w stdin))
    /\ answers (actions os (CLI_Run c) w stdin) = [].
Proof.
  intros W os w stdin c Hdry. unfold CLI_Run.
  destruct (negb (Cli.Init c =? "")%string).
  { destruct (CompletionScript (Cli.Init c)); split; first [apply Forall_nil | reflexivity]. }
  destruct (Cli.Branch c =? "")%string.
  { split; [apply Forall_nil | reflexivity]. }
  unfold actions. rewrite runCli_lift. cbn [snd].
  rewrite commands_app, answers_Ran, commands_Ran.
  unfold trace. rewrite LoadSuffixFromConfig_run. cbn [snd].
  set (d := result os (LoadSuffixFromConfig NewDetacher) w).
  set (w1 := final os (LoadSuffixFromConfig NewDetacher) w).
  set (opts := {| DryRun := Cli.DryRun c; Revert_ := Cli.Revert c;
                  Force := Cli.Force c; Yes := Cli.Yes c |}).
  destruct (run_dry_run W os w1 stdin c d opts (Cli.Revert c) Hdry) as [Hro Hans].
  split; [ | exact Hans].
  apply (readOnly_app [_]); [read_only | exact Hro].
Qed.

(** The same, and the call of the engine is taken as a whole: its
    result is told apart, its commands stay as they are. *)
Ltac cli_call os :=
  cbn [runCli cbind lift run bind fst snd negb andb hd tl DryRun Force Yes Revert_];
  match goal with
  | |- context [runCli os (cbind (lift ?m) ?k) ?w ?s] =>
      rewrite runCli_lift;
      let res := fresh "res" in
      destruct (result os m w) as [res | res] eqn:?
  end;
  cbn [runCli cbind lift run bind fst snd negb andb hd tl DryRun Force Yes Revert_].

(** Without [Yes], [runDetach] issues no command that changes the
    repository before the question has been answered with yes. *)
Lemma runDetach_consent (W : Type) (os : W -> list string -> Reply * W) (w : W)
    (stdin : list bool) (c : Cli.CLI) (d : Detacher) (opts : Options) :
  Yes opts = false ->
  consentFirst (actions os (runDetach c d opts) w stdin) = true.
Proof.
  intros Hyes. unfold actions.
  destruct opts as [dry r0 force yes]. cbn [Yes] in Hyes. subst yes.
  cli_exec os.
  all: try cli_call os.
  all: reflexivity.
Qed.

(** X20.  Detaching through the command line without [Yes] changes
    nothing before consent: in every run, scanning what the program did
    in order, no command that creates, checks out or deletes a branch is
    met before a confirmation answered with yes. *)
Theorem CLI_detach_changes_nothing_before_consent :
  forall (W : Type) (os : W -> list string -> Reply * W) (w : W)
         (stdin : list bool) (c : Cli.CLI),
    Cli.Yes c = false -> Cli.Revert c = false ->
    consentFirst (actions os (CLI_Run c) w stdin) = true.
Proof.
  intros W os w stdin c Hyes Hrev. unfold CLI_Run. rewrite Hrev.
  destruct (negb (Cli.Init c =? "")%string).
  { now destruct (CompletionScript (Cli.Init c)). }
  destruct (Cli.Branch c =? "")%string; [reflexivity | ].
  unfold actions. rewrite runCli_lift. cbn [snd].
  unfold trace. rewrite LoadSuffixFromConfig_run. cbn [snd map app consentFirst fst].
  change (mutating cmdConfig) with false. cbn [negb andb].
  now apply runDetach_consent.
Qed.

(** When the answer is no, the engine is not called. *)
Lemma run_declined (W : Type) (os : W -> list string -> Reply * W) (w : W)
    (stdin : list bool) (c : Cli.CLI) (d : Detacher) (opts : Options) (rev : bool) :
  let m := if rev then runRevert c d opts else runDetach c d opts in
  In false (answers (actions os m w stdin)) ->
  readOnly (commands (actions os m w stdin))
  /\ outcome os m w stdin = None
  /\ last (printed (actions os m w stdin)) "" = msgAborted
  /\ answers (actions os m w stdin) = [false].
Proof.
  intros m. subst m. unfold actions, outcome.
  destruct opts as [dry r0 force yes].
  destruct rev; cli_exec os.
  all: try cli_call os.
  all: cbn [answers commands printed]; rewrite ?answers_Ran; cbn [answers In].
  all: intros Hin.
  all: try solve [destruct Hin as [Hin | Hin]; [discriminate Hin | destruct Hin]].
  all: try solve [destruct Hin].
  all: repeat split; try reflexivity; read_only.
Qed.

(** X21.  An answer other than yes changes nothing: in every run of the
    command line in which the confirmation was answered with no, no
    command that creates, checks out or deletes a branch has been issued,
    the last thing printed is the line "Aborted.", [Run] returns no error,
    and that question was the only one asked. *)
Theorem CLI_answer_no_changes_nothing :
  forall (W : Type) (os : W -> list string -> Reply * W) (w : W)
         (stdin : list bool) (c : Cli.CLI),
    let acts := actions os (CLI_Run c) w stdin in
    In (Asked false) acts ->
    readOnly (commands acts)
    /\ outcome os (CLI_Run c) w stdin = None
    /\ last (printed acts) "" = msgAborted
    /\ answers acts = [false].
Proof.
  intros W os w stdin c acts Hin. apply In_answers in Hin. subst acts.
  revert Hin. unfold CLI_Run.
  destruct (negb (Cli.Init c =? "")%string).
  { destruct (CompletionScript (Cli.Init c)); intros []. }
  destruct (Cli.Branch c =? "")%string; [intros [] | ].
  unfold actions, outcome. rewrite runCli_lift. cbn [fst snd].
  rewrite commands_app, answers_Ran, printed_Ran, commands_Ran.
  unfold trace. rewrite LoadSuffixFromConfig_run. cbn [snd].
  intros Hin.
  destruct (run_declined W os _ stdin c _ _ (Cli.Revert c) Hin) as (Hro & Hout & Hlast & Hans).
  repeat split; try assumption.
  apply (readOnly_app [_]); [read_only | exact Hro].
Qed.

(* ================================================================== *)
(** ** The command line on the repository model *)
(* ================================================================== *)

Lemma distinct_app (l1 l2 : list string) :
  Sim.distinct (l1 ++ l2) = true <->
  Sim.distinct l1 = true /\ Sim.distinct l2 = true
  /\ (forall x, In x l1 -> ~ In x l2).
Proof.
  induction l1 as [|a l1 IH]; cbn [app].
  - split; [intros H; repeat split; [assumption | intros x []] | tauto].
  - rewrite !distinct_cons, IH, in_app_iff. split.
    + intros (Ha & H1 & H2 & H3). repeat split; try tauto.
      intros x [<- | Hx]; [tauto | now apply H3].
    + intros ((Ha & H1) & H2 & H3). repeat split; try assumption.
      * intros [Hin | Hin]; [now apply Ha | apply (H3 a); [now left | assumption]].
      * intros x Hx. apply H3. now right.
Qed.

Lemma distinct_replace (l1 l2 : list string) (x y : string) :
  Sim.distinct (l1 ++ x :: l2) = true -> ~ In y l1 -> ~ In y l2 ->
  Sim.distinct (l1 ++ y :: l2) = true.
Proof.
  rewrite !distinct_app, !distinct_cons. intros (H1 & (Hx & H2) & H3) Hy1 Hy2.
  repeat split; try assumption.
  intros z Hz [<- | Hin]; [now apply Hy1 | apply (H3 z Hz); now right].
Qed.

Lemma hasBranch_In (r : Sim.Repo) (b : string) :
  Sim.hasBranch r b = false -> ~ In b (map fst (Sim.branches r)).
Proof.
  unfold Sim.hasBranch. intros H Hin. apply in_map_iff in Hin as (e & <- & He).
  assert (Ht : existsb (fun e0 => (fst e0 =? fst e)%string) (Sim.branches r) = true).
  { apply existsb_exists. exists e. split; [assumption | apply String.eqb_refl]. }
  rewrite Ht in H. discriminate H.
Qed.

Lemma checkedOut_In (l : list Sim.Tree) (b : string) :
  In b (Sim.checkedOut l) -> exists x, In x l /\ Sim.tbranch x = Some b.
Proof.
  induction l as [|y l IH]; cbn [Sim.checkedOut]; [intros [] | ].
  destruct (Sim.tbranch y) as [by_|] eqn:E.
  - intros [<- | Hin].
    + exists y. split; [now left | exact E].
    + destruct (IH Hin) as (x & Hx & Hb). exists x. split; [now right | exact Hb].
  - intros Hin. destruct (IH Hin) as (x & Hx & Hb). exists x. split; [now right | exact Hb].
Qed.

Lemma treeAt_defined (l : list Sim.Tree) (p : string) :
  In p (map Sim.tpath l) -> exists x, Sim.treeAt l p = Some x.
Proof.
  induction l as [|y l IH]; cbn [map Sim.treeAt]; [intros [] | ].
  destruct (String.eqb_spec (Sim.tpath y) p) as [E | E].
  - intros _. now exists y.
  - intros [H | H]; [now elim E | now apply IH].
Qed.

Lemma wfRepo_intro (r : Sim.Repo) :
  forallb Sim.wfTree (Sim.trees r) = true ->
  (forall e, In e (Sim.branches r) -> Sim.wfName (fst e) = true) ->
  Sim.distinct (map Sim.tpath (Sim.trees r)) = true ->
  Sim.distinct (map fst (Sim.branches r)) = true ->
  Sim.distinct (Sim.checkedOut (Sim.trees r)) = true ->
  (forall x b, In x (Sim.trees r) -> Sim.tbranch x = Some b ->
               Sim.commitOf (Sim.branches r) b = Some (Sim.thead x)) ->
  In (Sim.cwd r) (map Sim.tpath (Sim.trees r)) ->
  Sim.wfRepo r = true.
Proof.
  intros Ht Hn Hp Hb Hc Hh Hcwd. unfold Sim.wfRepo.
  rewrite Ht, Hp, Hb, Hc. cbn [andb].
  destruct (treeAt_defined _ _ Hcwd) as [x ->]. rewrite !andb_true_r.
  apply andb_true_iff. split.
  - apply forallb_forall. intros e He. now apply Hn.
  - apply forallb_forall. intros x0 Hx0.
    destruct (Sim.tbranch x0) as [b0|] eqn:E; [ | reflexivity].
    rewrite (Hh x0 b0 Hx0 E). apply String.eqb_refl.
Qed.

Lemma wfRepo_branches (r : Sim.Repo) :
  Sim.wfRepo r = true -> Sim.distinct (map fst (Sim.branches r)) = true.
Proof. unfold Sim.wfRepo. rewrite !andb_true_iff. tauto. Qed.

Lemma wfRepo_here (r : Sim.Repo) :
  Sim.wfRepo r = true -> In (Sim.cwd r) (map Sim.tpath (Sim.trees r)).
Proof.
  intros Hwf. destruct (wfRepo_parts r Hwf) as (_ & _ & _ & _ & _ & [x Hx]).
  destruct (treeAt_In _ _ _ Hx) as [Hin <-]. now apply in_map.
Qed.

Section AfterDetach.
Variables (r : Sim.Repo) (d : Detacher) (b : string) (t : Sim.Tree).
Hypothesis Hwf : Sim.wfRepo r = true.
Hypothesis Hin : In t (Sim.trees r).
Hypothesis Hon : Sim.tbranch t = Some b.
Hypothesis Hnew : Sim.hasBranch r (TempBranchName d b) = false.
Hypothesis Htmp : Sim.wfName (TempBranchName d b) = true.

(** A detach leaves a repository as [git] keeps it. *)
Lemma afterDetach_wf : Sim.wfRepo (Sim.afterDetach r t (TempBranchName d b)) = true.
Proof.
  destruct (wfRepo_parts r Hwf) as (Htrees & Hnames & Hpaths & Hheld & Hheads & _).
  destruct (in_split t (Sim.trees r) Hin) as (before & after & Hts).
  pose proof (afterDetach_trees r d b t Hwf before after Hts) as Hafter.
  pose proof (nobody_on_tmp r d b Hwf Hnew) as Hno.
  pose proof Hnew as Hnew'. pose proof Htmp as Htmp'.
  set (tmp := TempBranchName d b) in *.
  pose proof (hasBranch_none r tmp Hnew') as Hnone.
  assert (Hnobody : forall x, In x (Sim.trees r) -> Sim.tbranch x <> Some tmp).
  { intros x Hx E. apply onBranch_true in E.
    rewrite (Hno x Hx) in E. discriminate E. }
  set (t1 := {| Sim.tpath := Sim.tpath t; Sim.thead := Sim.thead t;
                Sim.tbranch := Some tmp; Sim.tdirty := Sim.tdirty t |}) in *.
  assert (Hbranches : Sim.branches (Sim.afterDetach r t tmp)
                      = (Sim.branches r ++ [(tmp, Sim.thead t)])%list) by reflexivity.
  apply wfRepo_intro; rewrite ?Hafter, ?Hbranches;
    change (Sim.cwd (Sim.afterDetach r t tmp)) with (Sim.cwd r).
  - rewrite Hts in Htrees. rewrite forallb_app in Htrees |- *. cbn [forallb] in Htrees |- *.
    apply andb_true_iff in Htrees as [H1 H2]. apply andb_true_iff in H2 as [H2 H3].
    rewrite H1, H3. unfold Sim.wfTree in H2 |- *. cbn [Sim.tpath Sim.thead Sim.tbranch t1].
    rewrite !andb_true_iff in H2. destruct H2 as [[-> ->] _]. now rewrite Htmp'.
  - intros e He. apply in_app_or in He as [He | [<- | []]]; [now apply Hnames | exact Htmp'].
  - rewrite Hts in Hpaths. rewrite map_app in Hpaths |- *. exact Hpaths.
  - rewrite map_app. cbn [map fst]. apply distinct_app. repeat split.
    + now apply wfRepo_branches.
    + intros x Hx [<- | []]. now apply (hasBranch_In r tmp Hnew').
  - rewrite Hts in Hheld. rewrite checkedOut_app in Hheld |- *.
    cbn [Sim.checkedOut Sim.tbranch t1] in Hheld |- *. rewrite Hon in Hheld.
    apply (distinct_replace _ _ b); [exact Hheld | | ].
    + intros Hc. destruct (checkedOut_In _ _ Hc) as (x & Hx & E).
      apply (Hnobody x); [rewrite Hts; apply in_or_app; now left | exact E].
    + intros Hc. destruct (checkedOut_In _ _ Hc) as (x & Hx & E).
      apply (Hnobody x); [rewrite Hts; apply in_or_app; right; now right | exact E].
  - intros x bx Hx E.
    assert (Hcase : x = t1 \/ In x (Sim.trees r)).
    { rewrite Hts. apply in_app_or in Hx as [Hx | [Hx | Hx]].
      - right. apply in_or_app. now left.
      - left. now symmetry.
      - right. apply in_or_app. right. now right. }
    destruct Hcase as [-> | Hold].
    + cbn [Sim.tbranch Sim.thead t1] in E |- *. injection E as <-.
      now apply commitOf_app_new.
    + apply (commitOf_app_old _ _ _ _ _ (Hheads x bx Hold E)).
  - pose proof (wfRepo_here r Hwf) as Hcwd. rewrite Hts in Hcwd.
    rewrite map_app in Hcwd |- *. exact Hcwd.
Qed.
End AfterDetach.

(** *** The methods the command line calls, on the model *)

Lemma BranchExists_on_model (r : Sim.Repo) (b : string) :
  Sim.hasBranch r b = true \/ Sim.absent r b = true ->
  result Sim.git (BranchExists b) r = Sim.hasBranch r b
  /\ final Sim.git (BranchExists b) r = r.
Proof.
  intros Hcase.
  unfold result, final, BranchExists, Git.Run. cbn [bind run].
  change ("git" :: ["rev-parse"; "--verify"; "refs/heads/" ++ b]) with (cmdBranchExists b).
  rewrite git_branchExists. rewrite commitOf_hasBranch in Hcase |- *.
  destruct (Sim.commitOf (Sim.branches r) b); [split; reflexivity | ].
  destruct Hcase as [Hcase | ->]; [discriminate Hcase | split; reflexivity].
Qed.

Lemma FindWorktreeForBranch_on_model (r : Sim.Repo) (b : string) :
  Sim.wfRepo r = true ->
  result Sim.git (FindWorktreeForBranch b) r
  = inl (FindWorktreeByBranch (map Sim.recordOf (Sim.trees r)) b (Sim.cwd r))
  /\ final Sim.git (FindWorktreeForBranch b) r = r.
Proof.
  intros Hwf. destruct (wfRepo_parts r Hwf) as (Htrees & _).
  destruct (wfRepo_cwd r Hwf) as [Hcwdname Htop].
  unfold result, final, FindWorktreeForBranch, GetCurrentWorktreePath, ListWorktrees, Git.Run.
  cbn [bind run].
  change ("git" :: ["rev-parse"; "--show-toplevel"]) with cmdToplevel. rewrite Htop.
  cbn [bind run fst snd].
  change ("git" :: ["worktree"; "list"; "--porcelain"]) with cmdList. rewrite git_list.
  cbn [bind run fst snd].
  rewrite parse_listing by assumption. rewrite TrimSpace_name by assumption.
  split; reflexivity.
Qed.

Lemma HasUncommittedChanges_on_model (r : Sim.Repo) (t : Sim.Tree) :
  Sim.treeAt (Sim.trees r) (Sim.tpath t) = Some t ->
  result Sim.git (HasUncommittedChanges (Sim.tpath t)) r
  = match Sim.tdirty t with [] => false | _ :: _ => true end
  /\ final Sim.git (HasUncommittedChanges (Sim.tpath t)) r = r.
Proof.
  intros Ht. unfold result, final, HasUncommittedChanges, Git.RunInDir. cbn [bind run].
  change ("git" :: (["-C"; Sim.tpath t] ++ ["status"; "--porcelain"])%list)
    with (cmdStatus (Sim.tpath t)).
  rewrite git_status, Ht. cbn [bind run fst snd]. split; [ | reflexivity].
  destruct (Sim.tdirty t) as [|f fs]; [reflexivity | ].
  pose proof (renderStatus_not_blank f fs) as Hne. apply String.eqb_neq in Hne.
  now rewrite Hne.
Qed.

Lemma LoadSuffixFromConfig_on_model (r : Sim.Repo) (d : Detacher) (sfx : string) :
  (Sim.cfgSuffix r = Some sfx /\ Sim.wfName sfx = true)
  \/ (Sim.cfgSuffix r = None /\ sfx = suffix d) ->
  result Sim.git (LoadSuffixFromConfig d) r = {| suffix := sfx |}
  /\ final Sim.git (LoadSuffixFromConfig d) r = r.
Proof.
  intros Hcfg. unfold result, final, LoadSuffixFromConfig, Git.Run. cbn [bind run].
  change (Sim.git r ("git" :: ["config"; "--get"; "wt-detach.suffix"]))
    with (Sim.configGet r "wt-detach.suffix").
  unfold Sim.configGet. cbn [String.eqb Ascii.eqb Bool.eqb]. cbv iota.
  destruct Hcfg as [[-> Hname] | [-> ->]].
  - unfold Sim.ok. cbn [bind run fst snd]. rewrite TrimSpace_name by assumption.
    destruct (wfName_parts sfx Hname) as (_ & Hne & _).
    apply String.eqb_neq in Hne. rewrite Hne. split; reflexivity.
  - unfold Sim.fail. cbn [bind run fst snd]. destruct d. split; reflexivity.
Qed.

Section CliProjections.
Context {W : Type} (os : W -> list string -> Reply * W).

Lemma outcome_lift {A B : Type} (m : GitM A) (k : A -> CliM B) (w : W) (stdin : list bool) :
  outcome os (cbind (lift m) k) w stdin
  = outcome os (k (result os m w)) (final os m w) stdin.
Proof. unfold outcome. now rewrite runCli_lift. Qed.

Lemma endState_lift {A B : Type} (m : GitM A) (k : A -> CliM B) (w : W) (stdin : list bool) :
  endState os (cbind (lift m) k) w stdin
  = endState os (k (result os m w)) (final os m w) stdin.
Proof. unfold endState. now rewrite runCli_lift. Qed.

Lemma answers_lift {A B : Type} (m : GitM A) (k : A -> CliM B) (w : W) (stdin : list bool) :
  answers (actions os (cbind (lift m) k) w stdin)
  = answers (actions os (k (result os m w)) (final os m w) stdin).
Proof. unfold actions. rewrite runCli_lift. cbn [snd]. apply answers_Ran. Qed.
End CliProjections.

Section CliSteps.
Context {W : Type} (os : W -> list string -> Reply * W).

(** Where a run ends: the value returned and the final state. *)
Lemma end_lift {A B : Type} (m : GitM A) (k : A -> CliM B) (w : W) (stdin : list bool) :
  fst (runCli os (cbind (lift m) k) w stdin)
  = fst (runCli os (k (result os m w)) (final os m w) stdin).
Proof.
  rewrite runCli_lift. cbn [fst].
  now destruct (runCli os (k (result os m w)) (final os m w) stdin) as [[a w'] acts].
Qed.

Lemma end_Print {A : Type} (text : string) (k : CliM A) (w : W) (stdin : list bool) :
  fst (runCli os (Print text k) w stdin) = fst (runCli os k w stdin).
Proof. cbn [runCli]. now destruct (runCli os k w stdin) as [[a w'] acts]. Qed.

Lemma end_Ask {A : Type} (k : bool -> CliM A) (w : W) (stdin : list bool) :
  fst (runCli os (Ask k) w stdin) = fst (runCli os (k (hd false stdin)) w (tl stdin)).
Proof.
  cbn [runCli]. now destruct (runCli os (k (hd false stdin)) w (tl stdin)) as [[a w'] acts].
Qed.

Lemma answers_Print {A : Type} (text : string) (k : CliM A) (w : W) (stdin : list bool) :
  answers (actions os (Print text k) w stdin) = answers (actions os k w stdin).
Proof. unfold actions. cbn [runCli]. now destruct (runCli os k w stdin) as [[a w'] acts]. Qed.
End CliSteps.

(** Feed a lemma the hypotheses it asks for. *)
Ltac feed H :=
  repeat match type of H with
         | ?P -> _ =>
             let h := fresh in
             assert (h : P) by assumption; specialize (H h); clear h
         end.

Lemma treeAt_member (r : Sim.Repo) (t : Sim.Tree) :
  Sim.wfRepo r = true -> In t (Sim.trees r) ->
  Sim.treeAt (Sim.trees r) (Sim.tpath t) = Some t.
Proof.
  intros Hwf Hin. destruct (wfRepo_parts r Hwf) as (_ & _ & Hpaths & _).
  destruct (in_split t (Sim.trees r) Hin) as (before & after & Hts).
  rewrite Hts in Hpaths |- *. exact (treeAt_split before after t Hpaths t eq_refl).
Qed.

Lemma wfRepo_branch_name (r : Sim.Repo) (b : string) :
  Sim.wfRepo r = true -> Sim.hasBranch r b = true -> b <> "".
Proof.
  intros Hwf Hb. destruct (wfRepo_parts r Hwf) as (_ & Hnames & _).
  destruct (hasBranch_commit r b Hb) as [c Hc].
  pose proof (Hnames (b, c) (commitOf_In _ _ _ Hc)) as Hn.
  now destruct (wfName_parts b Hn) as (_ & Hl & _).
Qed.

Lemma lookup_on_model (r : Sim.Repo) (b : string) (t : Sim.Tree) :
  Sim.wfRepo r = true -> In t (Sim.trees r) -> Sim.tbranch t = Some b ->
  Sim.tpath t <> Sim.cwd r ->
  FindWorktreeByBranch (map Sim.recordOf (Sim.trees r)) b (Sim.cwd r)
  = Some (Sim.recordOf t).
Proof.
  intros Hwf Hin Hon Hcwd.
  destruct (wfRepo_parts r Hwf) as (_ & Hnames & _ & Hheld & Hheads & _).
  destruct (in_split t (Sim.trees r) Hin) as (before & after & Hts).
  assert (Hbne : b <> "").
  { pose proof (Hnames (b, Sim.thead t) (commitOf_In _ _ _ (Hheads t b Hin Hon))) as Hn.
    now destruct (wfName_parts b Hn) as (_ & Hl & _). }
  rewrite Hts in Hheld |- *.
  pose proof (only_holder before after t b Hheld Hon) as Honly.
  apply Find_recordOf; try assumption.
  intros x Hx. apply Honly, in_or_app. now left.
Qed.

(** [runDetach] on the model, when nothing stands in the way and the
    user agrees. *)
Lemma runDetach_on_model (r : Sim.Repo) (c : Cli.CLI) (d : Detacher) (opts : Options)
    (t : Sim.Tree) (stdin : list bool) :
  Sim.wfRepo r = true ->
  Sim.hasBranch r (Cli.Branch c) = true ->
  In t (Sim.trees r) -> Sim.tbranch t = Some (Cli.Branch c) -> Sim.tpath t <> Sim.cwd r ->
  Sim.tdirty t = [] \/ Force opts = true ->
  Sim.creatable r (TempBranchName d (Cli.Branch c)) = true ->
  DryRun opts = false ->
  Yes opts = true \/ hd false stdin = true ->
  fst (runCli Sim.git (runDetach c d opts) r stdin)
  = (None, Sim.afterDetach r t (TempBranchName d (Cli.Branch c))).
Proof.
  intros Hwf Hb Hin Hon Hcwd Hgo Hcre Hdry Hyes.
  destruct (creatable_parts r _ Hcre) as [Habs _].
  destruct (absent_parts r _ Habs) as (Hnew & _ & _ & Htmp).
  unfold runDetach.
  rewrite end_lift.
  destruct (BranchExists_on_model r (Cli.Branch c) (or_introl Hb)) as [-> ->].
  rewrite Hb. cbn [negb].
  rewrite end_lift. destruct (FindWorktreeForBranch_on_model r (Cli.Branch c) Hwf) as [-> ->].
  rewrite (lookup_on_model r _ t Hwf Hin Hon Hcwd).
  rewrite end_Print, end_lift. cbn [Sim.recordOf Path].
  destruct (HasUncommittedChanges_on_model r t (treeAt_member r t Hwf Hin)) as [-> ->].
  assert (Hexec :
            fst (runCli Sim.git
                   (r0 <-- lift (Detach d (Cli.Branch c) opts) ;;
                    match r0 with
                    | inr e => Done (Some e)
                    | inl result =>
                        Print (checkMark ++ " Created temp branch: " ++ TempBranch result
                               ++ Porcelain.nl)
                        (Print (checkMark ++ " Switched worktree branch" ++ Porcelain.nl)
                        (Print (checkMark ++ " Branch detached: " ++ Cli.Branch c
                                ++ Porcelain.nl)
                        (Done None)))
                    end) r (if Yes opts then stdin else tl stdin))
            = (None, Sim.afterDetach r t (TempBranchName d (Cli.Branch c)))).
  { rewrite end_lift.
    pose proof (Detach_on_model r d (Cli.Branch c) opts t) as HD. feed HD.
    destruct HD as [-> ->].
    rewrite !end_Print. reflexivity. }
  rewrite Hdry.
  assert (Hrest :
            fst (runCli Sim.git
                   (if negb (Yes opts) then
                      ok <-- confirm (Cli.Branch c) (Sim.tpath t)
                                     (TempBranchName d (Cli.Branch c)) ;;
                      if negb ok then Print msgAborted (Done None)
                      else
                        r0 <-- lift (Detach d (Cli.Branch c) opts) ;;
                        match r0 with
                        | inr e => Done (Some e)
                        | inl result =>
                            Print (checkMark ++ " Created temp branch: "
                                   ++ TempBranch result ++ Porcelain.nl)
                            (Print (checkMark ++ " Switched worktree branch"
                                    ++ Porcelain.nl)
                            (Print (checkMark ++ " Branch detached: " ++ Cli.Branch c
                                    ++ Porcelain.nl)
                            (Done None)))
                        end
                    else
                      r0 <-- lift (Detach d (Cli.Branch c) opts) ;;
                      match r0 with
                      | inr e => Done (Some e)
                      | inl result =>
                          Print (checkMark ++ " Created temp branch: "
                                 ++ TempBranch result ++ Porcelain.nl)
                          (Print (checkMark ++ " Switched worktree branch"
                                  ++ Porcelain.nl)
                          (Print (checkMark ++ " Branch detached: " ++ Cli.Branch c
                                  ++ Porcelain.nl)
                          (Done None)))
                      end) r stdin)
            = (None, Sim.afterDetach r t (TempBranchName d (Cli.Branch c)))).
  { destruct (Yes opts) eqn:Ey; cbn [negb].
    - exact Hexec.
    - destruct Hyes as [Hy | Hy]; [discriminate Hy | ].
      unfold confirm, readYesNo. cbn [cbind].
      rewrite !end_Print, end_Ask, Hy. cbn [negb]. exact Hexec. }
  destruct (Sim.tdirty t) as [|f fs].
  - exact Hrest.
  - destruct Hgo as [Hgo | Hgo]; [discriminate Hgo | ].
    rewrite Hgo. cbn [negb]. rewrite end_Print. exact Hrest.
Qed.

Lemma afterDetach_member (r : Sim.Repo) (d : Detacher) (b : string) (t : Sim.Tree) :
  Sim.wfRepo r = true -> In t (Sim.trees r) ->
  In {| Sim.tpath := Sim.tpath t; Sim.thead := Sim.thead t;
        Sim.tbranch := Some (TempBranchName d b); Sim.tdirty := Sim.tdirty t |}
     (Sim.trees (Sim.afterDetach r t (TempBranchName d b))).
Proof.
  intros Hwf Hin. destruct (in_split t (Sim.trees r) Hin) as (before & after & Hts).
  rewrite (afterDetach_trees r d b t Hwf before after Hts).
  apply in_or_app. right. now left.
Qed.

(** [runRevert] on the repository a detach left, when nothing stands in
    the way and the user agrees. *)
Lemma runRevert_on_model (r : Sim.Repo) (c : Cli.CLI) (d : Detacher) (opts : Options)
    (t : Sim.Tree) (stdin : list bool) :
  Sim.wfRepo r = true ->
  Sim.hasBranch r (Cli.Branch c) = true ->
  In t (Sim.trees r) -> Sim.tbranch t = Some (Cli.Branch c) -> Sim.tpath t <> Sim.cwd r ->
  Sim.tdirty t = [] \/ Force opts = true ->
  Sim.hasBranch r (TempBranchName d (Cli.Branch c)) = false ->
  Sim.wfName (TempBranchName d (Cli.Branch c)) = true ->
  DryRun opts = false ->
  Yes opts = true \/ hd false stdin = true ->
  fst (runCli Sim.git (runRevert c d opts)
              (Sim.afterDetach r t (TempBranchName d (Cli.Branch c))) stdin)
  = (None, r).
Proof.
  intros Hwf Hb Hin Hon Hcwd Hgo Hnew Htmp Hdry Hyes.
  pose proof (afterDetach_wf r d (Cli.Branch c) t Hwf Hin Hon Hnew Htmp) as Hwf1.
  pose proof (afterDetach_member r d (Cli.Branch c) t Hwf Hin) as Hin1.
  set (tmp := TempBranchName d (Cli.Branch c)) in *.
  set (rd := Sim.afterDetach r t tmp) in *.
  set (t1 := {| Sim.tpath := Sim.tpath t; Sim.thead := Sim.thead t;
                Sim.tbranch := Some tmp; Sim.tdirty := Sim.tdirty t |}) in *.
  assert (Htmp1 : Sim.hasBranch rd tmp = true).
  { rewrite commitOf_hasBranch. unfold rd, Sim.afterDetach. cbn [Sim.branches].
    now rewrite (commitOf_app_new _ _ _ (hasBranch_none r tmp Hnew)). }
  unfold runRevert. fold tmp.
  rewrite end_lift. destruct (BranchExists_on_model rd tmp (or_introl Htmp1)) as [-> ->].
  rewrite Htmp1. cbn [negb].
  rewrite end_lift. destruct (FindWorktreeForBranch_on_model rd tmp Hwf1) as [-> ->].
  rewrite (lookup_on_model rd tmp t1 Hwf1 Hin1 eq_refl Hcwd).
  rewrite end_Print, end_lift. cbn [Sim.recordOf Path].
  destruct (HasUncommittedChanges_on_model rd t1 (treeAt_member rd t1 Hwf1 Hin1)) as [-> ->].
  cbn [Sim.tdirty Sim.tpath t1].
  match goal with
  | |- context [cbind (lift (Revert d ?b opts)) ?k] =>
      set (execute := cbind (lift (Revert d b opts)) k)
  end.
  assert (Hexec : forall s, fst (runCli Sim.git execute rd s) = (None, r)).
  { intros s. unfold execute. rewrite end_lift.
    pose proof (Revert_on_model r d (Cli.Branch c) opts t) as HR. feed HR.
    fold tmp in HR. fold rd in HR.
    destruct HR as [-> ->]. rewrite !end_Print. reflexivity. }
  rewrite Hdry.
  assert (Hrest :
            fst (runCli Sim.git
                   (if negb (Yes opts) then
                      Print ("Worktree '" ++ Sim.tpath t
                             ++ "' will be switched back to branch '"
                             ++ Cli.Branch c ++ "'" ++ Porcelain.nl)
                      (Print ("Temporary branch '" ++ tmp ++ "' will be deleted."
                              ++ Porcelain.nl ++ Porcelain.nl)
                      (Print "Proceed? [y/N] "
                      (ok <-- readYesNo ;;
                       if negb ok then Print msgAborted (Done None) else execute)))
                    else execute) rd stdin)
            = (None, r)).
  { destruct (Yes opts) eqn:Ey; cbn [negb].
    - apply Hexec.
    - destruct Hyes as [Hy | Hy]; [discriminate Hy | ].
      unfold readYesNo. cbn [cbind].
      rewrite !end_Print, end_Ask, Hy. cbn [negb]. apply Hexec. }
  destruct (Sim.tdirty t) as [|f fs].
  - exact Hrest.
  - destruct Hgo as [Hgo | Hgo]; [discriminate Hgo | ].
    rewrite Hgo. cbn [negb]. rewrite end_Print. exact Hrest.
Qed.

(** [Revert] on the model when no worktree holds the temp branch. *)
Lemma Revert_unattached_on_model (r : Sim.Repo) (d : Detacher) (b : string)
    (opts : Options) :
  Sim.wfRepo r = true ->
  Sim.hasBranch r b = true ->
  Sim.hasBranch r (TempBranchName d b) = true ->
  (forall x, In x (Sim.trees r) -> Sim.tbranch x <> Some (TempBranchName d b)) ->
  DryRun opts = false ->
  result Sim.git (Revert d b opts) r
  = inl {| Success := true;
           Message := "Deleted temporary branch '" ++ TempBranchName d b ++ "'";
           WorktreePath := ""; TempBranch := TempBranchName d b |}
  /\ final Sim.git (Revert d b opts) r = Sim.afterDelete r (TempBranchName d b).
Proof.
  intros Hwf Hb Htmp Hfree Hdry.
  destruct (wfRepo_parts r Hwf) as (Htrees & _).
  destruct (wfRepo_cwd r Hwf) as [Hcwdname Htop].
  destruct (hasBranch_commit r b Hb) as [cb Hcb].
  destruct (hasBranch_commit r _ Htmp) as [ct Hct].
  pose proof (wfRepo_branch_name r _ Hwf Htmp) as Htne.
  assert (Hrun := Revert_unattached_run Sim.git d b opts r r r r r
                    (cb ++ Sim.nl) (ct ++ Sim.nl) (Sim.cwd r ++ Sim.nl)
                    (Sim.renderTrees (Sim.trees r))).
  rewrite !git_branchExists, Hcb, Hct in Hrun.
  specialize (Hrun eq_refl eq_refl Htop (git_list r)).
  rewrite parse_listing, TrimSpace_name in Hrun by assumption.
  rewrite Find_no_holder in Hrun;
    [ | exact Htne | intros x Hx E; now elim (Hfree x Hx) ].
  specialize (Hrun eq_refl). rewrite Hdry in Hrun.
  rewrite git_delete in Hrun. unfold Sim.deleteBranch in Hrun.
  rewrite Htmp in Hrun. unfold Sim.held in Hrun.
  rewrite existsb_false in Hrun.
  2:{ intros x Hx. destruct (Sim.onBranch (TempBranchName d b) x) eqn:E; [ | reflexivity].
      apply onBranch_true in E. now elim (Hfree x Hx). }
  cbn [negb andb Sim.ok fst snd] in Hrun.
  unfold result, final. rewrite Hrun. split; reflexivity.
Qed.

Lemma runRevert_unattached_on_model (r : Sim.Repo) (c : Cli.CLI) (d : Detacher)
    (opts : Options) (stdin : list bool) :
  Sim.wfRepo r = true ->
  Sim.hasBranch r (Cli.Branch c) = true ->
  Sim.hasBranch r (TempBranchName d (Cli.Branch c)) = true ->
  (forall x, In x (Sim.trees r) ->
             Sim.tbranch x <> Some (TempBranchName d (Cli.Branch c))) ->
  DryRun opts = false ->
  fst (runCli Sim.git (runRevert c d opts) r stdin)
  = (None, Sim.afterDelete r (TempBranchName d (Cli.Branch c)))
  /\ answers (actions Sim.git (runRevert c d opts) r stdin) = [].
Proof.
  intros Hwf Hb Htmp Hfree Hdry.
  pose proof (wfRepo_branch_name r _ Hwf Htmp) as Htne.
  pose proof (Revert_unattached_on_model r d (Cli.Branch c) opts) as HR. feed HR.
  destruct HR as [Hres Hfin].
  assert (Hfind : FindWorktreeByBranch (map Sim.recordOf (Sim.trees r))
                    (TempBranchName d (Cli.Branch c)) (Sim.cwd r) = None).
  { apply Find_no_holder; [exact Htne | ]. intros x Hx E. now elim (Hfree x Hx). }
  unfold runRevert. split.
  - rewrite end_lift.
    destruct (BranchExists_on_model r (TempBranchName d (Cli.Branch c)) (or_introl Htmp))
      as [-> ->].
    rewrite Htmp. cbn [negb]. rewrite end_lift.
    destruct (FindWorktreeForBranch_on_model r (TempBranchName d (Cli.Branch c)) Hwf)
      as [-> ->].
    rewrite Hfind, Hdry, end_lift, Hres, Hfin, end_Print. reflexivity.
  - rewrite answers_lift.
    destruct (BranchExists_on_model r (TempBranchName d (Cli.Branch c)) (or_introl Htmp))
      as [-> ->].
    rewrite Htmp. cbn [negb]. rewrite answers_lift.
    destruct (FindWorktreeForBranch_on_model r (TempBranchName d (Cli.Branch c)) Hwf)
      as [-> ->].
    rewrite Hfind, Hdry, answers_lift, Hres, answers_Print. reflexivity.
Qed.

(** The start of [Run] on the model: the detacher takes its suffix from
    the configuration. *)
Lemma CLI_Run_on_model (r : Sim.Repo) (c : Cli.CLI) (sfx : string) (stdin : list bool) :
  Cli.Init c = "" -> Cli.Branch c <> "" ->
  (Sim.cfgSuffix r = Some sfx /\ Sim.wfName sfx = true)
  \/ (Sim.cfgSuffix r = None /\ sfx = DefaultSuffix) ->
  let d := {| suffix := sfx |} in
  let opts := {| DryRun := Cli.DryRun c; Revert_ := Cli.Revert c;
                 Force := Cli.Force c; Yes := Cli.Yes c |} in
  let m := if Cli.Revert c then runRevert c d opts else runDetach c d opts in
  fst (runCli Sim.git (CLI_Run c) r stdin) = fst (runCli Sim.git m r stdin)
  /\ answers (actions Sim.git (CLI_Run c) r stdin) = answers (actions Sim.git m r stdin).
Proof.
  intros Hinit Hbranch Hcfg d opts m. unfold CLI_Run. rewrite Hinit.
  cbn [String.eqb negb].
  destruct (String.eqb_spec (Cli.Branch c) "") as [E | _]; [now elim Hbranch | ].
  rewrite end_lift, answers_lift.
  destruct (LoadSuffixFromConfig_on_model r NewDetacher sfx Hcfg) as [-> ->].
  split; reflexivity.
Qed.

(** X22.  The command line on the repository model, detaching.  In a
    well-formed repository let the branch named on the command line be
    checked out in a worktree [t] other than the current one, clean unless
    [--force] is given; let the temp branch (the branch name followed by
    the configured suffix, or by "__wt_detach" when none is configured)
    be a name that [git branch] creates ([Sim.creatable]: a plain name in
    the sense of [Sim.plainName] that no branch has, that no branch
    [refs/heads/<name>] hides and that no branch name [<name>/...] lies
    under).  Without [--dry-run], and with [--yes] or
    with yes as the answer to the confirmation, [Run] returns no error and
    leaves [t] on the new temp branch: the repository is the one the
    engine's detach produces. *)
Theorem CLI_detach_with_consent_on_model :
  forall (r : Sim.Repo) (c : Cli.CLI) (t : Sim.Tree) (sfx : string) (stdin : list bool),
    Sim.wfRepo r = true ->
    Cli.Init c = "" -> Cli.Revert c = false -> Cli.DryRun c = false ->
    (Sim.cfgSuffix r = Some sfx /\ Sim.wfName sfx = true)
    \/ (Sim.cfgSuffix r = None /\ sfx = "__wt_detach") ->
    Sim.hasBranch r (Cli.Branch c) = true ->
    In t (Sim.trees r) -> Sim.tbranch t = Some (Cli.Branch c) ->
    Sim.tpath t <> Sim.cwd r ->
    Sim.tdirty t = [] \/ Cli.Force c = true ->
    Sim.creatable r (Cli.Branch c ++ sfx) = true ->
    Cli.Yes c = true \/ hd false stdin = true ->
    outcome Sim.git (CLI_Run c) r stdin = None
    /\ endState Sim.git (CLI_Run c) r stdin = Sim.afterDetach r t (Cli.Branch c ++ sfx)
    /\ Sim.treeAt (Sim.trees (endState Sim.git (CLI_Run c) r stdin)) (Sim.tpath t)
       = Some {| Sim.tpath := Sim.tpath t; Sim.thead := Sim.thead t;
                 Sim.tbranch := Some (Cli.Branch c ++ sfx); Sim.tdirty := Sim.tdirty t |}.
Proof.
  intros r c t sfx stdin Hwf Hinit Hrev Hdry Hcfg Hb Hin Hon Hcwd Hgo Hcre Hyes.
  destruct (creatable_parts r _ Hcre) as [Habs _].
  destruct (absent_parts r _ Habs) as (Hnew & _ & _ & Htmp).
  pose proof (wfRepo_branch_name r _ Hwf Hb) as Hbne.
  destruct (CLI_Run_on_model r c sfx stdin Hinit Hbne Hcfg) as [Hend _].
  rewrite Hrev in Hend.
  pose proof (runDetach_on_model r c {| suffix := sfx |}
                {| DryRun := Cli.DryRun c; Revert_ := Cli.Revert c;
                   Force := Cli.Force c; Yes := Cli.Yes c |} t stdin) as HD.
  unfold TempBranchName in HD. cbn [DryRun Force Yes suffix] in HD. feed HD.
  rewrite Hrev in HD. rewrite <- Hend in HD.
  assert (Ho : outcome Sim.git (CLI_Run c) r stdin = None)
    by (unfold outcome; now rewrite HD).
  assert (He : endState Sim.git (CLI_Run c) r stdin
               = Sim.afterDetach r t (Cli.Branch c ++ sfx))
    by (unfold endState; now rewrite HD).
  split; [exact Ho | ]. split; [exact He | ].
  rewrite He.
  exact (treeAt_member
           (Sim.afterDetach r t (Cli.Branch c ++ sfx))
           {| Sim.tpath := Sim.tpath t; Sim.thead := Sim.thead t;
              Sim.tbranch := Some (Cli.Branch c ++ sfx); Sim.tdirty := Sim.tdirty t |}
           (afterDetach_wf r {| suffix := sfx |} (Cli.Branch c) t Hwf Hin Hon Hnew Htmp)
           (afterDetach_member r {| suffix := sfx |} (Cli.Branch c) t Hwf Hin)).
Qed.

Lemma CLI_detach_with_consent_on_model_witness :
  endState Sim.git (CLI_Run (Examples.cli "feature-x" false)) Examples.twoTrees [true]
  = Examples.detachedRepo
  /\ endState Sim.git (CLI_Run (Examples.cli "feature-x" false)) Examples.twoTrees [false]
     = Examples.twoTrees.
Proof.
  split; [ | reflexivity].
  refine (proj1 (proj2
            (CLI_detach_with_consent_on_model
               Examples.twoTrees (Examples.cli "feature-x" false)
               {| Sim.tpath := "/wt/x"; Sim.thead := "c1";
                  Sim.tbranch := Some "feature-x"; Sim.tdirty := [] |}
               "__wt_detach" [true]
               eq_refl eq_refl eq_refl eq_refl (or_intror (conj eq_refl eq_refl))
               eq_refl _ eq_refl _ (or_introl eq_refl) eq_refl
               (or_intror eq_refl)))).
  - right. left. reflexivity.
  - cbn. discriminate.
Defined.

(** X23.  The command line on the repository model, reverting.  On the
    repository such a detach left, [Run] with [--revert] and consent
    ([--yes], or yes as the answer) returns no error and gives back
    exactly the repository there was before the detach. *)
Theorem CLI_revert_with_consent_restores_model :
  forall (r : Sim.Repo) (c : Cli.CLI) (t : Sim.Tree) (sfx : string) (stdin : list bool),
    Sim.wfRepo r = true ->
    Cli.Init c = "" -> Cli.Revert c = true -> Cli.DryRun c = false ->
    (Sim.cfgSuffix r = Some sfx /\ Sim.wfName sfx = true)
    \/ (Sim.cfgSuffix r = None /\ sfx = "__wt_detach") ->
    Sim.hasBranch r (Cli.Branch c) = true ->
    In t (Sim.trees r) -> Sim.tbranch t = Some (Cli.Branch c) ->
    Sim.tpath t <> Sim.cwd r ->
    Sim.tdirty t = [] \/ Cli.Force c = true ->
    Sim.hasBranch r (Cli.Branch c ++ sfx) = false ->
    Sim.wfName (Cli.Branch c ++ sfx) = true ->
    Cli.Yes c = true \/ hd false stdin = true ->
    let rd := Sim.afterDetach r t (Cli.Branch c ++ sfx) in
    outcome Sim.git (CLI_Run c) rd stdin = None
    /\ endState Sim.git (CLI_Run c) rd stdin = r.
Proof.
  intros r c t sfx stdin Hwf Hinit Hrev Hdry Hcfg Hb Hin Hon Hcwd Hgo Hnew Htmp Hyes rd.
  pose proof (wfRepo_branch_name r _ Hwf Hb) as Hbne.
  destruct (CLI_Run_on_model rd c sfx stdin Hinit Hbne Hcfg) as [Hend _].
  rewrite Hrev in Hend.
  pose proof (runRevert_on_model r c {| suffix := sfx |}
                {| DryRun := Cli.DryRun c; Revert_ := Cli.Revert c;
                   Force := Cli.Force c; Yes := Cli.Yes c |} t stdin) as HR.
  unfold TempBranchName in HR. cbn [DryRun Force Yes suffix] in HR. feed HR.
  fold rd in HR. rewrite Hrev in HR. rewrite <- Hend in HR.
  split; [unfold outcome | unfold endState]; now rewrite HR.
Qed.

Lemma CLI_revert_with_consent_restores_model_witness :
  endState Sim.git (CLI_Run (Examples.cli "feature-x" true)) Examples.detachedRepo [true]
  = Examples.twoTrees.
Proof.
  refine (proj2
            (CLI_revert_with_consent_restores_model
               Examples.twoTrees (Examples.cli "feature-x" true)
               {| Sim.tpath := "/wt/x"; Sim.thead := "c1";
                  Sim.tbranch := Some "feature-x"; Sim.tdirty := [] |}
               "__wt_detach" [true]
               eq_refl eq_refl eq_refl eq_refl (or_intror (conj eq_refl eq_refl))
               eq_refl _ eq_refl _ (or_introl eq_refl) eq_refl eq_refl
               (or_intror eq_refl))).
  - right. left. reflexivity.
  - cbn. discriminate.
Defined.

(** X24.  A left-over temp branch is deleted without a question.  In a
    well-formed repository where the branch and its temp branch exist and
    no worktree has the temp branch checked out, [Run] with [--revert]
    (and no [--dry-run]) deletes the temp branch and returns no error
    without reading any confirmation, whether [--yes] is given or not and
    whatever the input holds. *)
Theorem CLI_revert_deletes_leftover_temp_branch_without_asking :
  forall (r : Sim.Repo) (c : Cli.CLI) (sfx : string) (stdin : list bool),
    Sim.wfRepo r = true ->
    Cli.Init c = "" -> Cli.Revert c = true -> Cli.DryRun c = false ->
    (Sim.cfgSuffix r = Some sfx /\ Sim.wfName sfx = true)
    \/ (Sim.cfgSuffix r = None /\ sfx = "__wt_detach") ->
    Sim.hasBranch r (Cli.Branch c) = true ->
    Sim.hasBranch r (Cli.Branch c ++ sfx) = true ->
    (forall x, In x (Sim.trees r) -> Sim.tbranch x <> Some (Cli.Branch c ++ sfx)) ->
    outcome Sim.git (CLI_Run c) r stdin = None
    /\ endState Sim.git (CLI_Run c) r stdin = Sim.afterDelete r (Cli.Branch c ++ sfx)
    /\ Sim.hasBranch (endState Sim.git (CLI_Run c) r stdin) (Cli.Branch c ++ sfx) = false
    /\ answers (actions Sim.git (CLI_Run c) r stdin) = [].
Proof.
  intros r c sfx stdin Hwf Hinit Hrev Hdry Hcfg Hb Htmp Hfree.
  pose proof (wfRepo_branch_name r _ Hwf Hb) as Hbne.
  destruct (CLI_Run_on_model r c sfx stdin Hinit Hbne Hcfg) as [Hend Hans].
  rewrite Hrev in Hend, Hans.
  pose proof (runRevert_unattached_on_model r c {| suffix := sfx |}
                {| DryRun := Cli.DryRun c; Revert_ := Cli.Revert c;
                   Force := Cli.Force c; Yes := Cli.Yes c |} stdin) as HR.
  unfold TempBranchName in HR. cbn [DryRun Force Yes suffix] in HR. feed HR.
  rewrite Hrev in HR.
  destruct HR as [HR1 HR2]. rewrite <- Hend in HR1. rewrite <- Hans in HR2.
  assert (He : endState Sim.git (CLI_Run c) r stdin
               = Sim.afterDelete r (Cli.Branch c ++ sfx))
    by (unfold endState; now rewrite HR1).
  split; [unfold outcome; now rewrite HR1 | ]. split; [exact He | ].
  split; [ | exact HR2].
  rewrite He. unfold Sim.afterDelete, Sim.hasBranch. cbn [Sim.branches].
  apply existsb_false. intros e He'. apply filter_In in He' as [_ He'].
  now apply negb_true_iff in He'.
Qed.

Lemma CLI_revert_deletes_leftover_temp_branch_without_asking_witness :
  endState Sim.git (CLI_Run (Examples.cli "feature-x" true)) Examples.orphanTemp []
  = Examples.orphanGone
  /\ answers (actions Sim.git (CLI_Run (Examples.cli "feature-x" true))
                      Examples.orphanTemp []) = [].
Proof.
  pose proof (CLI_revert_deletes_leftover_temp_branch_without_asking
                Examples.orphanTemp (Examples.cli "feature-x" true) "__wt_detach" []
                eq_refl eq_refl eq_refl eq_refl (or_intror (conj eq_refl eq_refl))
                eq_refl eq_refl) as H.
  assert (Hfree : forall x, In x (Sim.trees Examples.orphanTemp) ->
                            Sim.tbranch x <> Some ("feature-x" ++ "__wt_detach")).
  { intros x [<- | []]. discriminate. }
  destruct (H Hfree) as (_ & He & _ & Ha). split; [exact He | exact Ha].
Defined.

Lemma CLI_dry_run_changes_nothing_and_asks_nothing_witness :
  readOnly (commands (actions Sim.git (CLI_Run (Examples.cliDry "feature-x" false))
                              Examples.twoTrees [true]))
  /\ endState Sim.git (CLI_Run (Examples.cliDry "feature-x" false))
              Examples.twoTrees [true]
     = Examples.twoTrees.
Proof.
  split; [ | reflexivity].
  exact (proj1 (CLI_dry_run_changes_nothing_and_asks_nothing
                  Sim.Repo Sim.git Examples.twoTrees [true]
                  (Examples.cliDry "feature-x" false) eq_refl)).
Defined.

Lemma CLI_detach_changes_nothing_before_consent_witness :
  consentFirst (actions Sim.git (CLI_Run (Examples.cli "feature-x" false))
                        Examples.twoTrees [true]) = true
  /\ answers (actions Sim.git (CLI_Run (Examples.cli "feature-x" false))
                      Examples.twoTrees [true]) = [true]
  /\ Sim.hasBranch (endState Sim.git (CLI_Run (Examples.cli "feature-x" false))
                             Examples.twoTrees [true]) "feature-x__wt_detach" = true.
Proof.
  split; [ | split; reflexivity].
  exact (CLI_detach_changes_nothing_before_consent
           Sim.Repo Sim.git Examples.twoTrees [true]
           (Examples.cli "feature-x" false) eq_refl eq_refl).
Defined.

Lemma CLI_answer_no_changes_nothing_witness :
  readOnly (commands (actions Sim.git (CLI_Run (Examples.cli "feature-x" true))
                              Examples.detachedRepo [false]))
  /\ endState Sim.git (CLI_Run (Examples.cli "feature-x" true))
              Examples.detachedRepo [false]
     = Examples.detachedRepo.
Proof.
  split; [ | reflexivity].
  refine (proj1 (CLI_answer_no_changes_nothing
                   Sim.Repo Sim.git Examples.detachedRepo [false]
                   (Examples.cli "feature-x" true) _)).
  vm_compute. repeat (first [left; reflexivity | right]).
Defined.

(* ================================================================== *)
(** ** Lines the parser does not look at *)
(* ================================================================== *)

Lemma parseLine_ignored (st : ParseState) (l : string) :
  parserReads l = false -> parseLine st l = st.
Proof.
  unfold parserReads. intros H.
  apply orb_false_iff in H as [H Hblank]. apply orb_false_iff in H as [Hw Hb].
  destruct st as [ws cur]. unfold parseLine. now rewrite Hw, Hb, Hblank.
Qed.

Lemma fold_parseLine_filter (lines : list string) (st : ParseState) :
  fold_left parseLine (filter parserReads lines) st = fold_left parseLine lines st.
Proof.
  revert st. induction lines as [|l lines IH]; intros st; [reflexivity | ].
  cbn [filter fold_left]. destruct (parserReads l) eqn:E.
  - cbn [fold_left]. apply IH.
  - rewrite (parseLine_ignored st l E). apply IH.
Qed.

(** X25.  Lines of other kinds do not matter.  A line that is neither a
    [worktree] line, nor a [branch refs/heads/] line, nor blank leaves the
    state of the parser as it is; so for every input the result is that
    of the input with all such lines ([HEAD], [detached], [bare],
    [locked], whatever a later version of the listing adds) taken out. *)
Theorem ParseWorktreeList_ignores_other_lines :
  (forall (st : ParseState) (line : string),
      parserReads line = false -> parseLine st line = st)
  /\ (forall output : string,
         ParseWorktreeList output
         = parseLines (filter parserReads (Go.ScanLines output)))
  /\ (forall (before after : list string) (line : string),
         parserReads line = false ->
         parseLines (before ++ line :: after) = parseLines (before ++ after)).
Proof.
  split; [exact parseLine_ignored | ]. split.
  - intros output. unfold ParseWorktreeList, parseLines.
    now rewrite fold_parseLine_filter.
  - intros before after line H. unfold parseLines.
    rewrite !fold_left_app. cbn [fold_left]. now rewrite parseLine_ignored.
Qed.

(* ================================================================== *)
(** ** The engine on the model, case by case *)
(* ================================================================== *)

Section ExitRuns.
Context {W : Type} (os : W -> list string -> Reply * W).
Variables (d : Detacher) (branch : string) (opts : Options).

Let tmp : string := TempBranchName d branch.

Lemma Detach_missing_run (w0 w1 : W) (o e : string) :
  os w0 (cmdBranchExists branch) = ((o, Some e), w1) ->
  result os (Detach d branch opts) w0 = inr (errBranchMissing branch)
  /\ final os (Detach d branch opts) w0 = w1.
Proof.
  intros H1. unfold result, final. unfold cmdBranchExists in *. unfold_engine.
  run_known H1. split; reflexivity.
Qed.

Lemma Revert_missing_run (w0 w1 : W) (o e : string) :
  os w0 (cmdBranchExists branch) = ((o, Some e), w1) ->
  result os (Revert d branch opts) w0 = inr (errBranchMissing branch)
  /\ final os (Revert d branch opts) w0 = w1.
Proof.
  intros H1. unfold result, final. unfold cmdBranchExists in *. unfold_engine.
  run_known H1. split; reflexivity.
Qed.

Lemma Revert_temp_missing_run (w0 w1 w2 : W) (o1 o2 e : string) :
  os w0 (cmdBranchExists branch) = ((o1, None), w1) ->
  os w1 (cmdBranchExists tmp) = ((o2, Some e), w2) ->
  result os (Revert d branch opts) w0 = inr (errTempMissing tmp)
  /\ final os (Revert d branch opts) w0 = w2.
Proof.
  intros H1 H2. unfold result, final. unfold cmdBranchExists in *.
  fold tmp. unfold_engine. fold tmp.
  run_known H1. run_known H2. split; reflexivity.
Qed.

(** [Detach] past the status check, stopped by the temp branch or by
    [DryRun]. *)
Lemma Detach_stops_run (wt : Worktree) (w0 w1 w2 w3 w4 w5 : W)
    (o1 cur listing o4 o5 : string) (e5 : GoError) :
  os w0 (cmdBranchExists branch) = ((o1, None), w1) ->
  os w1 cmdToplevel = ((cur, None), w2) ->
  os w2 cmdList = ((listing, None), w3) ->
  FindWorktreeByBranch (ParseWorktreeList (Go.TrimSpace listing)) branch (Go.TrimSpace cur)
  = Some wt ->
  os w3 (cmdStatus (Path wt)) = ((o4, None), w4) ->
  Go.TrimSpace o4 = "" \/ Force opts = true ->
  os w4 (cmdBranchExists tmp) = ((o5, e5), w5) ->
  (e5 = None \/ DryRun opts = true) ->
  result os (Detach d branch opts) w0
  = match e5 with
    | None => inr (errTempExists tmp)
    | Some _ => inl {| Success := true; Message := "dry-run";
                       WorktreePath := Path wt; TempBranch := tmp |}
    end
  /\ final os (Detach d branch opts) w0 = w5.
Proof.
  intros H1 H2 H3 Hfind H4 Hgo H5 Hstop.
  unfold result, final.
  unfold cmdBranchExists, cmdToplevel, cmdList, cmdStatus in *.
  fold tmp. unfold_engine. fold tmp.
  run_known H1. run_known H2. run_known H3.
  cbn [run bind fst snd negb andb app]. rewrite Hfind.
  run_known H4. cbn [run bind fst snd negb andb app].
  assert (Hpass : negb (Go.TrimSpace o4 =? "")%string && negb (Force opts) = false).
  { destruct Hgo as [-> | ->]; [reflexivity | apply andb_false_r]. }
  rewrite Hpass. run_known H5. cbn [run bind fst snd negb andb app].
  destruct e5 as [e|]; [ | split; reflexivity].
  destruct Hstop as [Hstop | ->]; [discriminate Hstop | split; reflexivity].
Qed.

(** [Revert] past the status check: stopped by [DryRun], or by a
    checkout that fails. *)
Lemma Revert_dry_run (wt : Worktree) (w0 w1 w2 w3 w4 w5 : W)
    (o1 o2 cur listing o5 : string) :
  os w0 (cmdBranchExists branch) = ((o1, None), w1) ->
  os w1 (cmdBranchExists tmp) = ((o2, None), w2) ->
  os w2 cmdToplevel = ((cur, None), w3) ->
  os w3 cmdList = ((listing, None), w4) ->
  FindWorktreeByBranch (ParseWorktreeList (Go.TrimSpace listing)) tmp (Go.TrimSpace cur)
  = Some wt ->
  os w4 (cmdStatus (Path wt)) = ((o5, None), w5) ->
  Go.TrimSpace o5 = "" \/ Force opts = true ->
  DryRun opts = true ->
  result os (Revert d branch opts) w0
  = inl {| Success := true; Message := "dry-run";
           WorktreePath := Path wt; TempBranch := tmp |}
  /\ final os (Revert d branch opts) w0 = w5.
Proof.
  intros H1 H2 H3 H4 Hfind H5 Hgo Hdry.
  unfold result, final.
  unfold cmdBranchExists, cmdToplevel, cmdList, cmdStatus in *.
  fold tmp. unfold_engine. fold tmp.
  run_known H1. run_known H2. run_known H3. run_known H4.
  cbn [run bind fst snd negb andb app]. rewrite Hfind.
  run_known H5. cbn [run bind fst snd negb andb app].
  assert (Hpass : negb (Go.TrimSpace o5 =? "")%string && negb (Force opts) = false).
  { destruct Hgo as [-> | ->]; [reflexivity | apply andb_false_r]. }
  rewrite Hpass, Hdry. split; reflexivity.
Qed.

Lemma Revert_checkout_fails_run (wt : Worktree) (w0 w1 w2 w3 w4 w5 w6 : W)
    (o1 o2 cur listing o5 o6 e6 : string) :
  os w0 (cmdBranchExists branch) = ((o1, None), w1) ->
  os w1 (cmdBranchExists tmp) = ((o2, None), w2) ->
  os w2 cmdToplevel = ((cur, None), w3) ->
  os w3 cmdList = ((listing, None), w4) ->
  FindWorktreeByBranch (ParseWorktreeList (Go.TrimSpace listing)) tmp (Go.TrimSpace cur)
  = Some wt ->
  os w4 (cmdStatus (Path wt)) = ((o5, None), w5) ->
  Go.TrimSpace o5 = "" \/ Force opts = true ->
  DryRun opts = false ->
  os w5 (cmdCheckout (Path wt) branch) = ((o6, Some e6), w6) ->
  result os (Revert d branch opts) w0 = inr (errCheckout branch (Path wt) e6)
  /\ final os (Revert d branch opts) w0 = w6.
Proof.
  intros H1 H2 H3 H4 Hfind H5 Hgo Hdry H6.
  unfold result, final.
  unfold cmdBranchExists, cmdToplevel, cmdList, cmdStatus, cmdCheckout in *.
  fold tmp. unfold_engine. fold tmp.
  run_known H1. run_known H2. run_known H3. run_known H4.
  cbn [run bind fst snd negb andb app]. rewrite Hfind.
  run_known H5. cbn [run bind fst snd negb andb app].
  assert (Hpass : negb (Go.TrimSpace o5 =? "")%string && negb (Force opts) = false).
  { destruct Hgo as [-> | ->]; [reflexivity | apply andb_false_r]. }
  rewrite Hpass, Hdry. run_known H6. split; reflexivity.
Qed.
End ExitRuns.

(** What the model answers to the queries of the engine. *)
Lemma model_lookup (r : Sim.Repo) :
  Sim.wfRepo r = true ->
  Sim.git r cmdToplevel = ((Sim.cwd r ++ Sim.nl, None), r)
  /\ Sim.git r cmdList = ((Sim.renderTrees (Sim.trees r), None), r)
  /\ ParseWorktreeList (Go.TrimSpace (Sim.renderTrees (Sim.trees r)))
     = map Sim.recordOf (Sim.trees r)
  /\ Go.TrimSpace (Sim.cwd r ++ Sim.nl) = Sim.cwd r.
Proof.
  intros Hwf. destruct (wfRepo_parts r Hwf) as (Htrees & _).
  destruct (wfRepo_cwd r Hwf) as [Hcwdname Htop].
  repeat split; [exact Htop | now apply parse_listing | now apply TrimSpace_name].
Qed.

Lemma model_status (r : Sim.Repo) (t : Sim.Tree) (opts : Options) :
  Sim.wfRepo r = true -> In t (Sim.trees r) ->
  Sim.git r (cmdStatus (Sim.tpath t)) = ((Sim.renderStatus (Sim.tdirty t), None), r)
  /\ (Sim.tdirty t = [] \/ Force opts = true ->
      Go.TrimSpace (Sim.renderStatus (Sim.tdirty t)) = "" \/ Force opts = true)
  /\ (Sim.tdirty t <> [] -> Go.TrimSpace (Sim.renderStatus (Sim.tdirty t)) <> "").
Proof.
  intros Hwf Hin. split; [ | split].
  - now rewrite git_status, (treeAt_member r t Hwf Hin).
  - intros [-> | Hf]; [left; reflexivity | now right].
  - intros Hd. destruct (Sim.tdirty t) as [|f fs]; [now elim Hd | ].
    apply renderStatus_not_blank.
Qed.

Lemma model_branch (r : Sim.Repo) (b : string) :
  (Sim.hasBranch r b = true ->
   exists c, Sim.commitOf (Sim.branches r) b = Some c
             /\ Sim.git r (cmdBranchExists b) = ((c ++ Sim.nl, None), r))
  /\ (Sim.absent r b = true ->
      Sim.git r (cmdBranchExists b) = (("", Some "exit status 128"), r)).
Proof.
  rewrite git_branchExists. split; intros H.
  - destruct (hasBranch_commit r b H) as [c Hc]. exists c. now rewrite Hc.
  - destruct (absent_parts r b H) as (_ & Hnone & _). now rewrite Hnone, H.
Qed.

(** The branch is checked out in no worktree but, at most, the current
    one: [Detach] reports "not checked out" and changes nothing. *)
Lemma Detach_not_elsewhere_on_model (r : Sim.Repo) (d : Detacher) (b : string)
    (opts : Options) :
  Sim.wfRepo r = true -> Sim.hasBranch r b = true ->
  (forall x, In x (Sim.trees r) -> Sim.tbranch x = Some b -> Sim.tpath x = Sim.cwd r) ->
  result Sim.git (Detach d b opts) r
  = inl {| Success := true; Message := msgNotCheckedOut b;
           WorktreePath := ""; TempBranch := "" |}
  /\ final Sim.git (Detach d b opts) r = r.
Proof.
  intros Hwf Hb Hall.
  destruct (model_lookup r Hwf) as (Htop & Hlist & Hparse & Hcur).
  destruct (proj1 (model_branch r b) Hb) as (c & _ & Hq).
  apply (Detach_nothing_to_do_run Sim.git d b opts r r r r
           (c ++ Sim.nl) (Sim.cwd r ++ Sim.nl) (Sim.renderTrees (Sim.trees r)));
    try assumption.
  rewrite Hparse, Hcur. apply Find_no_holder; [ | exact Hall].
  exact (wfRepo_branch_name r b Hwf Hb).
Qed.

(** X26.  What [Detach] does on the repository model, case by case, for
    the names the model covers.  On a well-formed repository (whose
    worktree paths and branch names have no white space at their ends):
    the branch is absent ([Sim.absent]: a plain name in the sense of
    [Sim.plainName] that no branch has and that no branch
    [refs/heads/<name>] hides): the branch-missing error.  It exists and
    no worktree but (at most) the current one has it checked out:
    success, "not checked out".  Another worktree [t] has it checked out,
    and: [t] has uncommitted changes and there is no force: the
    uncommitted-changes error for [t]; otherwise, the temp branch exists:
    the temp-branch-exists error; otherwise, the temp branch is absent
    and [DryRun] is set: success "dry-run" naming [t] and the temp branch.
    In all these cases the repository is unchanged.  Last, the temp
    branch is a name that [git branch] creates ([Sim.creatable]: absent,
    and no branch name lies under it) and [DryRun] is off: success, and
    the repository is the one with the temp branch created at the commit
    of [t] and [t] switched to it.  Names outside these cases (revision
    syntax, names git refuses) are not covered. *)
Theorem Detach_on_model_case_by_case :
  forall (r : Sim.Repo) (d : Detacher) (b : string) (opts : Options),
    Sim.wfRepo r = true ->
    let tmp := TempBranchName d b in
    let res := result Sim.git (Detach d b opts) r in
    let fin := final Sim.git (Detach d b opts) r in
    (Sim.absent r b = true -> res = inr (errBranchMissing b) /\ fin = r)
    /\ (Sim.hasBranch r b = true ->
        (forall x, In x (Sim.trees r) -> Sim.tbranch x = Some b ->
                   Sim.tpath x = Sim.cwd r) ->
        res = inl {| Success := true; Message := msgNotCheckedOut b;
                     WorktreePath := ""; TempBranch := "" |}
        /\ fin = r)
    /\ (forall t : Sim.Tree,
           In t (Sim.trees r) -> Sim.tbranch t = Some b -> Sim.tpath t <> Sim.cwd r ->
           (Sim.tdirty t <> [] -> Force opts = false ->
            res = inr (errUncommitted (Sim.tpath t)) /\ fin = r)
           /\ (Sim.tdirty t = [] \/ Force opts = true ->
               (Sim.hasBranch r tmp = true -> res = inr (errTempExists tmp) /\ fin = r)
               /\ (Sim.absent r tmp = true -> DryRun opts = true ->
                   res = inl {| Success := true; Message := "dry-run";
                                WorktreePath := Sim.tpath t; TempBranch := tmp |}
                   /\ fin = r)
               /\ (Sim.creatable r tmp = true -> DryRun opts = false ->
                   res = inl {| Success := true;
                                Message := "Branch '" ++ b ++ "' detached successfully";
                                WorktreePath := Sim.tpath t; TempBranch := tmp |}
                   /\ fin = Sim.afterDetach r t tmp))).
Proof.
  intros r d b opts Hwf tmp res fin. subst res fin.
  destruct (model_lookup r Hwf) as (Htop & Hlist & Hparse & Hcur).
  split; [ | split].
  - intros Hb.
    exact (Detach_missing_run Sim.git d b opts r r "" "exit status 128"
             (proj2 (model_branch r b) Hb)).
  - intros Hb Hall. now apply Detach_not_elsewhere_on_model.
  - intros t Hin Hon Hcwd.
    destruct (model_status r t opts Hwf Hin) as (Hstatus & Hclean & Hdirty).
    destruct (wfRepo_parts r Hwf) as (_ & _ & _ & _ & Hheads & _).
    pose proof (Hheads t b Hin Hon) as Hcommit.
    assert (Hq : Sim.git r (cmdBranchExists b) = ((Sim.thead t ++ Sim.nl, None), r))
      by (rewrite git_branchExists, Hcommit; reflexivity).
    assert (Hfind : FindWorktreeByBranch
                      (ParseWorktreeList (Go.TrimSpace (Sim.renderTrees (Sim.trees r))))
                      b (Go.TrimSpace (Sim.cwd r ++ Sim.nl)) = Some (Sim.recordOf t)).
    { rewrite Hparse, Hcur. now apply lookup_on_model. }
    split.
    + intros Hd Hf. apply Detach_dirty_on_model; assumption.
    + intros Hgo. specialize (Hclean Hgo). split; [ | split].
      * intros Htmp. destruct (proj1 (model_branch r tmp) Htmp) as (ct & _ & Hqt).
        exact (Detach_stops_run Sim.git d b opts (Sim.recordOf t) r r r r r r
                 _ _ _ _ _ None Hq Htop Hlist Hfind Hstatus Hclean Hqt
                 (or_introl eq_refl)).
      * intros Htmp Hdry.
        exact (Detach_stops_run Sim.git d b opts (Sim.recordOf t) r r r r r r
                 _ _ _ _ _ (Some "exit status 128") Hq Htop Hlist Hfind Hstatus Hclean
                 (proj2 (model_branch r tmp) Htmp) (or_intror Hdry)).
      * intros Hcre Hdry.
        destruct (creatable_parts r _ Hcre) as [Habs _].
        destruct (absent_parts r _ Habs) as (Hnew & _ & _ & Htmp).
        apply Detach_on_model; assumption.
Qed.

Lemma Detach_on_model_case_by_case_witness :
  result Sim.git (Detach NewDetacher "feature-x" Examples.plain) Examples.detachedRepo
  = inl {| Success := true; Message := msgNotCheckedOut "feature-x";
           WorktreePath := ""; TempBranch := "" |}
  /\ result Sim.git (Detach NewDetacher "nope" Examples.plain) Examples.twoTrees
     = inr (errBranchMissing "nope").
Proof.
  split.
  - refine (proj1 (proj1 (proj2 (Detach_on_model_case_by_case
                                   Examples.detachedRepo NewDetacher "feature-x"
                                   Examples.plain eq_refl)) eq_refl _)).
    intros x [<- | [<- | []]]; discriminate.
  - exact (proj1 (proj1 (Detach_on_model_case_by_case
                           Examples.twoTrees NewDetacher "nope" Examples.plain eq_refl)
                        eq_refl)).
Defined.

Lemma held_iff (ts : list Sim.Tree) (b : string) :
  Sim.held ts b = true <-> exists x, In x ts /\ Sim.tbranch x = Some b.
Proof.
  unfold Sim.held. rewrite existsb_exists. split.
  - intros (x & Hx & E). exists x. split; [assumption | now apply onBranch_true].
  - intros (x & Hx & E). exists x. split; [assumption | now apply onBranch_true].
Qed.

(** X27.  What [Revert] does on the repository model, case by case, for
    the names the model covers.  On a well-formed repository, for a
    detacher whose suffix is not empty: the branch is absent
    ([Sim.absent]: a plain name in the sense of [Sim.plainName] that no
    branch has and that no branch [refs/heads/<name>] hides): the
    branch-missing error; the branch
    exists and the temp branch is absent: the temp-branch-missing error.
    Both exist and no worktree but (at most) the current one has the temp
    branch checked out: with [DryRun] success "dry-run: would delete
    branch"; else, if the current worktree has it checked out, the delete
    fails and that is the outcome; else the temp branch is deleted.
    Another worktree [t] has the temp branch checked out, and: [t] has
    uncommitted changes and there is no force: the uncommitted-changes
    error; otherwise with [DryRun]: success "dry-run"; otherwise, if the
    branch is checked out in yet another worktree the checkout fails,
    that is the outcome and the temp branch stays; otherwise, if [t] is
    clean or the branch is still at the commit [t] is at: success, [t] is
    on the branch, at the commit of the branch, and the temp branch is
    gone.  In every case but the two that succeed in deleting, the
    repository is unchanged.  The case left out is a forced revert of a
    worktree with uncommitted changes whose branch has moved to another
    commit: there [git checkout] may refuse, and the model does not
    decide it. *)
Theorem Revert_on_model_case_by_case :
  forall (r : Sim.Repo) (d : Detacher) (b : string) (opts : Options),
    Sim.wfRepo r = true -> suffix d <> "" ->
    let tmp := TempBranchName d b in
    let res := result Sim.git (Revert d b opts) r in
    let fin := final Sim.git (Revert d b opts) r in
    (Sim.absent r b = true -> res = inr (errBranchMissing b) /\ fin = r)
    /\ (Sim.hasBranch r b = true -> Sim.absent r tmp = true ->
        res = inr (errTempMissing tmp) /\ fin = r)
    /\ (Sim.hasBranch r b = true -> Sim.hasBranch r tmp = true ->
        (forall x, In x (Sim.trees r) -> Sim.tbranch x = Some tmp ->
                   Sim.tpath x = Sim.cwd r) ->
        (DryRun opts = true ->
         res = inl {| Success := true; Message := "dry-run: would delete branch";
                      WorktreePath := ""; TempBranch := tmp |}
         /\ fin = r)
        /\ (DryRun opts = false ->
            (exists x, In x (Sim.trees r) /\ Sim.tbranch x = Some tmp) ->
            res = inr ("failed to delete branch '" ++ tmp ++ "': exit status 1")
            /\ fin = r)
        /\ (DryRun opts = false ->
            (forall x, In x (Sim.trees r) -> Sim.tbranch x <> Some tmp) ->
            res = inl {| Success := true;
                         Message := "Deleted temporary branch '" ++ tmp ++ "'";
                         WorktreePath := ""; TempBranch := tmp |}
            /\ fin = Sim.afterDelete r tmp))
    /\ (forall (t : Sim.Tree) (c : string),
           Sim.commitOf (Sim.branches r) b = Some c ->
           In t (Sim.trees r) -> Sim.tbranch t = Some tmp -> Sim.tpath t <> Sim.cwd r ->
           (Sim.tdirty t <> [] -> Force opts = false ->
            res = inr (errUncommitted (Sim.tpath t)) /\ fin = r)
           /\ (Sim.tdirty t = [] \/ Force opts = true ->
               (DryRun opts = true ->
                res = inl {| Success := true; Message := "dry-run";
                             WorktreePath := Sim.tpath t; TempBranch := tmp |}
                /\ fin = r)
               /\ (DryRun opts = false ->
                   Sim.heldElsewhere (Sim.trees r) (Sim.tpath t) b = true ->
                   res = inr (errCheckout b (Sim.tpath t) "exit status 128")
                   /\ fin = r)
               /\ (DryRun opts = false ->
                   Sim.heldElsewhere (Sim.trees r) (Sim.tpath t) b = false ->
                   Sim.tdirty t = [] \/ c = Sim.thead t ->
                   res = inl {| Success := true;
                                Message := "Branch '" ++ b ++ "' restored successfully";
                                WorktreePath := Sim.tpath t; TempBranch := tmp |}
                   /\ fin = Sim.afterRevert r t b c tmp))).
Proof.
  intros r d b opts Hwf Hsfx tmp res fin. subst res fin.
  destruct (model_lookup r Hwf) as (Htop & Hlist & Hparse & Hcur).
  assert (Hneq : tmp <> b) by (apply append_neq_self; exact Hsfx).
  split; [ | split; [ | split]].
  - intros Hb.
    exact (Revert_missing_run Sim.git d b opts r r "" "exit status 128"
             (proj2 (model_branch r b) Hb)).
  - intros Hb Htmp. destruct (proj1 (model_branch r b) Hb) as (cb & _ & Hq).
    exact (Revert_temp_missing_run Sim.git d b opts r r r _ "" "exit status 128"
             Hq (proj2 (model_branch r tmp) Htmp)).
  - intros Hb Htmp Hall.
    destruct (proj1 (model_branch r b) Hb) as (cb & _ & Hq).
    destruct (proj1 (model_branch r tmp) Htmp) as (ct & _ & Hqt).
    assert (Hrun := Revert_unattached_run Sim.git d b opts r r r r r
                      (cb ++ Sim.nl) (ct ++ Sim.nl) (Sim.cwd r ++ Sim.nl)
                      (Sim.renderTrees (Sim.trees r)) Hq Hqt Htop Hlist).
    rewrite Hparse, Hcur in Hrun.
    rewrite Find_no_holder in Hrun;
      [ | exact (wfRepo_branch_name r tmp Hwf Htmp) | exact Hall ].
    specialize (Hrun eq_refl). unfold result, final. fold tmp in Hrun.
    split; [ | split].
    + intros Hdry. rewrite Hdry in Hrun. rewrite Hrun. split; reflexivity.
    + intros Hdry Hheld. rewrite Hdry in Hrun.
      rewrite git_delete in Hrun. unfold Sim.deleteBranch in Hrun.
      rewrite Htmp, (proj2 (held_iff _ _) Hheld) in Hrun.
      rewrite Hrun. split; reflexivity.
    + intros Hdry Hfree. rewrite Hdry in Hrun.
      rewrite git_delete in Hrun. unfold Sim.deleteBranch in Hrun.
      rewrite Htmp in Hrun.
      assert (Hno : Sim.held (Sim.trees r) tmp = false).
      { destruct (Sim.held (Sim.trees r) tmp) eqn:E; [ | reflexivity].
        apply held_iff in E as (x & Hx & Ex). now elim (Hfree x Hx). }
      rewrite Hno in Hrun. rewrite Hrun. split; reflexivity.
  - intros t c Hcb Hin Hon Hcwd.
    destruct (model_status r t opts Hwf Hin) as (Hstatus & Hclean & Hdirty).
    destruct (wfRepo_parts r Hwf) as (_ & _ & Hpaths & Hheld & Hheads & _).
    pose proof (Hheads t tmp Hin Hon) as Hct.
    assert (Hq : Sim.git r (cmdBranchExists b) = ((c ++ Sim.nl, None), r))
      by (rewrite git_branchExists, Hcb; reflexivity).
    assert (Hqt : Sim.git r (cmdBranchExists tmp) = ((Sim.thead t ++ Sim.nl, None), r))
      by (rewrite git_branchExists, Hct; reflexivity).
    assert (Hfind : FindWorktreeByBranch
                      (ParseWorktreeList (Go.TrimSpace (Sim.renderTrees (Sim.trees r))))
                      tmp (Go.TrimSpace (Sim.cwd r ++ Sim.nl)) = Some (Sim.recordOf t)).
    { rewrite Hparse, Hcur. now apply lookup_on_model. }
    split.
    + intros Hd Hf.
      exact (Revert_blocked_run Sim.git d b opts (Sim.recordOf t) r r r r r r
               _ _ _ _ _ Hq Hqt Htop Hlist Hfind Hstatus (Hdirty Hd) Hf).
    + intros Hgo. specialize (Hclean Hgo). split; [ | split].
      * intros Hdry.
        exact (Revert_dry_run Sim.git d b opts (Sim.recordOf t) r r r r r r
                 _ _ _ _ _ Hq Hqt Htop Hlist Hfind Hstatus Hclean Hdry).
      * intros Hdry Hbusy.
        apply (Revert_checkout_fails_run Sim.git d b opts (Sim.recordOf t) r r r r r r r
                 _ _ _ _ _ "" "exit status 128" Hq Hqt Htop Hlist Hfind Hstatus Hclean Hdry).
        rewrite git_checkout. unfold Sim.checkout. cbn [Sim.recordOf Path].
        now rewrite (treeAt_member r t Hwf Hin), Hcb, Hbusy.
      * intros Hdry Hfree Hsafe.
        assert (Hkeep : Sim.clean t || (c =? Sim.thead t)%string = true).
        { destruct Hsafe as [Hc | Hc].
          - unfold Sim.clean. now rewrite Hc.
          - rewrite Hc, String.eqb_refl. apply orb_true_r. }
        set (r1 := {| Sim.branches := Sim.branches r;
                      Sim.trees :=
                        Sim.setTree (Sim.tpath t)
                          (fun x => {| Sim.tpath := Sim.tpath x; Sim.thead := c;
                                       Sim.tbranch := Some b;
                                       Sim.tdirty := Sim.tdirty x |}) (Sim.trees r);
                      Sim.cwd := Sim.cwd r; Sim.cfgSuffix := Sim.cfgSuffix r; Sim.lost := Sim.lost r |}).
        apply (Revert_proceeds_run Sim.git d b opts (Sim.recordOf t) r r r r r r r1
                 (Sim.afterRevert r t b c tmp)
                 _ _ _ _ _ "" "" Hq Hqt Htop Hlist Hfind Hstatus Hclean Hdry).
        -- rewrite git_checkout. unfold Sim.checkout. cbn [Sim.recordOf Path].
           now rewrite (treeAt_member r t Hwf Hin), Hcb, Hfree, Hkeep.
        -- rewrite git_delete. unfold Sim.deleteBranch. fold tmp.
           assert (Hhas : Sim.hasBranch r1 tmp = true).
           { rewrite commitOf_hasBranch. cbn [Sim.branches r1]. now rewrite Hct. }
           rewrite Hhas.
           assert (Hno : Sim.held (Sim.trees r1) tmp = false).
           { destruct (in_split t (Sim.trees r) Hin) as (before & after & Hts).
             cbn [Sim.trees r1]. rewrite Hts in Hpaths, Hheld |- *.
             rewrite (setTree_split before after t Hpaths).
             pose proof (only_holder before after t tmp Hheld Hon) as Honly.
             unfold Sim.held. apply existsb_false. intros x Hx.
             apply in_app_or in Hx as [Hx | [<- | Hx]].
             - apply Honly, in_or_app. now left.
             - unfold Sim.onBranch. cbn [Sim.tbranch].
               apply String.eqb_neq. intros E. now apply Hneq.
             - apply Honly, in_or_app. now right. }
           rewrite Hno. reflexivity.
Qed.

Lemma Revert_on_model_case_by_case_witness :
  result Sim.git (Revert NewDetacher "feature-x" Examples.plain) Examples.insideDetached
  = inr "failed to delete branch 'feature-x__wt_detach': exit status 1"
  /\ final Sim.git (Revert NewDetacher "feature-x" Examples.plain) Examples.orphanTemp
     = Examples.orphanGone.
Proof.
  pose proof (Revert_on_model_case_by_case
                Examples.insideDetached NewDetacher "feature-x" Examples.plain eq_refl
                ltac:(discriminate)) as (_ & _ & H1 & _).
  pose proof (Revert_on_model_case_by_case
                Examples.orphanTemp NewDetacher "feature-x" Examples.plain eq_refl
                ltac:(discriminate)) as (_ & _ & H2 & _).
  split.
  - refine (proj1 (proj1 (proj2 (H1 eq_refl eq_refl _)) eq_refl _)).
    + intros x [<- | [<- | []]]; [discriminate | reflexivity].
    + eexists. split; [right; left; reflexivity | reflexivity].
  - refine (proj2 (proj2 (proj2 (H2 eq_refl eq_refl _)) eq_refl _)).
    + intros x [<- | []]. discriminate.
    + intros x [<- | []]. discriminate.
Defined.
